(** * FinSight: the analytics engine of the finance dashboard, in Rocq

  A shallow embedding of the pure core of [src/App.tsx] (money and date
  helpers, the CSV codec, the rule classifier, the aggregations and the
  state mutations), followed by the properties of the specification.

  Conventions of the embedding.
  - A JavaScript string is a [string]: a sequence of code units, here the
    code units below 256 (ASCII and Latin-1).  [String.prototype.trim],
    [toLowerCase] and the comparison operators are written out on that
    alphabet.
  - A JavaScript number that holds cents, a count or a day number is a [Z];
    the arithmetic of the program on such values is exact below 2^53.  Where
    the program leaves the integers ([Number(text)], [x * 100], [a / b]),
    the value is a binary64 float, modelled exactly as a dyadic rational
    [m * 2^e] obtained by rounding to nearest, ties to even, with 53 bits and
    gradual underflow.  Overflow to [Infinity] (magnitudes from 2^1024 on) is
    outside the model: the rounding keeps 53 bits there.
  - A [Date] is the number of its calendar day (days since 1970-01-01 in the
    proleptic Gregorian calendar at local midnight, in a time zone whose days
    all start at midnight), or [None] for an Invalid Date.
  - [undefined] is [None]; a [Map] is an association list in insertion
    order; fresh identifiers ([uid]) and the current day ([todayISO]) are
    inputs. *)

From Stdlib Require Import ZArith String Ascii List Bool Lia DecimalString.
From Stdlib Require Import Permutation Sorted DecimalPos DecimalN.
Import ListNotations.

Open Scope string_scope.
Open Scope Z_scope.

(** ** JavaScript strings *)

Module JsString.

Definition dquote : ascii := "034"%char.
Definition comma : ascii := ","%char.
Definition LF : ascii := "010"%char.
Definition CR : ascii := "013"%char.

(** [x || ''] for a possibly undefined string. *)
Definition orEmpty (s : option string) : string :=
  match s with
  | Some v => v
  | None => ""
  end.

(** Truthiness of a possibly undefined string. *)
Definition truthy (s : option string) : bool :=
  negb (orEmpty s =? "")%string.

(** WhiteSpace and LineTerminator code units below 256. *)
Definition isWhiteSpace (c : ascii) : bool :=
  let n := nat_of_ascii c in
  (((9 <=? n) && (n <=? 13)) || (n =? 32) || (n =? 160))%nat.

Fixpoint trimStart (s : string) : string :=
  match s with
  | "" => ""
  | String c s' => if isWhiteSpace c then trimStart s' else s
  end.

Fixpoint trimEnd (s : string) : string :=
  match s with
  | "" => ""
  | String c s' =>
      match trimEnd s' with
      | "" => if isWhiteSpace c then "" else String c ""
      | r => String c r
      end
  end.

Definition trim (s : string) : string := trimEnd (trimStart s).

Definition lowerChar (c : ascii) : ascii :=
  let n := nat_of_ascii c in
  if (((65 <=? n) && (n <=? 90))
      || ((192 <=? n) && (n <=? 222) && negb (n =? 215)))%nat
  then ascii_of_nat (n + 32)
  else c.

Fixpoint toLowerCase (s : string) : string :=
  match s with
  | "" => ""
  | String c s' => String (lowerChar c) (toLowerCase s')
  end.

(** [s.includes(sub)] *)
Fixpoint includes (s sub : string) : bool :=
  prefix sub s
  || match s with
     | "" => false
     | String _ s' => includes s' sub
     end.

(** [s.replace(/c/g, '')] for a single code unit [c]. *)
Fixpoint removeAll (c : ascii) (s : string) : string :=
  match s with
  | "" => ""
  | String a s' =>
      if Ascii.eqb a c then removeAll c s' else String a (removeAll c s')
  end.

(** The code units of [s] that satisfy [keep], in order. *)
Fixpoint keepOnly (keep : ascii -> bool) (s : string) : string :=
  match s with
  | "" => ""
  | String a s' =>
      if keep a then String a (keepOnly keep s') else keepOnly keep s'
  end.

Fixpoint anyChar (p : ascii -> bool) (s : string) : bool :=
  match s with
  | "" => false
  | String a s' => p a || anyChar p s'
  end.

(** [s.slice(0, n)] and [s.slice(n)] for a non-negative [n]. *)
Fixpoint sliceTo (n : nat) (s : string) : string :=
  match n, s with
  | S n', String a s' => String a (sliceTo n' s')
  | _, _ => ""
  end.

Fixpoint sliceFrom (n : nat) (s : string) : string :=
  match n, s with
  | S n', String _ s' => sliceFrom n' s'
  | _, _ => s
  end.

(** [parts.join(sep)] *)
Fixpoint join (sep : string) (parts : list string) : string :=
  match parts with
  | [] => ""
  | [p] => p
  | p :: rest => p ++ sep ++ join sep rest
  end.

(** [arr.indexOf(x)] on an array of strings; [-1] when absent. *)
Fixpoint indexOf (x : string) (arr : list string) : Z :=
  match arr with
  | [] => -1
  | y :: rest =>
      if (y =? x)%string then 0
      else let i := indexOf x rest in if i <? 0 then -1 else i + 1
  end.

(** [arr[i]]: [undefined] out of range. *)
Definition at_ {A : Type} (arr : list A) (i : Z) : option A :=
  if i <? 0 then None else nth_error arr (Z.to_nat i).

Definition isDigit (c : ascii) : bool :=
  let n := nat_of_ascii c in ((48 <=? n) && (n <=? 57))%nat.

Definition digitValue (c : ascii) : Z := Z.of_nat (nat_of_ascii c) - 48.

(** [String(n)] for an integer [n]. *)
Definition ofZ (n : Z) : string :=
  if n <? 0
  then "-" ++ NilZero.string_of_uint (N.to_uint (Z.to_N (- n)))
  else NilZero.string_of_uint (N.to_uint (Z.to_N n)).

(** [s.padStart(2, '0')] *)
Definition padStart2 (s : string) : string :=
  match s with
  | "" => "00"
  | String a "" => String "0" s
  | _ => s
  end.

End JsString.

(** ** JavaScript numbers outside the integers *)

Module JsNumber.
Import JsString.

(** A finite binary64 value [m * 2^e]. *)
Definition double : Type := Z * Z.

Definition roundHalfEven (n d : Z) : Z :=
  let q := n / d in
  let r := n mod d in
  if 2 * r <? d then q
  else if d <? 2 * r then q + 1
  else if Z.even q then q else q + 1.

(** The fraction [n / (d * 2^e)] as a pair of integers. *)
Definition scaled (n d e : Z) : Z * Z :=
  if 0 <=? e then (n, d * 2 ^ e) else (n * 2 ^ (- e), d).

(** [floor (log2 (n / d))] for positive [n] and [d]. *)
Definition binade (n d : Z) : Z :=
  let e0 := Z.log2 n - Z.log2 d in
  let (a, b) := scaled n d e0 in
  if a <? b then e0 - 1 else e0.

Definition roundPositive (n d : Z) : double :=
  let e := Z.max (binade n d) (-1022) - 52 in
  let (a, b) := scaled n d e in
  (roundHalfEven a b, e).

(** The binary64 value nearest to the rational [n / d], [0 < d]. *)
Definition toDouble (n d : Z) : double :=
  if n =? 0 then (0, 0)
  else if 0 <? n then roundPositive n d
  else let (m, e) := roundPositive (- n) d in (- m, e).

(** [x * k] for an integer [k]. *)
Definition fmul (x : double) (k : Z) : double :=
  let (m, e) := x in
  if 0 <=? e then toDouble (k * m * 2 ^ e) 1 else toDouble (k * m) (2 ^ (- e)).

(** [a / b] for integers [a] and [b], [0 < b]. *)
Definition fdiv (a b : Z) : double := toDouble a b.

(** [Math.round(x)]: the integer [floor (x + 1/2)]. *)
Definition Math_round (x : double) : Z :=
  let (m, e) := x in
  if 0 <=? e then m * 2 ^ e else (2 * m + 2 ^ (- e)) / 2 ^ (1 - e).

(** DecimalDigits: the value read so far, the number of digits read and the
    rest of the text. *)
Fixpoint decimalDigits (s : string) (acc cnt : Z) : Z * Z * string :=
  match s with
  | String c s' =>
      if isDigit c then decimalDigits s' (10 * acc + digitValue c) (cnt + 1)
      else (acc, cnt, s)
  | "" => (acc, cnt, "")
  end.

(** StrUnsignedDecimalLiteral without exponent, as a fraction
    [(numerator, denominator)]; [None] when the text is not one. *)
Definition unsignedDecimal (s : string) : option (Z * Z) :=
  let '(i, ni, rest) := decimalDigits s 0 0 in
  match rest with
  | "" => if 0 <? ni then Some (i, 1) else None
  | String c rest' =>
      if Ascii.eqb c "." then
        let '(f, nf, rest'') := decimalDigits rest' i 0 in
        match rest'' with
        | "" => if 0 <? ni + nf then Some (f, 10 ^ nf) else None
        | _ => None
        end
      else None
  end.

(** [Number(s)] for a non-empty text [s] made of digits, [.] and [-];
    [None] is [NaN]. *)
Definition Number (s : string) : option double :=
  match s with
  | String "-" s' =>
      match unsignedDecimal s' with
      | Some (n, d) => Some (toDouble (- n) d)
      | None => None
      end
  | _ =>
      match unsignedDecimal s with
      | Some (n, d) => Some (toDouble n d)
      | None => None
      end
  end.

(** [(cents / 100).toFixed(2)]: the decimal [n / 100] nearest to the float,
    the larger [n] on a tie, below the 1e21 switch to exponent notation. *)
Definition toFixed2 (cents : Z) : string :=
  let (m, e) := fdiv (Z.abs cents) 100 in
  let n := if 0 <=? e then 100 * m * 2 ^ e
           else (200 * m + 2 ^ (- e)) / 2 ^ (1 - e) in
  (if cents <? 0 then "-" else "")
  ++ ofZ (n / 100) ++ "." ++ padStart2 (ofZ (n mod 100)).

End JsNumber.

(** ** Calendar days and [Date] objects *)

Module JsDate.
Import JsString.

(** ECMAScript [DayFromYear]: the day number of January 1st of year [y]. *)
Definition DayFromYear (y : Z) : Z :=
  365 * (y - 1970) + (y - 1969) / 4 - (y - 1901) / 100 + (y - 1601) / 400.

Definition InLeapYear (y : Z) : bool :=
  (y mod 4 =? 0) && (negb (y mod 100 =? 0) || (y mod 400 =? 0)).

(** Days in month [m] (0 = January) of year [y]. *)
Definition DaysInMonth (y m : Z) : Z :=
  if m =? 1 then (if InLeapYear y then 29 else 28)
  else if (m =? 3) || (m =? 5) || (m =? 8) || (m =? 10) then 30
  else 31.

(** Days of year [y] before month [m] (0 = January). *)
Definition DaysBeforeMonth (y m : Z) : Z :=
  let leap := if InLeapYear y then 1 else 0 in
  if m <=? 0 then 0
  else if m =? 1 then 31
  else if m =? 2 then 59 + leap
  else if m =? 3 then 90 + leap
  else if m =? 4 then 120 + leap
  else if m =? 5 then 151 + leap
  else if m =? 6 then 181 + leap
  else if m =? 7 then 212 + leap
  else if m =? 8 then 243 + leap
  else if m =? 9 then 273 + leap
  else if m =? 10 then 304 + leap
  else 334 + leap.

(** ECMAScript [MakeDay]: months outside 0..11 carry into the year, a date
    outside the month carries into the neighbouring days. *)
Definition MakeDay (year month date : Z) : Z :=
  let ym := year + month / 12 in
  let mn := month mod 12 in
  DayFromYear ym + DaysBeforeMonth ym mn + date - 1.

(** ECMAScript [YearFromTime]: the largest year that starts on or before
    day [n]. *)
Definition YearFromDay (n : Z) : Z :=
  let y := 1970 + (400 * n) / 146097 in
  if DayFromYear (y + 1) <=? n then y + 1
  else if DayFromYear y <=? n then y
  else y - 1.

Definition DayWithinYear (n : Z) : Z := n - DayFromYear (YearFromDay n).

(** ECMAScript [MonthFromTime], 0 = January. *)
Definition MonthFromDay (n : Z) : Z :=
  let y := YearFromDay n in
  let d := DayWithinYear n in
  if d <? DaysBeforeMonth y 1 then 0
  else if d <? DaysBeforeMonth y 2 then 1
  else if d <? DaysBeforeMonth y 3 then 2
  else if d <? DaysBeforeMonth y 4 then 3
  else if d <? DaysBeforeMonth y 5 then 4
  else if d <? DaysBeforeMonth y 6 then 5
  else if d <? DaysBeforeMonth y 7 then 6
  else if d <? DaysBeforeMonth y 8 then 7
  else if d <? DaysBeforeMonth y 9 then 8
  else if d <? DaysBeforeMonth y 10 then 9
  else if d <? DaysBeforeMonth y 11 then 10
  else 11.

(** ECMAScript [DateFromTime], 1 = the first of the month. *)
Definition DateFromDay (n : Z) : Z :=
  DayWithinYear n - DaysBeforeMonth (YearFromDay n) (MonthFromDay n) + 1.

(** A [Date] object; [None] is an Invalid Date. *)
Definition Date : Type := option Z.

Definition getFullYear (d : Date) : option Z := option_map YearFromDay d.
Definition getMonth (d : Date) : option Z := option_map MonthFromDay d.
Definition getDate (d : Date) : option Z := option_map DateFromDay d.

(** [d.getTime()] in days: the program only divides differences of times
    by the length of a day. *)
Definition getDay (d : Date) : option Z := d.

(** Arithmetic on possibly-[NaN] integers. *)
Definition lift2 (f : Z -> Z -> Z) (a b : option Z) : option Z :=
  match a, b with
  | Some x, Some y => Some (f x y)
  | _, _ => None
  end.

(** [d.setDate(v)] and [d.setMonth(v)], returning the updated object. *)
Definition setDate (d : Date) (v : option Z) : Date :=
  match d, v with
  | Some n, Some x => Some (MakeDay (YearFromDay n) (MonthFromDay n) x)
  | _, _ => None
  end.

Definition setMonth (d : Date) (v : option Z) : Date :=
  match d, v with
  | Some n, Some x => Some (MakeDay (YearFromDay n) x (DateFromDay n))
  | _, _ => None
  end.

Definition digits4 (a b c d : ascii) : Z :=
  1000 * digitValue a + 100 * digitValue b + 10 * digitValue c + digitValue d.

Definition digits2 (a b : ascii) : Z := 10 * digitValue a + digitValue b.

(** [new Date(`${s}T00:00:00`)] for a text [s] that spells a calendar
    date as YYYY-MM-DD: local midnight of that date.  For any other text
    the model answers an Invalid Date; engines read some of them as dates
    all the same (V8 reads a day up to 31 past the end of its month as a
    day of the next month, and a year written with a sign and six digits
    is part of the format), and nothing is stated about what the program
    does with such texts. *)
Definition newDate (s : string) : Date :=
  match s with
  | String y1 (String y2 (String y3 (String y4 (String h1
      (String m1 (String m2 (String h2 (String d1 (String d2 ""))))))))) =>
      if isDigit y1 && isDigit y2 && isDigit y3 && isDigit y4
         && Ascii.eqb h1 "-" && isDigit m1 && isDigit m2
         && Ascii.eqb h2 "-" && isDigit d1 && isDigit d2
      then
        let y := digits4 y1 y2 y3 y4 in
        let m := digits2 m1 m2 in
        let d := digits2 d1 d2 in
        if (1 <=? m) && (m <=? 12) && (1 <=? d) && (d <=? DaysInMonth y (m - 1))
        then Some (MakeDay y (m - 1) d)
        else None
      else None
  | _ => None
  end.

(** [String(v)] for a possibly-[NaN] integer. *)
Definition showNumber (v : option Z) : string :=
  match v with
  | Some n => ofZ n
  | None => "NaN"
  end.

(** [`${yyyy}-${mm}-${dd}`] as the date helpers build it: the year as it
    prints, month and day padded to two digits. *)
Definition formatISO (d : Date) : string :=
  showNumber (getFullYear d) ++ "-"
  ++ padStart2 (showNumber (lift2 Z.add (getMonth d) (Some 1))) ++ "-"
  ++ padStart2 (showNumber (getDate d)).

End JsDate.

(** ** [Map] objects and [Array.prototype.sort] *)

Module JsMap.

(** A [Map] with string keys: the entries in insertion order. *)
Definition Map (V : Type) : Type := list (string * V).

Fixpoint get {V : Type} (k : string) (m : Map V) : option V :=
  match m with
  | [] => None
  | (k', v) :: rest => if (k' =? k)%string then Some v else get k rest
  end.

(** [m.set(k, v)]: an existing key keeps its place. *)
Fixpoint set {V : Type} (k : string) (v : V) (m : Map V) : Map V :=
  match m with
  | [] => [(k, v)]
  | (k', v') :: rest =>
      if (k' =? k)%string then (k', v) :: rest else (k', v') :: set k v rest
  end.

(** [new Map(entries)] *)
Definition ofEntries {V : Type} (entries : list (string * V)) : Map V :=
  fold_left (fun m kv => set (fst kv) (snd kv) m) entries [].

(** [Array.from(m.values())] *)
Definition values {V : Type} (m : Map V) : list V := map snd m.

Definition keys {V : Type} (m : Map V) : list string := map fst m.

End JsMap.

Module JsArray.

(** [arr.sort(cmp)]: the comparator returns a number, negative when its
    first argument goes first.  The sort is stable.  Where a comparator is
    not consistent, as one that never answers 0 for elements that tie,
    ECMAScript leaves the order to the engine (V8 puts such elements in
    the reverse of their order in the array, this insertion sort keeps
    it): what is proved of a list sorted that way holds whatever the
    order between the elements that tie. *)
Fixpoint insert {A : Type} (cmp : A -> A -> Z) (x : A) (l : list A) : list A :=
  match l with
  | [] => [x]
  | y :: rest => if cmp x y <=? 0 then x :: l else y :: insert cmp x rest
  end.

Fixpoint sort {A : Type} (cmp : A -> A -> Z) (l : list A) : list A :=
  match l with
  | [] => []
  | x :: rest => insert cmp x (sort cmp rest)
  end.

End JsArray.

(** ** The data model *)

Inductive TxType : Type := expense | income.

Definition TxType_eqb (a b : TxType) : bool :=
match a, b with
| expense, expense | income, income => true
| _, _ => false
end.

Definition TxType_text (t : TxType) : string :=
match t with
| expense => "expense"
| income => "income"
end.

Module Transaction.
Record t : Type := make {
  id : string;
  date : string;
  merchant : string;
  amountCents : Z;
  type : TxType;
  categoryId : string;
  accountId : string;
  note : option string
}.
End Transaction.
Abbreviation Transaction := Transaction.t.

Module Category.
Record t : Type := make {
  id : string;
  name : string;
  emoji : option string;
  monthlyBudgetCents : option Z
}.
End Category.
Abbreviation Category := Category.t.

Inductive AccountType : Type := chequing | credit | savings.

Module Account.
Record t : Type := make {
  id : string;
  name : string;
  type : AccountType
}.
End Account.
Abbreviation Account := Account.t.

Module Rule.
Record t : Type := make {
  id : string;
  contains : string;
  categoryId : string
}.
End Rule.
Abbreviation Rule := Rule.t.

Inductive Currency : Type := CAD | USD.

Module Settings.
Record t : Type := make {
  currency : Currency;
  hideCents : bool;
  smartCategorize : bool
}.
End Settings.

(** [AppState]; its field [version], the constant [1], is left out. *)
Module AppState.
Record t : Type := make {
  categories : list Category;
  accounts : list Account;
  rules : list Rule;
  transactions : list Transaction;
  settings : Settings.t
}.
End AppState.
Abbreviation AppState := AppState.t.

Module DateRange.
Record t : Type := make { min : string; max : string }.
End DateRange.
Abbreviation DateRange := DateRange.t.

(** ** Money and date utilities *)

Section Utilities.
Import JsString JsNumber JsDate.

(** [monthStartISO] *)
Definition monthStartISO (dateISO : string) : string :=
  let d := newDate dateISO in
  showNumber (getFullYear d) ++ "-"
  ++ padStart2 (showNumber (lift2 Z.add (getMonth d) (Some 1))) ++ "-01".

(** [addDaysISO] *)
Definition addDaysISO (dateISO : string) (days : Z) : string :=
  let d := newDate dateISO in
  let d := setDate d (lift2 Z.add (getDate d) (Some days)) in
  formatISO d.

(** [previousDateRange] *)
Definition previousDateRange (range : DateRange) : DateRange :=
  let minDate := newDate (DateRange.min range) in
  let maxDate := newDate (DateRange.max range) in
  let dayDiff :=
    lift2 Z.add
      (option_map (Z.max 0) (lift2 Z.sub (getDay maxDate) (getDay minDate)))
      (Some 1) in
  let prevMax := setDate minDate (lift2 Z.sub (getDate minDate) (Some 1)) in
  let prevMin :=
    setDate prevMax
      (lift2 Z.sub (getDate prevMax) (lift2 Z.sub dayDiff (Some 1))) in
  DateRange.make (formatISO prevMin) (formatISO prevMax).

Definition keepMoneyChar (c : ascii) : bool :=
  isDigit c || Ascii.eqb c "." || Ascii.eqb c "-".

(** [parseMoneyToCents] *)
Definition parseMoneyToCents (input : string) : Z :=
  let cleaned := keepOnly keepMoneyChar input in
  if (cleaned =? "")%string || (cleaned =? "-")%string
     || (cleaned =? ".")%string
  then 0
  else match Number cleaned with
       | None => 0
       | Some val => Math_round (fmul val 100)
       end.

(** [dateInRange]: both comparisons are the lexicographic one of strings. *)
Definition dateInRange (dateISO minISO maxISO : string) : bool :=
  String.leb minISO dateISO && String.leb dateISO maxISO.

(** [safeLower], on a string and on a possibly undefined one. *)
Definition safeLower (s : string) : string := toLowerCase s.

Definition safeLowerU (s : option string) : string :=
  toLowerCase (orEmpty s).

Inductive DatePreset : Type := this_month | last_month | last_90 | all.

(** [dateRangeForPreset], with the value of [todayISO()] as [today]. *)
Definition dateRangeForPreset (today : string) (preset : DatePreset)
  : DateRange :=
  match preset with
  | all => DateRange.make "1900-01-01" "2999-12-31"
  | this_month => DateRange.make (monthStartISO today) today
  | last_90 => DateRange.make (addDaysISO today (-89)) today
  | last_month =>
      let d := newDate today in
      let d := setMonth d (lift2 Z.sub (getMonth d) (Some 1)) in
      let min :=
        showNumber (getFullYear d) ++ "-"
        ++ padStart2 (showNumber (lift2 Z.add (getMonth d) (Some 1)))
        ++ "-01" in
      let e := newDate min in
      let e := setMonth e (lift2 Z.add (getMonth e) (Some 1)) in
      let e := setDate e (lift2 Z.sub (getDate e) (Some 1)) in
      DateRange.make min (formatISO e)
  end.

End Utilities.

(** ** Aggregation helpers *)

Module DayNet.
Record t : Type := make {
  date : string;
  netCents : Z;
  incomeCents : Z;
  expenseCents : Z
}.
End DayNet.

Section Grouping.
Import JsString.

(** One turn of the loop of [groupByDayNet]. *)
Definition addToDay (map : JsMap.Map DayNet.t) (t : Transaction)
  : JsMap.Map DayNet.t :=
  let key := Transaction.date t in
  let existing :=
    match JsMap.get key map with
    | Some e => e
    | None => DayNet.make key 0 0 0
    end in
  let existing :=
    match Transaction.type t with
    | income =>
        DayNet.make (DayNet.date existing)
          (DayNet.netCents existing + Transaction.amountCents t)
          (DayNet.incomeCents existing + Transaction.amountCents t)
          (DayNet.expenseCents existing)
    | expense =>
        DayNet.make (DayNet.date existing)
          (DayNet.netCents existing - Transaction.amountCents t)
          (DayNet.incomeCents existing)
          (DayNet.expenseCents existing + Transaction.amountCents t)
    end in
  JsMap.set key existing map.

Definition byDateAscending (a b : DayNet.t) : Z :=
  if String.ltb (DayNet.date a) (DayNet.date b) then -1 else 1.

(** [groupByDayNet] *)
Definition groupByDayNet (transactions : list Transaction) : list DayNet.t :=
  let map := fold_left addToDay transactions [] in
  JsArray.sort byDateAscending (JsMap.values map).

(** [x || 0] for a possibly undefined number. *)
Definition orZero (v : option Z) : Z :=
  match v with
  | Some n => n
  | None => 0
  end.

(** One turn of the loop of [groupExpenseByCategory]. *)
Definition addToCategory (map : JsMap.Map Z) (t : Transaction)
  : JsMap.Map Z :=
  match Transaction.type t with
  | income => map
  | expense =>
      JsMap.set (Transaction.categoryId t)
        (orZero (JsMap.get (Transaction.categoryId t) map)
         + Transaction.amountCents t)
        map
  end.

(** [groupExpenseByCategory] *)
Definition groupExpenseByCategory (transactions : list Transaction)
  : JsMap.Map Z :=
  fold_left addToCategory transactions [].

End Grouping.

(** ** The CSV codec *)

Section Csv.
Import JsString JsNumber.

Definition needsQuoting (c : ascii) : bool :=
  Ascii.eqb c LF || Ascii.eqb c CR || Ascii.eqb c comma || Ascii.eqb c dquote.

(** The [replace] of [csvEscape]: every double quote is written twice. *)
Fixpoint doubleQuotes (s : string) : string :=
  match s with
  | "" => ""
  | String a s' =>
      if Ascii.eqb a dquote
      then String dquote (String dquote (doubleQuotes s'))
      else String a (doubleQuotes s')
  end.

(** [csvEscape] *)
Definition csvEscape (value : string) : string :=
  if anyChar needsQuoting value
  then String dquote (doubleQuotes value ++ String dquote "")
  else value.

Definition csvHeader : list string :=
  ["date"; "merchant"; "amount"; "type"; "category"; "account"; "note"].

(** [x || ''] after a [Map.get]. *)
Definition getOrEmpty (k : string) (m : JsMap.Map string) : string :=
  orEmpty (JsMap.get k m).

Definition byDateDescending (a b : Transaction) : Z :=
  if String.ltb (Transaction.date a) (Transaction.date b) then 1 else -1.

(** The cells of one exported transaction. *)
Definition exportRow (catById accById : JsMap.Map string) (t : Transaction)
  : list string :=
  [ Transaction.date t;
    Transaction.merchant t;
    toFixed2 (Transaction.amountCents t);
    TxType_text (Transaction.type t);
    getOrEmpty (Transaction.categoryId t) catById;
    getOrEmpty (Transaction.accountId t) accById;
    orEmpty (Transaction.note t) ].

(** The text that [exportCSV] builds from a header and rows. *)
Definition csvText (rows : list (list string)) : string :=
  join (String LF "") (map (fun r => join "," (map csvEscape r)) rows).

(** The rows of [exportCSV] for transactions taken in the given order. *)
Definition serialize (categories : list Category) (accounts : list Account)
    (transactions : list Transaction) : string :=
  let catById :=
    JsMap.ofEntries
      (map (fun c => (Category.id c, Category.name c)) categories) in
  let accById :=
    JsMap.ofEntries
      (map (fun a => (Account.id a, Account.name a)) accounts) in
  csvText (csvHeader :: map (exportRow catById accById) transactions).

(** [exportCSV]: the text handed to the download. *)
Definition exportCSV (state : AppState) : string :=
  serialize (AppState.categories state) (AppState.accounts state)
    (JsArray.sort byDateDescending (AppState.transactions state)).

(** The loop of [parseCSVText] from position [i] on: [text] is what is left
    of the input, [rows], [row], [cur] and [inQuotes] are the variables of
    the loop. *)
Fixpoint tokenize (text : string) (rows : list (list string))
    (row : list string) (cur : string) (inQuotes : bool)
  : list (list string) :=
  match text with
  | "" => (rows ++ [row ++ [removeAll CR cur]])%list
  | String ch rest =>
      if inQuotes then
        if Ascii.eqb ch dquote then
          match rest with
          | String next rest' =>
              if Ascii.eqb next dquote
              then tokenize rest' rows row (cur ++ String dquote "") true
              else tokenize rest rows row cur false
          | "" => tokenize rest rows row cur false
          end
        else tokenize rest rows row (cur ++ String ch "") true
      else if Ascii.eqb ch dquote then tokenize rest rows row cur true
      else if Ascii.eqb ch comma then tokenize rest rows (row ++ [cur])%list "" false
      else if Ascii.eqb ch LF
      then tokenize rest (rows ++ [row ++ [removeAll CR cur]])%list [] "" false
      else tokenize rest rows row (cur ++ String ch "") false
  end.

Definition nonEmptyRow (r : list string) : bool :=
  existsb (fun c => (0 <? String.length c)%nat) r.

(** [parseCSVText] *)
Definition parseCSVText (text : string) : list (list string) :=
  filter nonEmptyRow (map (map trim) (tokenize text [] [] "" false)).

End Csv.

(** ** The classifier *)

Section Classifier.
Import JsString.

(** The loop of [applySmartCategory] over the rules that are left, [m]
    being the lower-cased merchant. *)
Fixpoint firstMatch (m : string) (rules : list Rule) (fallbackCategoryId : string)
  : string :=
  match rules with
  | [] => fallbackCategoryId
  | r :: rest =>
      if (trim (Rule.contains r) =? "")%string
      then firstMatch m rest fallbackCategoryId
      else if includes m (safeLower (Rule.contains r))
      then Rule.categoryId r
      else firstMatch m rest fallbackCategoryId
  end.

(** [applySmartCategory] *)
Definition applySmartCategory (merchant : string) (rules : list Rule)
    (fallbackCategoryId : string) : string :=
  firstMatch (safeLower merchant) rules fallbackCategoryId.

End Classifier.

(** ** The aggregation engine *)

Module Totals.
Record t : Type := make {
  income : Z;
  expense : Z;
  net : Z;
  savingsRate : Z
}.
End Totals.

Module BudgetRow.
Record t : Type := make {
  categoryId : string;
  budgetCents : Z;
  spentCents : Z;
  remainingCents : Z
}.
End BudgetRow.

Module BudgetStats.
Record t : Type := make {
  rows : list BudgetRow.t;
  totalBudget : Z;
  totalSpent : Z;
  remaining : Z
}.
End BudgetStats.

Module CashflowPoint.
Record t : Type := make {
  date : string;
  runningCents : Z;
  incomeCents : Z;
  expenseCents : Z
}.
End CashflowPoint.

Section Aggregation.
Import JsString JsNumber.

(** [categoryName] *)
Definition categoryName (categories : list Category) (id : string) : string :=
  match find (fun c => (Category.id c =? id)%string) categories with
  | Some c => if (Category.name c =? "")%string then "Unknown" else Category.name c
  | None => "Unknown"
  end.

(** [filteredTx]: date range, account, search, then newest first. *)
Definition filteredTx (state : AppState) (range : DateRange)
    (accountFilter search : string) : list Transaction :=
  let s := safeLower search in
  let inRange :=
    filter (fun t => dateInRange (Transaction.date t)
                       (DateRange.min range) (DateRange.max range))
      (AppState.transactions state) in
  let ofAccount :=
    filter (fun t => if (accountFilter =? "all")%string then true
                     else (Transaction.accountId t =? accountFilter)%string)
      inRange in
  let found :=
    filter (fun t =>
              if (s =? "")%string then true
              else includes (safeLower (Transaction.merchant t)) s
                   || includes (safeLower (orEmpty (Transaction.note t))) s
                   || includes (safeLower (categoryName (AppState.categories state)
                                             (Transaction.categoryId t))) s)
      ofAccount in
  JsArray.sort byDateDescending found.

(** One turn of the loop of [totals] on the pair [(income, expense)]. *)
Definition addToTotals (acc : Z * Z) (t : Transaction) : Z * Z :=
  match Transaction.type t with
  | income => (fst acc + Transaction.amountCents t, snd acc)
  | expense => (fst acc, snd acc + Transaction.amountCents t)
  end.

(** [Math.round((net / income) * 100)] *)
Definition percentOf (net inc : Z) : Z := Math_round (fmul (fdiv net inc) 100).

(** [totals] (and [previousTotals], the same code on another list). *)
Definition totals (filtered : list Transaction) : Totals.t :=
  let acc := fold_left addToTotals filtered (0, 0) in
  let inc := fst acc in
  let exp := snd acc in
  let net := inc - exp in
  let savingsRate := if 0 <? inc then percentOf net inc else 0 in
  Totals.make inc exp net savingsRate.

Definition hasBudget (c : Category) : bool :=
  0 <? orZero (Category.monthlyBudgetCents c).

Definition bySpentDescending (a b : BudgetRow.t) : Z :=
  BudgetRow.spentCents b - BudgetRow.spentCents a.

(** The row of [budgetStats] for the budget [(id, budgetCents)]. *)
Definition budgetRow (spentByCat : JsMap.Map Z) (b : string * Z) : BudgetRow.t :=
  let spent := orZero (JsMap.get (fst b) spentByCat) in
  let remaining := snd b - spent in
  BudgetRow.make (fst b) (snd b) spent remaining.

(** [budgetStats] *)
Definition budgetStats (state : AppState) (range : DateRange) : BudgetStats.t :=
  let budgets :=
    map (fun c => (Category.id c, orZero (Category.monthlyBudgetCents c)))
      (filter hasBudget (AppState.categories state)) in
  let spentByCat :=
    groupExpenseByCategory
      (filter (fun t => dateInRange (Transaction.date t)
                          (DateRange.min range) (DateRange.max range))
         (AppState.transactions state)) in
  let rows := JsArray.sort bySpentDescending (map (budgetRow spentByCat) budgets) in
  let totalBudget := fold_left (fun sum r => sum + BudgetRow.budgetCents r) rows 0 in
  let totalSpent := fold_left (fun sum r => sum + BudgetRow.spentCents r) rows 0 in
  BudgetStats.make rows totalBudget totalSpent (totalBudget - totalSpent).

(** The [map] of [cashflow], with the variable [running] threaded. *)
Fixpoint runningPoints (running : Z) (daily : list DayNet.t)
  : list CashflowPoint.t :=
  match daily with
  | [] => []
  | d :: rest =>
      let running := running + DayNet.netCents d in
      CashflowPoint.make (sliceFrom 5 (DayNet.date d)) running
        (DayNet.incomeCents d) (DayNet.expenseCents d)
      :: runningPoints running rest
  end.

(** [cashflow] *)
Definition cashflow (filtered : list Transaction) : list CashflowPoint.t :=
  runningPoints 0 (groupByDayNet (rev filtered)).

End Aggregation.

(** ** The state mutation layer *)

Module TxForm.
(** The fields of the add-transaction dialog. *)
Record t : Type := make {
  txDate : string;
  txMerchant : string;
  txAmount : string;
  txType : TxType;
  txCategoryId : string;
  txAccountId : string;
  txNote : string
}.
End TxForm.

Module ImportDialog.
Record t : Type := make {
  importText : string;
  importOpen : bool
}.
End ImportDialog.

Module ImportColumns.
(** The column indices that [importFromText] reads off the header. *)
Record t : Type := make {
  dateIdx : Z;
  merchantIdx : Z;
  amountIdx : Z;
  typeIdx : Z;
  categoryIdx : Z;
  accountIdx : Z;
  noteIdx : Z
}.
End ImportColumns.

Section Mutations.
Import JsString.

Definition withTransactions (prev : AppState) (txs : list Transaction) : AppState :=
  AppState.make (AppState.categories prev) (AppState.accounts prev)
    (AppState.rules prev) txs (AppState.settings prev).

Definition withCategories (prev : AppState) (cats : list Category) : AppState :=
  AppState.make cats (AppState.accounts prev) (AppState.rules prev)
    (AppState.transactions prev) (AppState.settings prev).

Definition withRules (prev : AppState) (rules : list Rule) : AppState :=
  AppState.make (AppState.categories prev) (AppState.accounts prev) rules
    (AppState.transactions prev) (AppState.settings prev).

Definition withSettings (prev : AppState) (s : Settings.t) : AppState :=
  AppState.make (AppState.categories prev) (AppState.accounts prev)
    (AppState.rules prev) (AppState.transactions prev) s.

(** [x || undefined] for a string. *)
Definition orUndefined (s : string) : option string :=
  if (s =? "")%string then None else Some s.

(** [addTransaction]: [id] is the value of [uid('tx')]; the result is the
    state after [setState], the state itself when the function returns
    early. *)
Definition addTransaction (id : string) (form : TxForm.t) (prev : AppState)
  : AppState :=
  let amountCents := Z.abs (parseMoneyToCents (TxForm.txAmount form)) in
  if (trim (TxForm.txMerchant form) =? "")%string then prev
  else if amountCents <=? 0 then prev
  else
    let newTx :=
      Transaction.make id (TxForm.txDate form) (trim (TxForm.txMerchant form))
        amountCents (TxForm.txType form)
        (match TxForm.txType form with
         | income => "cat_income"
         | expense => TxForm.txCategoryId form
         end)
        (TxForm.txAccountId form)
        (orUndefined (trim (TxForm.txNote form))) in
    withTransactions prev (newTx :: AppState.transactions prev).

(** [deleteTransaction] *)
Definition deleteTransaction (id : string) (prev : AppState) : AppState :=
  withTransactions prev
    (filter (fun t => negb (Transaction.id t =? id)%string)
       (AppState.transactions prev)).

(** [upsertCategoryBudget] *)
Definition upsertCategoryBudget (categoryId : string) (monthlyBudgetCents : Z)
    (prev : AppState) : AppState :=
  withCategories prev
    (map (fun c => if (Category.id c =? categoryId)%string
                   then Category.make (Category.id c) (Category.name c)
                          (Category.emoji c) (Some monthlyBudgetCents)
                   else c)
       (AppState.categories prev)).

(** [addRule]: [id] is the value of [uid('rule')]. *)
Definition addRule (id : string) (contains categoryId : string)
    (prev : AppState) : AppState :=
  let trimmed := trim contains in
  if (trimmed =? "")%string then prev
  else withRules prev (Rule.make id trimmed categoryId :: AppState.rules prev).

(** [deleteRule] *)
Definition deleteRule (id : string) (prev : AppState) : AppState :=
  withRules prev
    (filter (fun r => negb (Rule.id r =? id)%string) (AppState.rules prev)).

(** [x || fallback] after a [Map.get] of an identifier. *)
Definition getOr (k : string) (m : JsMap.Map string) (fallback : string) : string :=
  match JsMap.get k m with
  | Some v => if (v =? "")%string then fallback else v
  | None => fallback
  end.

(** The header row of [importFromText] turned into column indices. *)
Definition importColumns (header0 : list string) : ImportColumns.t :=
  let header := map safeLower header0 in
  let idx := fun name => indexOf name header in
  ImportColumns.make (idx "date") (idx "merchant") (idx "amount") (idx "type")
    (idx "category") (idx "account") (idx "note").

(** The body of the loop of [importFromText] for the row [r]: the
    transaction pushed, or [None] when the row is skipped.  [id] is the
    value [uid('tx')] would take. *)
Definition importRow (state : AppState) (cols : ImportColumns.t)
    (id : string) (r : list string) : option Transaction :=
  let catByName :=
    JsMap.ofEntries
      (map (fun c => (safeLower (Category.name c), Category.id c))
         (AppState.categories state)) in
  let accByName :=
    JsMap.ofEntries
      (map (fun a => (safeLower (Account.name a), Account.id a))
         (AppState.accounts state)) in
  let date := sliceTo 10 (orEmpty (at_ r (ImportColumns.dateIdx cols))) in
  let merchant := orEmpty (at_ r (ImportColumns.merchantIdx cols)) in
  let amount := orEmpty (at_ r (ImportColumns.amountIdx cols)) in
  let type :=
    let v := at_ r (ImportColumns.typeIdx cols) in
    if truthy v then orEmpty v else "expense" in
  let categoryNameVal :=
    if 0 <=? ImportColumns.categoryIdx cols
    then at_ r (ImportColumns.categoryIdx cols) else Some "" in
  let accountNameVal :=
    if 0 <=? ImportColumns.accountIdx cols
    then at_ r (ImportColumns.accountIdx cols) else Some "" in
  let note :=
    if 0 <=? ImportColumns.noteIdx cols
    then at_ r (ImportColumns.noteIdx cols) else Some "" in
  if (date =? "")%string || (merchant =? "")%string || (amount =? "")%string
  then None
  else
    let amountCents := Z.abs (parseMoneyToCents amount) in
    if amountCents <=? 0 then None
    else
      let resolvedAccountId :=
        getOr (safeLowerU accountNameVal) accByName "acc_cc" in
      let resolvedCategoryId :=
        if (type =? "income")%string then "cat_income"
        else if truthy categoryNameVal
        then getOr (safeLowerU categoryNameVal) catByName "cat_other"
        else if Settings.smartCategorize (AppState.settings state)
        then applySmartCategory merchant (AppState.rules state) "cat_other"
        else "cat_other" in
      Some (Transaction.make id date merchant amountCents
              (if (type =? "income")%string then income else expense)
              resolvedCategoryId resolvedAccountId
              (if truthy note then note else None)).

(** The loop of [importFromText] over the data rows that are left; [next]
    is the array built so far and [uid k] the identifier of the [k]-th
    transaction pushed. *)
Fixpoint importRows (uid : nat -> string) (state : AppState)
    (cols : ImportColumns.t) (rows : list (list string))
    (next : list Transaction) : list Transaction :=
  match rows with
  | [] => next
  | r :: rest =>
      match importRow state cols (uid (List.length next)) r with
      | Some t => importRows uid state cols rest (next ++ [t])%list
      | None => importRows uid state cols rest next
      end
  end.

(** [importFromText]: the application state and the state of the import
    dialog after the call. *)
Definition importFromText (uid : nat -> string) (state : AppState)
    (dialog : ImportDialog.t) : AppState * ImportDialog.t :=
  let rows := parseCSVText (ImportDialog.importText dialog) in
  match rows with
  | [] | [_] => (state, dialog)
  | header0 :: dataRows =>
      let cols := importColumns header0 in
      if (ImportColumns.dateIdx cols =? -1)
         || (ImportColumns.merchantIdx cols =? -1)
         || (ImportColumns.amountIdx cols =? -1)
      then (state, dialog)
      else
        let next := importRows uid state cols dataRows [] in
        if (List.length next =? 0)%nat then (state, dialog)
        else (withTransactions state (next ++ AppState.transactions state)%list,
              ImportDialog.make "" false)
  end.

End Mutations.

(** ** The default dataset and the reachable states *)

Section DefaultState.

(** The emoji of a category is display text outside the Latin-1 alphabet;
    the model records only that the default categories carry one. *)
Definition glyph : option string := Some "?".

(** [defaultState], with the value of [todayISO()] when the module is
    loaded as [today]. *)
Definition defaultState (today : string) : AppState :=
  AppState.make
    [ Category.make "cat_gro" "Groceries" glyph (Some 60000);
      Category.make "cat_rent" "Rent" glyph (Some 180000);
      Category.make "cat_eat" "Eating Out" glyph (Some 30000);
      Category.make "cat_trans" "Transport" glyph (Some 20000);
      Category.make "cat_subs" "Subscriptions" glyph (Some 15000);
      Category.make "cat_health" "Health" glyph (Some 15000);
      Category.make "cat_other" "Other" glyph (Some 25000);
      Category.make "cat_income" "Income" glyph None ]
    [ Account.make "acc_cheq" "Chequing" chequing;
      Account.make "acc_cc" "Credit Card" credit;
      Account.make "acc_save" "Savings" savings ]
    [ Rule.make "r1" "uber" "cat_trans";
      Rule.make "r2" "loblaws" "cat_gro";
      Rule.make "r3" "spotify" "cat_subs" ]
    [ Transaction.make "t1" (addDaysISO today (-2)) "Loblaws" 8423 expense
        "cat_gro" "acc_cc" (Some "Weekly groceries");
      Transaction.make "t2" (addDaysISO today (-4)) "Spotify" 1199 expense
        "cat_subs" "acc_cc" None;
      Transaction.make "t3" (addDaysISO today (-6)) "Ramen" 2487 expense
        "cat_eat" "acc_cc" None;
      Transaction.make "t4" (addDaysISO today (-10)) "Paycheque" 240000 income
        "cat_income" "acc_cheq" None;
      Transaction.make "t5" (monthStartISO today) "Rent" 180000 expense
        "cat_rent" "acc_cheq" None;
      Transaction.make "t6" "2025-09-08" "Farmers Market" 5600 expense
        "cat_gro" "acc_cc" None;
      Transaction.make "t7" "2025-09-15" "Commuter Pass" 12000 expense
        "cat_trans" "acc_cc" None;
      Transaction.make "t8" "2025-09-30" "Paycheque" 240000 income
        "cat_income" "acc_cheq" None;
      Transaction.make "t9" "2025-10-10" "Dentist" 32000 expense
        "cat_health" "acc_cheq" None;
      Transaction.make "t10" "2025-10-22" "Meal Prep" 18500 expense
        "cat_gro" "acc_cc" None;
      Transaction.make "t11" "2025-10-31" "Paycheque" 240000 income
        "cat_income" "acc_cheq" None;
      Transaction.make "t12" "2025-11-05" "Holiday Flights" 65000 expense
        "cat_other" "acc_cc" (Some "Family travel");
      Transaction.make "t13" "2025-11-18" "Grocery Stock-up" 42000 expense
        "cat_gro" "acc_cc" None;
      Transaction.make "t14" "2025-11-28" "Black Friday Electronics" 98000 expense
        "cat_other" "acc_cc" None;
      Transaction.make "t15" "2025-11-30" "Paycheque" 240000 income
        "cat_income" "acc_cheq" None;
      Transaction.make "t16" "2025-12-03" "Gifts & Decor" 75000 expense
        "cat_other" "acc_cc" None;
      Transaction.make "t17" "2025-12-12" "Dining Out" 28000 expense
        "cat_eat" "acc_cc" None;
      Transaction.make "t18" "2025-12-20" "Charity Donation" 30000 expense
        "cat_other" "acc_cheq" None;
      Transaction.make "t19" "2025-12-31" "Paycheque" 240000 income
        "cat_income" "acc_cheq" None ]
    (Settings.make CAD false true).

(** [resetState] *)
Definition resetState (today : string) (prev : AppState) : AppState :=
  defaultState today.

(** The three switches of the settings tab. *)
Definition setSmartCategorize (v : bool) (prev : AppState) : AppState :=
  withSettings prev
    (Settings.make (Settings.currency (AppState.settings prev))
       (Settings.hideCents (AppState.settings prev)) v).

Definition setCurrency (v : Currency) (prev : AppState) : AppState :=
  withSettings prev
    (Settings.make v (Settings.hideCents (AppState.settings prev))
       (Settings.smartCategorize (AppState.settings prev))).

Definition setHideCents (v : bool) (prev : AppState) : AppState :=
  withSettings prev
    (Settings.make (Settings.currency (AppState.settings prev)) v
       (Settings.smartCategorize (AppState.settings prev))).

(** One user action on the application state: every call of [setState] in
    the component. *)
Inductive step (today : string) : AppState -> AppState -> Prop :=
| step_reset : forall s, step today s (resetState today s)
| step_addTransaction : forall id form s,
    step today s (addTransaction id form s)
| step_deleteTransaction : forall id s,
    step today s (deleteTransaction id s)
| step_upsertCategoryBudget : forall categoryId cents s,
    step today s (upsertCategoryBudget categoryId cents s)
| step_addRule : forall id contains categoryId s,
    step today s (addRule id contains categoryId s)
| step_deleteRule : forall id s, step today s (deleteRule id s)
| step_importFromText : forall uid dialog s,
    step today s (fst (importFromText uid s dialog))
| step_setSmartCategorize : forall v s, step today s (setSmartCategorize v s)
| step_setCurrency : forall v s, step today s (setCurrency v s)
| step_setHideCents : forall v s, step today s (setHideCents v s).

(** The states reachable from the default dataset. *)
Inductive reachable (today : string) : AppState -> Prop :=
| reachable_default : reachable today (defaultState today)
| reachable_step : forall s s',
    reachable today s -> step today s s' -> reachable today s'.

End DefaultState.

(** ** Colours, gauges and amounts on display *)

Module ProgressBarView.
(** What [ProgressBar] renders: the percentage, the colour class of the bar
    and the caption. *)
Record t : Type := make {
  pct : Z;
  tone : string;
  caption : string
}.
End ProgressBarView.

Section Presentation.
Import JsString JsNumber.

Definition CATEGORY_PALETTE : list string :=
  [ "#2563eb"; "#16a34a"; "#f97316"; "#9333ea"; "#dc2626";
    "#0891b2"; "#ca8a04"; "#db2777"; "#4f46e5"; "#0f766e" ].

(** The loop of [hashToIndex] over the code units that are left, [h] being
    the hash so far; [>>> 0] keeps the low 32 bits. *)
Fixpoint hashLoop (input : string) (h : Z) : Z :=
  match input with
  | "" => h
  | String c rest =>
      hashLoop rest ((h * 31 + Z.of_nat (nat_of_ascii c)) mod 2 ^ 32)
  end.

(** [hashToIndex]; [None] is the [NaN] of a remainder by zero. *)
Definition hashToIndex (input : string) (modulus : Z) : option Z :=
  let h := hashLoop input 0 in
  if modulus =? 0 then None else Some (Z.rem h modulus).

(** [categoryColour]; [None] is [undefined]. *)
Definition categoryColour (categoryId : string) : option string :=
  match hashToIndex categoryId (Z.of_nat (List.length CATEGORY_PALETTE)) with
  | Some i => at_ CATEGORY_PALETTE i
  | None => None
  end.

(** [clamp] *)
Definition clamp (n min max : Z) : Z := Z.max min (Z.min max n).

(** [ProgressBar] *)
Definition ProgressBar (value max : Z) : ProgressBarView.t :=
  let pct := if max <=? 0 then 0 else clamp (percentOf value max) 0 120 in
  let tone :=
    if pct <=? 80 then "bg-emerald-500"
    else if pct <=? 100 then "bg-amber-500"
    else "bg-rose-500" in
  ProgressBarView.make pct tone (if 100 <? pct then "Over" else "Remaining").

(** [(cents / 100).toFixed(0)]: the integer nearest to the float, the
    larger one on a tie, after the sign. *)
Definition toFixed0 (cents : Z) : string :=
  (if cents <? 0 then "-" else "") ++ ofZ (Math_round (fdiv (Z.abs cents) 100)).

(** [BudgetInput]: the text the field shows for a budget, and the cents
    that leaving the field hands to [onChangeCents]. *)
Definition BudgetInput_value (valueCents : Z) : string := toFixed0 valueCents.

Definition BudgetInput_onBlur (value : string) : Z :=
  Z.max 0 (parseMoneyToCents value).

(** The data of the line chart: [runningCents / 100] for every point. *)
Definition cashflowDataValues (cashflow : list CashflowPoint.t) : list double :=
  map (fun d => fdiv (CashflowPoint.runningCents d) 100) cashflow.

(** [Math.round(Number(raw) * 100)], the cents a chart callback reads off a
    plotted value. *)
Definition centsOfPlotted (raw : double) : Z := Math_round (fmul raw 100).

(** The [delta] of the tooltip of the line chart for the point at
    [dataIndex], [raw] being the plotted value of the point; [None] is the
    [NaN] that an index outside the data gives. *)
Definition tooltipDelta (dataValues : list double) (dataIndex : nat)
    (raw : double) : option Z :=
  let currentCents := centsOfPlotted raw in
  let prevValue :=
    if (0 <? dataIndex)%nat
    then option_map centsOfPlotted (nth_error dataValues (dataIndex - 1))
    else Some currentCents in
  option_map (fun p => currentCents - p) prevValue.

(** [Intl.NumberFormat] is a collaborator of the program: [format currency
    digits value] is the text it gives for [value] with [digits] fraction
    digits. *)
Variable format : Currency -> Z -> double -> string.

(** [formatMoney] *)
Definition formatMoney (cents : Z) (currency : Currency) (hideCents : bool)
  : string :=
  let sign := if cents <? 0 then "-" else "" in
  let abs := Z.abs cents in
  let value :=
    if hideCents then toDouble (Math_round (fdiv abs 100)) 1
    else fdiv abs 100 in
  sign ++ format currency (if hideCents then 0 else 2) value.

(** [formatDeltaCurrency] *)
Definition formatDeltaCurrency (cents : Z) (currency : Currency)
    (hideCents : bool) : string :=
  let sign := if 0 <=? cents then "+" else "-" in
  sign ++ formatMoney (Z.abs cents) currency hideCents.

End Presentation.

(** ** Further views of the aggregation engine *)

Module PieRow.
Record t : Type := make {
  categoryId : string;
  name : string;
  value : Z
}.
End PieRow.

Module MerchantStat.
Record t : Type := make {
  count : Z;
  totalCents : Z
}.
End MerchantStat.

Module CategoryStat.
Record t : Type := make {
  txCount : Z;
  totalCents : Z;
  merchants : JsMap.Map MerchantStat.t
}.
End CategoryStat.

Module HoverMerchant.
Record t : Type := make {
  name : string;
  count : Z;
  totalCents : Z
}.
End HoverMerchant.

Module HoverDetail.
Record t : Type := make {
  txCount : Z;
  merchants : list HoverMerchant.t
}.
End HoverDetail.

Module SafeToSpend.
Record t : Type := make {
  value : Z;
  label : string
}.
End SafeToSpend.

Module TopCategory.
Record t : Type := make {
  id : string;
  name : string;
  spentCents : Z
}.
End TopCategory.

Section Views.
Import JsString.

(** [categoryLabel] *)
Definition categoryLabel (categories : list Category) (id : string) : string :=
  match find (fun x => (Category.id x =? id)%string) categories with
  | None => "Unknown"
  | Some c =>
      (if truthy (Category.emoji c) then orEmpty (Category.emoji c) ++ " " else "")
      ++ Category.name c
  end.

(** [accountName] *)
Definition accountName (accounts : list Account) (id : string) : string :=
  match find (fun a => (Account.id a =? id)%string) accounts with
  | Some a => if (Account.name a =? "")%string then "Unknown" else Account.name a
  | None => "Unknown"
  end.

(** [previousRangeTx]: the transactions of the previous window, of the
    account chosen. *)
Definition previousRangeTx (state : AppState) (previousRangeWindow : DateRange)
    (accountFilter : string) : list Transaction :=
  filter (fun t => if (accountFilter =? "all")%string then true
                   else (Transaction.accountId t =? accountFilter)%string)
    (filter (fun t => dateInRange (Transaction.date t)
                        (DateRange.min previousRangeWindow)
                        (DateRange.max previousRangeWindow))
       (AppState.transactions state)).





Definition byValueDescending (a b : PieRow.t) : Z :=
  PieRow.value b - PieRow.value a.

(** [categoryPie] *)
Definition categoryPie (state : AppState) (filtered : list Transaction)
  : list PieRow.t :=
  let spentByCat := groupExpenseByCategory filtered in
  let rows :=
    JsArray.sort byValueDescending
      (map (fun kv => PieRow.make (fst kv)
                        (categoryLabel (AppState.categories state) (fst kv))
                        (snd kv))
         spentByCat) in
  firstn 8 rows.

(** [safeToSpend], with the value of [todayISO()] as [today]. *)
Definition safeToSpend (today : string) (state : AppState) : SafeToSpend.t :=
  let min := monthStartISO today in
  let monthTx :=
    filter (fun t => dateInRange (Transaction.date t) min today)
      (AppState.transactions state) in
  let acc := fold_left addToTotals monthTx (0, 0) in
  let income := fst acc in
  let expense := snd acc in
  let totalBudget :=
    fold_left (fun sum c => sum + orZero (Category.monthlyBudgetCents c))
      (AppState.categories state) 0 in
  let budgetRemaining := totalBudget - expense in
  let currentNet := income - expense in
  let hasBudgets := 0 <? totalBudget in
  SafeToSpend.make (if hasBudgets then budgetRemaining else currentNet)
    (if hasBudgets then "Based on budgets" else "Based on net").

(** The [spent] cell of a row of the budget table. *)
Definition budgetTableSpent (state : AppState) (range : DateRange)
    (c : Category) : Z :=
  let fromRows :=
    match find (fun r => (BudgetRow.categoryId r =? Category.id c)%string)
            (BudgetStats.rows (budgetStats state range)) with
    | Some r => BudgetRow.spentCents r
    | None => 0
    end in
  if negb (fromRows =? 0) then fromRows
  else
    orZero
      (JsMap.get (Category.id c)
         (groupExpenseByCategory
            (filter (fun t => dateInRange (Transaction.date t)
                                (DateRange.min range) (DateRange.max range))
               (AppState.transactions state)))).

(** The [sum] of [InsightList]. *)
Definition insightSum (state : AppState) (min max : string) (type : TxType) : Z :=
  fold_left (fun s t => s + Transaction.amountCents t)
    (filter (fun t => TxType_eqb (Transaction.type t) type)
       (filter (fun t => dateInRange (Transaction.date t) min max)
          (AppState.transactions state)))
    0.

(** One turn of the loop of [topExpenseCategory]. *)
Definition addToTop (min max : string) (map : JsMap.Map Z) (t : Transaction)
  : JsMap.Map Z :=
  match Transaction.type t with
  | income => map
  | expense =>
      if negb (dateInRange (Transaction.date t) min max) then map
      else
        JsMap.set (Transaction.categoryId t)
          (orZero (JsMap.get (Transaction.categoryId t) map)
           + Transaction.amountCents t)
          map
  end.

Definition byEntryDescending (a b : string * Z) : Z := snd b - snd a.

(** [topExpenseCategory]; [None] is [null]. *)
Definition topExpenseCategory (state : AppState) (min max : string)
  : option TopCategory.t :=
  let map := fold_left (addToTop min max) (AppState.transactions state) [] in
  match JsArray.sort byEntryDescending map with
  | [] => None
  | (categoryId, spentCents) :: _ =>
      Some (TopCategory.make categoryId
              (categoryLabel (AppState.categories state) categoryId) spentCents)
  end.

End Views.

(** ** Vocabulary of the specification *)

Section SpecVocabulary.
Import JsString JsDate.

(** The sum of [amountCents] over the transactions of type [ty]. *)
Fixpoint sumOfType (ty : TxType) (l : list Transaction) : Z :=
  match l with
  | [] => 0
  | t :: rest =>
      (if TxType_eqb (Transaction.type t) ty then Transaction.amountCents t else 0)
      + sumOfType ty rest
  end.

(** The transactions of day [d]. *)
Definition onDay (d : string) (l : list Transaction) : list Transaction :=
  filter (fun t => (Transaction.date t =? d)%string) l.

(** The expenses of category [k]. *)
Definition inCategory (k : string) (l : list Transaction) : list Transaction :=
  filter (fun t => (Transaction.categoryId t =? k)%string) l.

(** Income minus expense. *)
Definition netOf (l : list Transaction) : Z :=
  sumOfType income l - sumOfType expense l.

(** The sum of the first [n] numbers of [l]. *)
Definition prefixSum (n : nat) (l : list Z) : Z :=
  fold_right Z.add 0 (firstn n l).

(** What a day's entry of the cashflow grouping must hold. *)
Definition dayEntry (l : list Transaction) (d : string) : DayNet.t :=
  DayNet.make d (netOf (onDay d l)) (sumOfType income (onDay d l))
    (sumOfType expense (onDay d l)).

(** The sum of the daily nets of a list of days. *)
Definition sumNets (days : list DayNet.t) : Z :=
  fold_right Z.add 0 (map DayNet.netCents days).

(** The state of the map of [groupByDayNet] after the transactions
    [seen]: one entry per date met, holding that day's sums. *)
Definition dayMapOf (seen : list Transaction) (m : JsMap.Map DayNet.t) : Prop :=
  NoDup (JsMap.keys m)
  /\ (forall k, In k (JsMap.keys m) <-> In k (map Transaction.date seen))
  /\ (forall k v, In (k, v) m -> v = dayEntry seen k)
  /\ sumNets (JsMap.values m) = netOf seen.

(** The test that [applySmartCategory] makes on a rule: its trimmed text
    is not empty and its text, lower-cased, occurs in the lower-cased
    merchant. *)
Definition ruleMatches (merchant : string) (r : Rule) : bool :=
  negb (trim (Rule.contains r) =? "")%string
  && includes (safeLower merchant) (safeLower (Rule.contains r)).

(** The test as the specification words it: the trimmed text, not empty,
    is a case-insensitive substring of the merchant. *)
Definition ruleMatchesTrimmed (merchant : string) (r : Rule) : bool :=
  negb (trim (Rule.contains r) =? "")%string
  && includes (safeLower merchant) (safeLower (trim (Rule.contains r))).

Definition uberRules : list Rule :=
  [ Rule.make "r1" "uber" "transport"; Rule.make "r2" "uber eats" "food" ].

(** The row cell of column [i], empty when the row has no such cell. *)
Definition cellOf (r : list string) (i : Z) : string := orEmpty (at_ r i).

(** A data row that import passes over: an empty date, merchant or amount
    cell, or an amount that parses to zero. *)
Definition rowSkipped (cols : ImportColumns.t) (r : list string) : bool :=
  (cellOf r (ImportColumns.dateIdx cols) =? "")%string
  || (cellOf r (ImportColumns.merchantIdx cols) =? "")%string
  || (cellOf r (ImportColumns.amountIdx cols) =? "")%string
  || (parseMoneyToCents (cellOf r (ImportColumns.amountIdx cols)) =? 0).

(** The same with the amount test as the specification words it: a parsed
    amount that is not strictly positive. *)
Definition rowSkippedAsClaimed (cols : ImportColumns.t) (r : list string) : bool :=
  (cellOf r (ImportColumns.dateIdx cols) =? "")%string
  || (cellOf r (ImportColumns.merchantIdx cols) =? "")%string
  || (cellOf r (ImportColumns.amountIdx cols) =? "")%string
  || (parseMoneyToCents (cellOf r (ImportColumns.amountIdx cols)) <=? 0).

(** The header row of a CSV text has no column called [name], whatever the
    case of its letters. *)
Definition headerLacks (name : string) (rows : list (list string)) : Prop :=
  ~ In name (map safeLower (hd [] rows)).

(** Income transactions sit in the income category. *)
Definition incomeInvariant (s : AppState) : Prop :=
  Forall (fun t => Transaction.type t = income ->
                   Transaction.categoryId t = "cat_income")
    (AppState.transactions s).

Definition newline : string := String LF "".

(** Pasted texts used as examples of import. *)
Definition importSample : string :=
  "Date,MERCHANT,Amount" ++ newline
  ++ "2025-01-01,Coffee,4.50" ++ newline
  ++ ",NoDate,3.00" ++ newline
  ++ "2025-01-03,Nothing,0" ++ newline
  ++ "2025-01-04T09:30:00Z,Rent,1800".

Definition importNoAmount : string :=
  "date,merchant,category" ++ newline ++ "2025-01-01,Coffee,Eating Out".

Definition importNoValidRow : string :=
  "date,merchant,amount" ++ newline ++ "2025-01-01,Coffee,0" ++ newline
  ++ "2025-01-02,,12".

Definition importRefund : string :=
  "date,merchant,amount" ++ newline ++ "2025-01-01,Refund,-10".

Definition importOddDates : string :=
  "date,merchant,amount" ++ newline
  ++ "2025-01-15T10:30:00Z,Coffee,4.50" ++ newline
  ++ "2025-13-99,Rent,1800" ++ newline
  ++ "yesterday,Lunch,12".

Definition sampleUid (k : nat) : string := "tx_" ++ ofZ (Z.of_nat k).

Definition sampleForm : TxForm.t :=
  TxForm.make "2026-01-15" " Bonus " "$1,000" income "cat_gro" "acc_cheq" "".

(** What the tokenizer makes of a row of cells: carriage returns leave
    the last cell. *)
Fixpoint closeRow (r : list string) : list string :=
  match r with
  | [] => []
  | [c] => [removeAll CR c]
  | c :: rest => c :: closeRow rest
  end.

(** The text after a field does not open with a double quote. *)
Definition noLeadingQuote (rest : string) : bool :=
  match rest with
  | "" => true
  | String c _ => negb (Ascii.eqb c dquote)
  end.

(** The field holds a comma or a double quote. *)
Definition hasCommaOrQuote (f : string) : bool :=
  anyChar (fun c => Ascii.eqb c comma || Ascii.eqb c dquote) f.

(** The inclusive number of days of a range of YYYY-MM-DD dates, read the
    way the program reads a date text; [None] when an end is not such a
    date. *)
Definition dayCount (r : DateRange) : option Z :=
  match newDate (DateRange.min r), newDate (DateRange.max r) with
  | Some a, Some b => Some (b - a + 1)
  | _, _ => None
  end.

(** [String(y)] is four digits that spell [y]. *)
Definition fourDigits (y : Z) : bool :=
  match ofZ y with
  | String a (String b (String c (String d ""))) =>
      isDigit a && isDigit b && isDigit c && isDigit d
      && (digits4 a b c d =? y)
  | _ => false
  end.

(** [String(v).padStart(2, '0')] is two digits that spell [v]. *)
Definition twoDigits (v : Z) : bool :=
  match padStart2 (ofZ v) with
  | String a (String b "") => isDigit a && isDigit b && (digits2 a b =? v)
  | _ => false
  end.

(** The integers [lo], [lo + 1], ... ([count] of them). *)
Definition upFrom (lo count : Z) : list Z :=
  map (fun k => lo + Z.of_nat k) (seq 0 (Z.to_nat count)).

Definition marchRange : DateRange := DateRange.make "2025-03-01" "2025-03-31".

Definition cashflowSample : list Transaction :=
  [ Transaction.make "c" "2025-01-01" "Shop" 143 expense "cat_other" "acc_cc" None;
    Transaction.make "b" "2024-12-31" "Pay" 200 income "cat_income" "acc_cheq" None;
    Transaction.make "a" "2024-12-31" "Rent" 50 expense "cat_rent" "acc_cheq" None ].

Definition totals_sample : list Transaction :=
  [ Transaction.make "a" "2025-01-01" "Pay" 200 income "cat_income" "acc_cheq" None;
    Transaction.make "b" "2025-01-02" "Shop" 143 expense "cat_other" "acc_cc" None ].

End SpecVocabulary.

(** ** Vocabulary of the further properties *)

Section MoreVocabulary.
Import JsString JsDate.

(** The text does not open with white space. *)
Definition noLeadingSpace (s : string) : bool :=
  match s with
  | "" => true
  | String c _ => negb (isWhiteSpace c)
  end.

(** Every amount is strictly positive. *)
Definition amountsPositive (s : AppState) : Prop :=
  Forall (fun t => 0 < Transaction.amountCents t) (AppState.transactions s).

(** What no action of the component changes in a category. *)
Definition categoryIdentity (c : Category) : string * string * option string :=
  (Category.id c, Category.name c, Category.emoji c).

(** A rule text as [addRule] stores it: trimmed and not empty. *)
Definition ruleStored (r : Rule) : Prop :=
  trim (Rule.contains r) = Rule.contains r /\ Rule.contains r <> "".

(** [y], [m] (0 = January) and [d] are a date of the calendar. *)
Definition civil (y m d : Z) : Prop :=
  0 <= m <= 11 /\ 1 <= d <= DaysInMonth y m.

(** The first day of the month of day [n]. *)
Definition firstOfMonth (n : Z) : Z := n - DateFromDay n + 1.

(** The days from 1000-01-01 to 9999-12-31, which print as YYYY-MM-DD. *)
Definition fourDigitYear (n : Z) : Prop :=
  MakeDay 1000 0 1 <= n <= MakeDay 9999 11 31.

(** The polynomial in 31 of the code units of [input] after [h], without
    wrap-around. *)
Fixpoint poly31 (input : string) (h : Z) : Z :=
  match input with
  | "" => h
  | String c rest => poly31 rest (h * 31 + Z.of_nat (nat_of_ascii c))
  end.

(** The sum of [f] over a list. *)
Definition sumOver {A : Type} (f : A -> Z) (l : list A) : Z :=
  fold_right (fun x s => f x + s) 0 l.

(** The transactions dated inside [min .. max], as [dateInRange] tests it. *)
Definition inDates (min max : string) (l : list Transaction) : list Transaction :=
  filter (fun t => dateInRange (Transaction.date t) min max) l.

(** The expenses of category [k] add up to this. *)
Definition expenseIn (k : string) (l : list Transaction) : Z :=
  sumOfType expense (inCategory k l).

(** Category [k] has an expense in [l]. *)
Definition spendingCategory (l : list Transaction) (k : string) : Prop :=
  exists t, In t l /\ Transaction.type t = expense /\ Transaction.categoryId t = k.





(** The three tests of [filteredTx] on a transaction. *)
Definition passesFilters (state : AppState) (range : DateRange)
    (accountFilter search : string) (t : Transaction) : bool :=
  dateInRange (Transaction.date t) (DateRange.min range) (DateRange.max range)
  && (if (accountFilter =? "all")%string then true
      else (Transaction.accountId t =? accountFilter)%string)
  && (if (safeLower search =? "")%string then true
      else includes (safeLower (Transaction.merchant t)) (safeLower search)
           || includes (safeLower (orEmpty (Transaction.note t))) (safeLower search)
           || includes (safeLower (categoryName (AppState.categories state)
                                     (Transaction.categoryId t)))
                (safeLower search)).

(** [a] is dated no earlier than [b], as texts compare. *)
Definition notBefore (a b : Transaction) : Prop :=
  String.ltb (Transaction.date a) (Transaction.date b) = false.

Definition sampleRuleState : AppState :=
  addRule "rule_new" "  Uber Eats " "cat_eat" (defaultState "2026-01-15").

(** What a transaction holds besides its identifier. *)
Definition txFields (t : Transaction) :=
  (Transaction.date t, Transaction.merchant t, Transaction.amountCents t,
   Transaction.type t, Transaction.categoryId t, Transaction.accountId t,
   Transaction.note t).

(** No text comes twice in the list. *)
Fixpoint distinct (l : list string) : bool :=
  match l with
  | [] => true
  | x :: rest => negb (existsb (String.eqb x) rest) && distinct rest
  end.

(** A text that a cell of a CSV file hands back as it is: not empty, and
    without white space at either end. *)
Definition cellText (s : string) : bool :=
  negb (s =? "")%string && (trim s =? s)%string.

(** Identifiers and names that find each other: the identifiers are
    distinct and not empty, the names are cell texts, distinct even when
    letter case is put apart. *)
Definition namesIdentify (ids names : list string) : bool :=
  distinct ids && distinct (map safeLower names)
  && forallb (fun id => negb (id =? "")%string) ids
  && forallb cellText names.

Definition catalogueIdentifies (state : AppState) : bool :=
  namesIdentify (map Category.id (AppState.categories state))
    (map Category.name (AppState.categories state))
  && namesIdentify (map Account.id (AppState.accounts state))
       (map Account.name (AppState.accounts state)).

(** A transaction that a CSV file can carry: date and merchant are cell
    texts, the date of at most 10 characters; the amount is positive and
    at most [2^44] cents; an income is in the income category, an expense
    in a category of the state; the account is one of the state; the
    note, if any, is a cell text without carriage return. *)
Definition exportable (state : AppState) (t : Transaction) : bool :=
  cellText (Transaction.date t)
  && (String.length (Transaction.date t) <=? 10)%nat
  && cellText (Transaction.merchant t)
  && (0 <? Transaction.amountCents t)
  && (Transaction.amountCents t <=? 2 ^ 44)
  && match Transaction.type t with
     | income => (Transaction.categoryId t =? "cat_income")%string
     | expense =>
         existsb (String.eqb (Transaction.categoryId t))
           (map Category.id (AppState.categories state))
     end
  && existsb (String.eqb (Transaction.accountId t))
       (map Account.id (AppState.accounts state))
  && match Transaction.note t with
     | None => true
     | Some s => cellText s && negb (anyChar (fun a => Ascii.eqb a CR) s)
     end.

(** The text YYYY-MM-DD of a day of the calendar, and the number [n] of
    that day: ten characters, four digits of year, two of month (01 to
    12) and two of day (01 to the length of the month), with a hyphen
    after the year and after the month.  No other spelling of a date
    counts: neither a day past the end of its month nor a year written
    with a sign and six digits. *)
Definition calendarText (s : string) (n : Z) : Prop :=
  exists y1 y2 y3 y4 m1 m2 d1 d2,
    s = String y1 (String y2 (String y3 (String y4 (String "-"
          (String m1 (String m2 (String "-" (String d1 (String d2 "")))))))))
    /\ forallb isDigit [y1; y2; y3; y4; m1; m2; d1; d2] = true
    /\ civil (digits4 y1 y2 y3 y4) (digits2 m1 m2 - 1) (digits2 d1 d2)
    /\ n = MakeDay (digits4 y1 y2 y3 y4) (digits2 m1 m2 - 1) (digits2 d1 d2).

(** The quotient [n / d], for [d > 0], rounded to the nearest integer, a
    half going away from zero. *)
Definition roundHalfAway (n d : Z) : Z :=
  Z.sgn n * ((2 * Z.abs n + d) / (2 * d)).

Definition totals_deficit_sample : list Transaction :=
  [ Transaction.make "a" "2025-01-01" "Pay" 200 income "cat_income" "acc_cheq" None;
    Transaction.make "b" "2025-01-02" "Shop" 203 expense "cat_other" "acc_cc" None ].

End MoreVocabulary.

(** ** Facts on the JavaScript library model *)

Section SortFacts.
Context {A : Type} (cmp : A -> A -> Z).

Lemma insert_perm (x : A) (l : list A) :
  Permutation (JsArray.insert cmp x l) (x :: l).
Proof.
  induction l as [|y l IH]; simpl.
  - apply Permutation_refl.
  - destruct (cmp x y <=? 0).
    + apply Permutation_refl.
    + eapply perm_trans; [apply perm_skip, IH | apply perm_swap].
Qed.

Lemma sort_perm (l : list A) : Permutation (JsArray.sort cmp l) l.
Proof.
  induction l as [|x l IH]; simpl.
  - constructor.
  - eapply perm_trans; [apply insert_perm | apply perm_skip, IH].
Qed.

Lemma sort_length (l : list A) : List.length (JsArray.sort cmp l) = List.length l.
Proof. apply Permutation_length, sort_perm. Qed.

Lemma insert_In (x y : A) (l : list A) :
  In y (JsArray.insert cmp x l) <-> y = x \/ In y l.
Proof.
  split; intros H.
  - apply (Permutation_in _ (insert_perm x l)) in H. destruct H; auto.
  - apply (Permutation_in _ (Permutation_sym (insert_perm x l))).
    destruct H; [left; auto | right; auto].
Qed.

(** The order [R] that the comparator decides on the elements at hand. *)
Variable R : A -> A -> Prop.
Hypothesis R_trans : forall x y z, R x y -> R y z -> R x z.
Hypothesis cmp_first : forall x y, cmp x y <= 0 -> R x y.

Lemma insert_sorted (x : A) (l : list A) :
  (forall y, In y l -> 0 < cmp x y -> R y x) ->
  StronglySorted R l -> StronglySorted R (JsArray.insert cmp x l).
Proof.
  intros Hafter Hs.
  induction Hs as [|y l Hs IH Hy]; simpl.
  - constructor; constructor.
  - destruct (cmp x y <=? 0) eqn:E.
    + apply Z.leb_le in E. constructor.
      * constructor; assumption.
      * constructor.
        -- apply cmp_first; assumption.
        -- eapply Forall_impl; [|exact Hy].
           intros z Hz. eapply R_trans; [apply cmp_first; eassumption | exact Hz].
    + apply Z.leb_gt in E. constructor.
      * apply IH. intros z Hz. apply Hafter. right; assumption.
      * apply Forall_forall. intros z Hz.
        apply insert_In in Hz. destruct Hz as [-> | Hz].
        -- apply Hafter; [left; reflexivity | assumption].
        -- eapply Forall_forall in Hy; eassumption.
Qed.

Lemma sort_sorted (l : list A) :
  (forall l1 x l2 y, l = (l1 ++ x :: l2)%list -> In y l2 -> 0 < cmp x y -> R y x) ->
  StronglySorted R (JsArray.sort cmp l).
Proof.
  induction l as [|x l IH]; intros Hafter; simpl.
  - constructor.
  - apply insert_sorted.
    + intros y Hy. apply (Permutation_in _ (sort_perm l)) in Hy.
      apply (Hafter [] x l y); auto.
    + apply IH. intros l1 a l2 y -> Hy.
      apply (Hafter (x :: l1) a l2 y); auto.
Qed.

End SortFacts.

Section MapFacts.
Context {V : Type}.

Lemma get_set_same (k : string) (v : V) (m : JsMap.Map V) :
  JsMap.get k (JsMap.set k v m) = Some v.
Proof.
  induction m as [|[k' v'] m IH]; simpl.
  - rewrite String.eqb_refl. reflexivity.
  - destruct (k' =? k)%string eqn:E; simpl; rewrite E; auto.
Qed.

Lemma get_set_other (k k' : string) (v : V) (m : JsMap.Map V) :
  k' <> k -> JsMap.get k (JsMap.set k' v m) = JsMap.get k m.
Proof.
  intros Hne. induction m as [|[k0 v0] m IH]; simpl.
  - apply String.eqb_neq in Hne. rewrite Hne. reflexivity.
  - destruct (k0 =? k')%string eqn:E; simpl.
    + apply String.eqb_eq in E. subst k0.
      apply String.eqb_neq in Hne. rewrite Hne. reflexivity.
    + destruct (k0 =? k)%string; auto.
Qed.

Lemma keys_set (k : string) (v : V) (m : JsMap.Map V) :
  JsMap.keys (JsMap.set k v m)
  = if existsb (String.eqb k) (JsMap.keys m) then JsMap.keys m
    else (JsMap.keys m ++ [k])%list.
Proof.
  unfold JsMap.keys.
  induction m as [|[k0 v0] m IH]; simpl.
  - reflexivity.
  - rewrite (String.eqb_sym k k0).
    destruct (k0 =? k)%string eqn:E; simpl.
    + reflexivity.
    + rewrite IH.
      destruct (existsb (String.eqb k) (map fst m)); reflexivity.
Qed.

Lemma get_None_keys (k : string) (m : JsMap.Map V) :
  JsMap.get k m = None <-> ~ In k (JsMap.keys m).
Proof.
  induction m as [|[k0 v0] m IH]; simpl.
  - tauto.
  - destruct (k0 =? k)%string eqn:E.
    + apply String.eqb_eq in E. split; [discriminate | tauto].
    + apply String.eqb_neq in E. rewrite IH. tauto.
Qed.

End MapFacts.

Section StringOrder.

Lemma ascii_compare_refl (a : ascii) : Ascii.compare a a = Eq.
Proof. unfold Ascii.compare. apply N.compare_refl. Qed.

Lemma ascii_compare_lt_trans (a b c : ascii) :
  Ascii.compare a b = Lt -> Ascii.compare b c = Lt -> Ascii.compare a c = Lt.
Proof.
  unfold Ascii.compare. rewrite !N.compare_lt_iff. apply N.lt_trans.
Qed.

Lemma string_compare_refl (s : string) : String.compare s s = Eq.
Proof.
  induction s as [|a s IH]; simpl; [reflexivity|].
  rewrite ascii_compare_refl. exact IH.
Qed.

Lemma string_compare_lt_trans (s1 s2 s3 : string) :
  String.compare s1 s2 = Lt -> String.compare s2 s3 = Lt ->
  String.compare s1 s3 = Lt.
Proof.
  revert s2 s3.
  induction s1 as [|a s1 IH]; intros [|b s2] [|c s3]; simpl;
    try discriminate; auto.
  destruct (Ascii.compare a b) eqn:Eab; try discriminate;
    destruct (Ascii.compare b c) eqn:Ebc; try discriminate; intros H1 H2.
  - apply Ascii.compare_eq_iff in Eab, Ebc. subst.
    rewrite ascii_compare_refl. eapply IH; eassumption.
  - apply Ascii.compare_eq_iff in Eab. subst. rewrite Ebc. reflexivity.
  - apply Ascii.compare_eq_iff in Ebc. subst. rewrite Eab. reflexivity.
  - rewrite (ascii_compare_lt_trans _ _ _ Eab Ebc). reflexivity.
Qed.

Lemma ltb_irrefl (s : string) : String.ltb s s = false.
Proof. unfold String.ltb. rewrite string_compare_refl. reflexivity. Qed.

Lemma ltb_trans (s1 s2 s3 : string) :
  String.ltb s1 s2 = true -> String.ltb s2 s3 = true -> String.ltb s1 s3 = true.
Proof.
  unfold String.ltb. intros H1 H2.
  destruct (String.compare s1 s2) eqn:E1; try discriminate.
  destruct (String.compare s2 s3) eqn:E2; try discriminate.
  rewrite (string_compare_lt_trans _ _ _ E1 E2). reflexivity.
Qed.

Lemma ltb_connected (s1 s2 : string) :
  s1 <> s2 -> String.ltb s1 s2 = false -> String.ltb s2 s1 = true.
Proof.
  unfold String.ltb. intros Hne H.
  rewrite (String.compare_antisym s2 s1).
  destruct (String.compare s1 s2) eqn:E; simpl; try discriminate; auto.
  apply String.compare_eq_iff in E. contradiction.
Qed.

End StringOrder.

(** ** Binary64 rounding *)

Section FloatFacts.
Import JsNumber.

Lemma roundHalfEven_error (n d : Z) :
  0 < d -> - d <= 2 * (roundHalfEven n d * d) - 2 * n <= d.
Proof.
  intros Hd. unfold roundHalfEven. cbv zeta.
  pose proof (Z.div_mod n d ltac:(lia)) as Hdiv.
  pose proof (Z.mod_pos_bound n d Hd) as Hmod.
  set (q := n / d) in *. set (r := n mod d) in *.
  clearbody q r. subst n.
  destruct (Z.ltb_spec (2 * r) d).
  { replace (2 * (q * d) - 2 * (d * q + r)) with (- (2 * r)) by ring. lia. }
  destruct (Z.ltb_spec d (2 * r)).
  { replace (2 * ((q + 1) * d) - 2 * (d * q + r)) with (2 * d - 2 * r) by ring. lia. }
  destruct (Z.even q).
  - replace (2 * (q * d) - 2 * (d * q + r)) with (- (2 * r)) by ring. lia.
  - replace (2 * ((q + 1) * d) - 2 * (d * q + r)) with (2 * d - 2 * r) by ring. lia.
Qed.

Lemma pow2_pos (k : Z) : 0 <= k -> 0 < 2 ^ k.
Proof. intros H. apply Z.pow_pos_nonneg; lia. Qed.

Lemma pow2_split (a b : Z) : 0 <= a -> 0 <= b -> 2 ^ (a + b) = 2 ^ a * 2 ^ b.
Proof. intros Ha Hb. apply Z.pow_add_r; assumption. Qed.

Lemma scale_bracket (x lo hi k : Z) :
  0 < k -> lo <= x < hi -> lo * k <= x * k < hi * k.
Proof. intros Hk [H1 H2]. split; nia. Qed.

(** The binade of a positive fraction brackets it between two powers
    of two. *)
Lemma binade_spec (n d : Z) :
  0 < n -> 0 < d ->
  let (a, c) := scaled n d (binade n d) in 0 < c /\ c <= a < 2 * c.
Proof.
  intros Hn Hd. unfold binade, scaled. cbv zeta.
  pose proof (Z.log2_spec n Hn) as Ln. pose proof (Z.log2_spec d Hd) as Ld.
  pose proof (Z.log2_nonneg n) as Ln0. pose proof (Z.log2_nonneg d) as Ld0.
  rewrite <- Z.add_1_r in Ln, Ld.
  rewrite pow2_split in Ln, Ld by lia. change (2 ^ 1) with 2 in Ln, Ld.
  set (ln := Z.log2 n) in *. set (ld := Z.log2 d) in *.
  clearbody ln ld.
  destruct (Z.leb_spec 0 (ln - ld)) as [He|He]; cbv iota beta.
  - (* the fraction is at least 1/2 *)
    assert (HN : 2 ^ ln = 2 ^ ld * 2 ^ (ln - ld)).
    { rewrite <- pow2_split by lia. f_equal; lia. }
    pose proof (pow2_pos (ln - ld) He) as HQ. pose proof (pow2_pos ld Ld0) as HD.
    rewrite HN in Ln. clear HN.
    pose proof (scale_bracket d _ _ (2 ^ (ln - ld)) HQ Ld) as Hd'.
    destruct (Z.ltb_spec n (d * 2 ^ (ln - ld))) as [Hlt|Hge].
    + destruct (Z.leb_spec 0 (ln - ld - 1)) as [He1|He1].
      * assert (HQ' : 2 ^ (ln - ld) = 2 * 2 ^ (ln - ld - 1)).
        { replace (ln - ld) with (1 + (ln - ld - 1)) at 1 by lia.
          rewrite pow2_split by lia. reflexivity. }
        pose proof (pow2_pos (ln - ld - 1) He1) as HQ1.
        rewrite HQ' in *. clear HQ'.
        generalize dependent (2 ^ (ln - ld - 1)). generalize dependent (2 ^ ld).
        intros. nia.
      * replace (- (ln - ld - 1)) with 1 by lia.
        replace (ln - ld) with 0 in * by lia.
        change (2 ^ 0) with 1 in *. change (2 ^ 1) with 2. lia.
    + destruct (Z.leb_spec 0 (ln - ld)); [|lia].
      generalize dependent (2 ^ (ln - ld)). generalize dependent (2 ^ ld).
      intros. nia.
  - (* the fraction is below 1 *)
    assert (HD : 2 ^ ld = 2 ^ ln * 2 ^ (- (ln - ld))).
    { rewrite <- pow2_split by lia. f_equal; lia. }
    pose proof (pow2_pos (- (ln - ld)) ltac:(lia)) as HQ.
    pose proof (pow2_pos ln Ln0) as HN.
    rewrite HD in Ld. clear HD.
    pose proof (scale_bracket n _ _ (2 ^ (- (ln - ld))) HQ Ln) as Hn'.
    destruct (Z.ltb_spec (n * 2 ^ (- (ln - ld))) d) as [Hlt|Hge].
    + destruct (Z.leb_spec 0 (ln - ld - 1)); [lia|].
      replace (- (ln - ld - 1)) with (1 + - (ln - ld)) by lia.
      rewrite pow2_split by lia. change (2 ^ 1) with 2.
      generalize dependent (2 ^ (- (ln - ld))). generalize dependent (2 ^ ln).
      intros. nia.
    + destruct (Z.leb_spec 0 (ln - ld)); [lia|].
      generalize dependent (2 ^ (- (ln - ld))). generalize dependent (2 ^ ln).
      intros. nia.
Qed.

(** Rounding a positive fraction that lies between [2^-lo] and [2^hi]:
    the result is [m * 2^-k] with 53 significant bits, within half a unit
    in the last place of the fraction. *)
Lemma roundPositive_normal (n d hi lo : Z) :
  0 < n -> 0 < d -> 0 <= hi <= 52 -> 0 <= lo <= 1022 ->
  n < 2 ^ hi * d -> d <= 2 ^ lo * n ->
  exists m k,
    roundPositive n d = (m, - k)
    /\ 0 < k <= 52 + lo
    /\ - d <= 2 * (m * d) - 2 * (n * 2 ^ k) <= d
    /\ 2 ^ 52 * d <= n * 2 ^ k
    /\ 2 ^ 52 <= m.
Proof.
  intros Hn Hd Hhi Hlo Hup Hlow.
  pose proof (binade_spec n d Hn Hd) as Hb.
  unfold roundPositive. set (b := binade n d) in *. clearbody b.
  assert (Hrange : - lo <= b < hi).
  { unfold scaled in Hb. destruct (Z.leb_spec 0 b) as [H0|H0].
    - split; [lia|]. destruct (Z_lt_le_dec b hi) as [|Hge]; [assumption|].
      exfalso. pose proof (Z.pow_le_mono_r 2 hi b ltac:(lia) Hge) as Hpow.
      pose proof (pow2_pos hi ltac:(lia)) as Hp.
      generalize dependent (2 ^ hi). generalize dependent (2 ^ b). intros. nia.
    - split; [|lia]. destruct (Z_lt_le_dec b (- lo)) as [Hlt|]; [|assumption].
      exfalso.
      pose proof (Z.pow_le_mono_r 2 (lo + 1) (- b) ltac:(lia) ltac:(lia)) as Hpow.
      rewrite pow2_split in Hpow by lia. change (2 ^ 1) with 2 in Hpow.
      pose proof (pow2_pos lo ltac:(lia)) as Hp.
      generalize dependent (2 ^ lo). generalize dependent (2 ^ (- b)). intros. nia. }
  replace (Z.max b (-1022)) with b by lia.
  exists (roundHalfEven (n * 2 ^ (52 - b)) d), (52 - b).
  assert (Hscaled : scaled n d (b - 52) = (n * 2 ^ (52 - b), d)).
  { unfold scaled. destruct (Z.leb_spec 0 (b - 52)); [lia|].
    replace (- (b - 52)) with (52 - b) by lia. reflexivity. }
  rewrite Hscaled.
  assert (Hbig : 2 ^ 52 * d <= n * 2 ^ (52 - b)).
  { unfold scaled in Hb. destruct (Z.leb_spec 0 b) as [H0|H0].
    - assert (Hp : 2 ^ 52 = 2 ^ b * 2 ^ (52 - b)).
      { rewrite <- pow2_split by lia. f_equal; lia. }
      rewrite Hp. pose proof (pow2_pos (52 - b) ltac:(lia)).
      generalize dependent (2 ^ (52 - b)). generalize dependent (2 ^ b). intros. nia.
    - assert (Hp : 2 ^ (52 - b) = 2 ^ 52 * 2 ^ (- b)).
      { rewrite <- pow2_split by lia. f_equal; lia. }
      rewrite Hp.
      generalize dependent (2 ^ (- b)). generalize (2 ^ 52). intros. nia. }
  pose proof (roundHalfEven_error (n * 2 ^ (52 - b)) d Hd) as Herr.
  split; [f_equal; lia|]. split; [lia|]. split; [exact Herr|].
  split; [exact Hbig|].
  clear - Hd Hbig Herr.
  assert (H52 : 0 < 2 ^ 52) by (apply pow2_pos; lia).
  generalize dependent (roundHalfEven (n * 2 ^ (52 - b)) d).
  generalize dependent (n * 2 ^ (52 - b)).
  generalize dependent (2 ^ 52). intros. nia.
Qed.

(** Two roundings in a row, [x1] of [n / inc] and [x2] of [100 * x1], stay
    closer to [100 * n / inc] than half the step [1 / inc] of such
    fractions.  [P1] and [P2] are the powers of two under [x1] and [x2],
    [p] is [2^52]. *)
Lemma two_roundings_error (n inc m1 m2 P1 P2 p : Z) :
  0 < inc -> 0 < P1 -> 0 < P2 -> 0 < n -> 0 < m1 -> 100 <= p ->
  - inc <= 2 * (m1 * inc) - 2 * (n * P1) <= inc ->
  p * inc <= n * P1 ->
  - P1 <= 2 * (m2 * P1) - 2 * (100 * m1 * P2) <= P1 ->
  p * P1 <= 100 * m1 * P2 ->
  401 * n < 2 * p ->
  - (P1 * P2) < 2 * (m2 * P1 * inc) - 200 * (n * (P1 * P2)) < P1 * P2.
Proof.
  intros Hinc HP1 HP2 Hn Hm1 Hp F1 G1 F2 G2 Hsmall.
  assert (A1 : - (P1 * inc) <= 2 * (m2 * P1 * inc) - 200 * (m1 * P2 * inc)
               <= P1 * inc) by nia.
  assert (A2 : - (100 * (inc * P2)) <= 200 * (m1 * P2 * inc) - 200 * (n * (P1 * P2))
               <= 100 * (inc * P2)) by nia.
  assert (B1 : p * (inc * P2) <= n * (P1 * P2)) by nia.
  assert (B2 : p * (P1 * inc) <= 100 * (m1 * P2 * inc)) by nia.
  assert (B3 : 100 * (inc * P2) <= n * (P1 * P2)) by nia.
  assert (HX : 0 < P1 * P2) by nia.
  assert (C : 2 * (p * (P1 * inc + 100 * (inc * P2))) <= 401 * (n * (P1 * P2))) by nia.
  assert (D : P1 * inc + 100 * (inc * P2) < P1 * P2).
  { destruct (Z_lt_le_dec (P1 * inc + 100 * (inc * P2)) (P1 * P2)) as [|Hge];
      [assumption|exfalso].
    clear - Hp Hsmall HX C Hge.
    set (E := P1 * inc + 100 * (inc * P2)) in *. set (X := P1 * P2) in *.
    clearbody E X.
    assert (2 * (p * X) <= 2 * (p * E)) by nia.
    assert (401 * (n * X) < 2 * (p * X)) by nia.
    lia. }
  lia.
Qed.

(** [Math.round] of a float that is not too close to a half-integer. *)
Lemma Math_round_spec (m k : Z) :
  0 < k ->
  let r := Math_round (m, - k) in
  2 * (2 ^ k * r) <= 2 * m + 2 ^ k < 2 * (2 ^ k * (r + 1)).
Proof.
  intros Hk. unfold Math_round.
  destruct (Z.leb_spec 0 (- k)); [lia|].
  replace (- - k) with k by lia. replace (1 - - k) with (1 + k) by lia.
  rewrite pow2_split by lia. change (2 ^ 1) with 2.
  pose proof (pow2_pos k ltac:(lia)) as HP.
  cbv zeta.
  pose proof (Z.div_mod (2 * m + 2 ^ k) (2 * 2 ^ k) ltac:(lia)) as Hdiv.
  pose proof (Z.mod_pos_bound (2 * m + 2 ^ k) (2 * 2 ^ k) ltac:(lia)) as Hmod.
  generalize dependent ((2 * m + 2 ^ k) mod (2 * 2 ^ k)).
  generalize dependent ((2 * m + 2 ^ k) / (2 * 2 ^ k)).
  generalize dependent (2 ^ k). intros. nia.
Qed.

(** The float [(n / inc) * 100] for a positive [n] up to [2^44] and a
    positive [inc] below [2^53]: its magnitude [m2 * 2^-k2] is within less
    than [1 / (2 * inc)] of [100 * n / inc]. *)
Lemma percent_float (n inc : Z) :
  0 < n <= 2 ^ 44 -> 0 < inc < 2 ^ 53 ->
  exists m1 k1 m2 k2,
    roundPositive n inc = (m1, - k1) /\ 0 < k1
    /\ roundPositive (100 * m1) (2 ^ k1) = (m2, - k2) /\ 0 < k2
    /\ 0 < m1
    /\ - (2 ^ k1 * 2 ^ k2) < 2 * (m2 * 2 ^ k1 * inc) - 200 * (n * (2 ^ k1 * 2 ^ k2))
       < 2 ^ k1 * 2 ^ k2.
Proof.
  intros Hn Hinc.
  assert (H44 : 2 ^ 44 = 17592186044416) by reflexivity.
  assert (H53 : 2 ^ 53 = 9007199254740992) by reflexivity.
  assert (H52 : 2 ^ 52 = 4503599627370496) by reflexivity.
  rewrite H44 in Hn. rewrite H53 in Hinc.
  destruct (roundPositive_normal n inc 45 53) as (m1 & k1 & E1 & Hk1 & F1 & G1 & M1);
    try lia.
  pose proof (pow2_pos k1 ltac:(lia)) as HP1.
  assert (Hk1max : 2 ^ k1 <= 2 ^ 105) by (apply Z.pow_le_mono_r; lia).
  change (2 ^ 105) with 40564819207303340847894502572032 in Hk1max.
  rewrite H52 in G1, M1.
  assert (Hm1 : m1 <= n * 2 ^ k1).
  { generalize dependent (2 ^ k1). intros. nia. }
  assert (S1 : 100 * m1 < 2 ^ 52 * 2 ^ k1).
  { rewrite H52. generalize dependent (2 ^ k1). intros. nia. }
  assert (S2 : 2 ^ k1 <= 2 ^ 53 * (100 * m1)).
  { rewrite H53. lia. }
  destruct (roundPositive_normal (100 * m1) (2 ^ k1) 52 53 ltac:(lia) HP1
              ltac:(lia) ltac:(lia) S1 S2)
    as (m2 & k2 & E2 & Hk2 & F2 & G2 & M2).
  rewrite H52 in G2.
  pose proof (pow2_pos k2 ltac:(lia)) as HP2.
  exists m1, k1, m2, k2.
  split; [exact E1|]. split; [lia|]. split; [exact E2|]. split; [lia|].
  split; [lia|].
  apply (two_roundings_error n inc m1 m2 (2 ^ k1) (2 ^ k2) 4503599627370496);
    try assumption; lia.
Qed.

(** A float [M / P2] that is within less than [1 / (2 * inc)] of the
    fraction [100 * N / inc] rounds, with [Math.round], to an integer
    nearest to the fraction. *)
Lemma nearest_integer (N inc M P1 P2 r : Z) :
  0 < inc -> 0 < P1 -> 0 < P2 ->
  - (P1 * P2) < 2 * (M * P1 * inc) - 200 * (N * (P1 * P2)) < P1 * P2 ->
  2 * (P2 * r) <= 2 * M + P2 < 2 * (P2 * (r + 1)) ->
  - inc <= 2 * (r * inc) - 200 * N <= inc.
Proof.
  intros Hinc HP1 HP2 Herr Hr.
  assert (HY : 0 < P1 * inc) by nia.
  assert (HX : 0 < P1 * P2) by nia.
  assert (Hlow : (2 * r - 1) * P2 * (P1 * inc) <= 2 * M * (P1 * inc)).
  { apply Z.mul_le_mono_nonneg_r; lia. }
  assert (Hhigh : 2 * M * (P1 * inc) < (2 * r + 1) * P2 * (P1 * inc)).
  { apply Z.mul_lt_mono_pos_r; lia. }
  replace ((2 * r - 1) * P2 * (P1 * inc)) with ((2 * (r * inc) - inc) * (P1 * P2))
    in Hlow by ring.
  replace ((2 * r + 1) * P2 * (P1 * inc)) with ((2 * (r * inc) + inc) * (P1 * P2))
    in Hhigh by ring.
  replace (2 * M * (P1 * inc)) with (2 * (M * P1 * inc)) in Hlow, Hhigh by ring.
  set (X := P1 * P2) in *. set (V := M * P1 * inc) in *. set (R := r * inc) in *.
  clearbody X V R. clear Hr HY HP1 HP2.
  split.
  - destruct (Z_le_gt_dec (- inc) (2 * R - 200 * N)) as [|Hc]; [assumption|exfalso].
    assert ((2 * R + inc + 1) * X <= 200 * N * X)
      by (apply Z.mul_le_mono_nonneg_r; lia).
    nia.
  - destruct (Z_le_gt_dec (2 * R - 200 * N) inc) as [|Hc]; [assumption|exfalso].
    assert ((200 * N + 1) * X <= (2 * R - inc) * X)
      by (apply Z.mul_le_mono_nonneg_r; lia).
    nia.
Qed.

(** The percentage [Math.round((net / inc) * 100)] is an integer nearest
    to [100 * net / inc], for amounts up to [2^44] cents. *)
Lemma percentOf_nearest (net inc : Z) :
  0 < inc < 2 ^ 53 -> - 2 ^ 44 <= net <= 2 ^ 44 ->
  - inc <= 2 * (percentOf net inc * inc) - 200 * net <= inc.
Proof.
  intros Hinc Hnet. unfold percentOf, fdiv, toDouble.
  destruct (Z.eqb_spec net 0) as [->|Hne].
  - change (Math_round (fmul (0, 0) 100)) with 0. lia.
  - destruct (Z.ltb_spec 0 net) as [Hpos|Hneg].
    + destruct (percent_float net inc ltac:(lia) Hinc)
        as (m1 & k1 & m2 & k2 & E1 & Hk1 & E2 & Hk2 & Hm1 & Herr).
      rewrite E1. unfold fmul, toDouble.
      destruct (Z.leb_spec 0 (- k1)); [lia|].
      replace (- - k1) with k1 by lia.
      destruct (Z.eqb_spec (100 * m1) 0); [lia|].
      destruct (Z.ltb_spec 0 (100 * m1)); [|lia].
      rewrite E2.
      pose proof (Math_round_spec m2 k2 Hk2) as Hr. cbv zeta in Hr.
      apply (nearest_integer net inc m2 (2 ^ k1) (2 ^ k2));
        try assumption; try (apply pow2_pos; lia); lia.
    + destruct (percent_float (- net) inc ltac:(lia) Hinc)
        as (m1 & k1 & m2 & k2 & E1 & Hk1 & E2 & Hk2 & Hm1 & Herr).
      rewrite E1. unfold fmul, toDouble.
      destruct (Z.leb_spec 0 (- k1)); [lia|].
      replace (- - k1) with k1 by lia.
      destruct (Z.eqb_spec (100 * - m1) 0); [lia|].
      destruct (Z.ltb_spec 0 (100 * - m1)); [lia|].
      replace (- (100 * - m1)) with (100 * m1) by lia.
      rewrite E2.
      pose proof (Math_round_spec (- m2) k2 Hk2) as Hr. cbv zeta in Hr.
      apply (nearest_integer net inc (- m2) (2 ^ k1) (2 ^ k2));
        try assumption; try (apply pow2_pos; lia); lia.
Qed.

End FloatFacts.

(** ** Totals *)

Section TotalsFacts.

Lemma addToTotals_fold (l : list Transaction) (acc : Z * Z) :
  fold_left addToTotals l acc
  = (fst acc + sumOfType income l, snd acc + sumOfType expense l).
Proof.
  revert acc.
  induction l as [|t l IH]; intros [i e]; simpl.
  - f_equal; lia.
  - rewrite IH. unfold addToTotals.
    destruct (Transaction.type t); simpl; f_equal; lia.
Qed.

(** C5 (as amended). The totals of a filtered list: [income] and [expense]
    are the sums of [amountCents] over the income and the expense
    transactions, [net] is their difference; when [income > 0] (amounts up
    to [2^44] cents), [savingsRate] is an integer nearest to
    [100 * net / income]: the nearest one whenever that quotient is not
    exactly halfway between two integers, and one of the two neighbours
    when it is; when income is [0] (or below), [savingsRate] is [0],
    whatever the expense. *)
Theorem totals_postcondition (filtered : list Transaction) :
  let T := totals filtered in
  Totals.income T = sumOfType income filtered
  /\ Totals.expense T = sumOfType expense filtered
  /\ Totals.net T = Totals.income T - Totals.expense T
  /\ (0 < Totals.income T < 2 ^ 53 ->
      - 2 ^ 44 <= Totals.net T <= 2 ^ 44 ->
      - Totals.income T
      <= 2 * (Totals.savingsRate T * Totals.income T) - 200 * Totals.net T
      <= Totals.income T
      /\ forall k,
           - Totals.income T
           < 2 * (k * Totals.income T) - 200 * Totals.net T
           < Totals.income T ->
           Totals.savingsRate T = k)
  /\ (Totals.income T <= 0 -> Totals.savingsRate T = 0).
Proof.
  unfold totals. rewrite addToTotals_fold. cbn [fst snd Z.add].
  cbn [Totals.income Totals.expense Totals.net Totals.savingsRate].
  set (inc := sumOfType income filtered). set (exp := sumOfType expense filtered).
  split; [reflexivity|]. split; [reflexivity|]. split; [reflexivity|].
  split.
  - intros Hinc Hnet.
    assert (H : (0 <? inc) = true) by (apply Z.ltb_lt; lia).
    rewrite H.
    pose proof (percentOf_nearest (inc - exp) inc Hinc Hnet) as Hnear.
    split; [exact Hnear|].
    intros k Hk.
    assert (Hd : - (2 * inc) < 2 * inc * (percentOf (inc - exp) inc - k) < 2 * inc)
      by lia.
    nia.
  - intros H. destruct (0 <? inc) eqn:E; [|reflexivity].
    apply Z.ltb_lt in E. lia.
Qed.

Lemma totals_postcondition_witness :
  (- 200 <= 2 * (Totals.savingsRate (totals totals_sample) * 200) - 200 * 57 <= 200)
  /\ Totals.savingsRate (totals (tl totals_sample)) = 0.
Proof.
  destruct (totals_postcondition totals_sample) as (_ & _ & _ & Hn & _).
  destruct (totals_postcondition (tl totals_sample)) as (_ & _ & _ & _ & Hz).
  split.
  - apply Hn; vm_compute; split; first [reflexivity | discriminate].
  - apply Hz. vm_compute. discriminate.
Defined.

(** The claim read with the rounding that the specification fixes, a half
    going away from zero, fails: with an income of 200 and an expense of
    143 the quotient is 28.5 and the rate computed is 28, not 29; with an
    expense of 203 the quotient is -1.5 and the rate computed is -1, not
    -2. *)
Lemma savings_rate_tie_counterexample :
  Totals.income (totals totals_sample) = 200
  /\ Totals.net (totals totals_sample) = 57
  /\ Totals.savingsRate (totals totals_sample) = 28
  /\ roundHalfAway (100 * 57) 200 = 29
  /\ Totals.income (totals totals_deficit_sample) = 200
  /\ Totals.net (totals totals_deficit_sample) = -3
  /\ Totals.savingsRate (totals totals_deficit_sample) = -1
  /\ roundHalfAway (100 * -3) 200 = -2.
Proof. vm_compute. repeat split; reflexivity. Qed.

End TotalsFacts.

(** ** Budget rows *)

Section BudgetFacts.

Lemma groupExpense_get (k : string) (l : list Transaction) (m : JsMap.Map Z) :
  orZero (JsMap.get k (fold_left addToCategory l m))
  = orZero (JsMap.get k m) + sumOfType expense (inCategory k l).
Proof.
  revert m. induction l as [|t l IH]; intros m; simpl.
  - lia.
  - rewrite IH. unfold addToCategory, inCategory. simpl.
    destruct (Transaction.type t) eqn:Ety.
    + destruct (Transaction.categoryId t =? k)%string eqn:E; simpl.
      * apply String.eqb_eq in E. rewrite E, get_set_same, Ety. simpl. lia.
      * apply String.eqb_neq in E. rewrite get_set_other by assumption. lia.
    + destruct (Transaction.categoryId t =? k)%string; simpl;
        [rewrite Ety|]; simpl; lia.
Qed.

Lemma spent_is_sum (k : string) (l : list Transaction) :
  orZero (JsMap.get k (groupExpenseByCategory l))
  = sumOfType expense (inCategory k l).
Proof. unfold groupExpenseByCategory. rewrite groupExpense_get. reflexivity. Qed.

(** C8. The rows of [budgetStats] are, up to their order, one row per
    category with a positive monthly budget, carrying that budget, the
    expenses of the category inside the date range and
    [remaining = budget - spent], which is not clamped (it is negative in
    the default dataset); the rows come sorted by [spentCents], largest
    first. *)
Theorem budgetStats_rows :
  (forall (state : AppState) (range : DateRange),
      let rows := BudgetStats.rows (budgetStats state range) in
      let inRange :=
        filter (fun t => dateInRange (Transaction.date t)
                           (DateRange.min range) (DateRange.max range))
          (AppState.transactions state) in
      Permutation rows
        (map (fun c =>
                let budget := orZero (Category.monthlyBudgetCents c) in
                let spent := sumOfType expense (inCategory (Category.id c) inRange) in
                BudgetRow.make (Category.id c) budget spent (budget - spent))
           (filter (fun c => 0 <? orZero (Category.monthlyBudgetCents c))
              (AppState.categories state)))
      /\ Forall (fun r => BudgetRow.remainingCents r
                          = BudgetRow.budgetCents r - BudgetRow.spentCents r
                          /\ 0 < BudgetRow.budgetCents r) rows
      /\ StronglySorted
           (fun a b => BudgetRow.spentCents b <= BudgetRow.spentCents a) rows)
  /\ (exists r,
         In r (BudgetStats.rows
                 (budgetStats (defaultState "2026-01-15")
                    (dateRangeForPreset "2026-01-15" all)))
         /\ BudgetRow.remainingCents r < 0).
Proof.
  split.
  - intros state range rows inRange.
    assert (Hperm : Permutation rows
              (map (fun c =>
                      let budget := orZero (Category.monthlyBudgetCents c) in
                      let spent := sumOfType expense (inCategory (Category.id c) inRange) in
                      BudgetRow.make (Category.id c) budget spent (budget - spent))
                 (filter (fun c => 0 <? orZero (Category.monthlyBudgetCents c))
                    (AppState.categories state)))).
    { unfold rows, budgetStats. simpl.
      eapply perm_trans; [apply sort_perm|].
      rewrite map_map. fold inRange.
      erewrite map_ext; [apply Permutation_refl|].
      intros c. unfold budgetRow. simpl. rewrite spent_is_sum. reflexivity. }
    split; [exact Hperm|]. split.
    + apply Forall_forall. intros r Hr.
      apply (Permutation_in _ Hperm) in Hr.
      apply in_map_iff in Hr. destruct Hr as (c & <- & Hc).
      apply filter_In in Hc. destruct Hc as [_ Hc]. apply Z.ltb_lt in Hc.
      simpl. split; [reflexivity | exact Hc].
    + unfold rows, budgetStats. simpl.
      apply sort_sorted.
      * intros x y z Hxy Hyz. lia.
      * unfold bySpentDescending. intros x y H. lia.
      * unfold bySpentDescending. intros l1 x l2 y _ _ H. lia.
  - eexists. split.
    + vm_compute. left. reflexivity.
    + vm_compute. reflexivity.
Qed.

End BudgetFacts.

(** ** Cashflow series *)

Section CashflowFacts.

Lemma sumOfType_app (ty : TxType) (l1 l2 : list Transaction) :
  sumOfType ty (l1 ++ l2) = sumOfType ty l1 + sumOfType ty l2.
Proof. induction l1 as [|t l1 IH]; simpl; [reflexivity | rewrite IH; lia]. Qed.

Lemma sumOfType_rev (ty : TxType) (l : list Transaction) :
  sumOfType ty (rev l) = sumOfType ty l.
Proof.
  induction l as [|t l IH]; simpl; [reflexivity|].
  rewrite sumOfType_app, IH. simpl. lia.
Qed.

Lemma onDay_rev (d : string) (l : list Transaction) :
  onDay d (rev l) = rev (onDay d l).
Proof. unfold onDay. apply filter_rev. Qed.

Lemma dayEntry_rev (l : list Transaction) (d : string) :
  dayEntry (rev l) d = dayEntry l d.
Proof.
  unfold dayEntry, netOf. rewrite onDay_rev, !sumOfType_rev. reflexivity.
Qed.

Lemma onDay_absent (d : string) (l : list Transaction) :
  ~ In d (map Transaction.date l) -> onDay d l = [].
Proof.
  unfold onDay. induction l as [|t l IH]; simpl; intros H; [reflexivity|].
  destruct (Transaction.date t =? d)%string eqn:E.
  - apply String.eqb_eq in E. tauto.
  - apply IH. tauto.
Qed.

Lemma in_set (k key : string) (v e : DayNet.t) (m : JsMap.Map DayNet.t) :
  NoDup (JsMap.keys m) ->
  In (k, v) (JsMap.set key e m) ->
  (k = key /\ v = e) \/ (k <> key /\ In (k, v) m).
Proof.
  unfold JsMap.keys.
  induction m as [|[k0 v0] m IH]; simpl; intros Hnd.
  - intros [H|[]]. inversion H. auto.
  - inversion Hnd as [|? ? Hk0 Hnd']; subst.
    destruct (k0 =? key)%string eqn:E.
    + apply String.eqb_eq in E. subst k0. simpl. intros [H|H].
      * inversion H. auto.
      * right. split; [|auto].
        intros ->. apply Hk0. apply in_map_iff. exists (key, v). auto.
    + simpl. intros [H|H].
      * inversion H. subst. apply String.eqb_neq in E. auto.
      * destruct (IH Hnd' H) as [?|[? ?]]; auto.
Qed.

Lemma get_Some_In {V : Type} (k : string) (v : V) (m : JsMap.Map V) :
  JsMap.get k m = Some v -> In (k, v) m.
Proof.
  induction m as [|[k0 v0] m IH]; simpl; [discriminate|].
  destruct (k0 =? k)%string eqn:E.
  - apply String.eqb_eq in E. intros H. inversion H. subst. auto.
  - auto.
Qed.

Lemma sumNets_set (k : string) (e : DayNet.t) (m : JsMap.Map DayNet.t) :
  sumNets (JsMap.values (JsMap.set k e m))
  = sumNets (JsMap.values m) + DayNet.netCents e
    - match JsMap.get k m with
      | Some o => DayNet.netCents o
      | None => 0
      end.
Proof.
  unfold sumNets, JsMap.values.
  induction m as [|[k0 v0] m IH]; simpl.
  - lia.
  - destruct (k0 =? k)%string; simpl; [lia | rewrite IH; lia].
Qed.

Lemma existing_entry (seen : list Transaction) (m : JsMap.Map DayNet.t)
    (key : string) :
  dayMapOf seen m ->
  match JsMap.get key m with
  | Some e => e
  | None => DayNet.make key 0 0 0
  end = dayEntry seen key.
Proof.
  intros (_ & Hkeys & Hent & _).
  destruct (JsMap.get key m) as [e|] eqn:E.
  - apply Hent, get_Some_In, E.
  - apply get_None_keys in E. rewrite Hkeys in E.
    unfold dayEntry, netOf. rewrite (onDay_absent _ _ E). reflexivity.
Qed.

Lemma DayNet_ext (d : string) (n n' i i' e e' : Z) :
  n = n' -> i = i' -> e = e' -> DayNet.make d n i e = DayNet.make d n' i' e'.
Proof. intros -> -> ->. reflexivity. Qed.

Lemma dayEntry_snoc_same (seen : list Transaction) (t : Transaction) :
  dayEntry (seen ++ [t]) (Transaction.date t)
  = match Transaction.type t with
    | income =>
        DayNet.make (Transaction.date t)
          (DayNet.netCents (dayEntry seen (Transaction.date t)) + Transaction.amountCents t)
          (DayNet.incomeCents (dayEntry seen (Transaction.date t)) + Transaction.amountCents t)
          (DayNet.expenseCents (dayEntry seen (Transaction.date t)))
    | expense =>
        DayNet.make (Transaction.date t)
          (DayNet.netCents (dayEntry seen (Transaction.date t)) - Transaction.amountCents t)
          (DayNet.incomeCents (dayEntry seen (Transaction.date t)))
          (DayNet.expenseCents (dayEntry seen (Transaction.date t)) + Transaction.amountCents t)
    end.
Proof.
  unfold dayEntry, netOf, onDay. rewrite filter_app. simpl.
  rewrite String.eqb_refl, !sumOfType_app. simpl.
  destruct (Transaction.type t); simpl; apply DayNet_ext; lia.
Qed.

Lemma dayEntry_snoc_other (seen : list Transaction) (t : Transaction) (k : string) :
  k <> Transaction.date t -> dayEntry (seen ++ [t]) k = dayEntry seen k.
Proof.
  intros Hne. unfold dayEntry, netOf, onDay. rewrite filter_app. simpl.
  destruct (String.eqb_spec (Transaction.date t) k) as [E|E].
  - congruence.
  - rewrite app_nil_r. reflexivity.
Qed.

Lemma netOf_snoc (seen : list Transaction) (t : Transaction) :
  netOf (seen ++ [t])
  = netOf seen + match Transaction.type t with
                 | income => Transaction.amountCents t
                 | expense => - Transaction.amountCents t
                 end.
Proof.
  unfold netOf. rewrite !sumOfType_app. simpl.
  destruct (Transaction.type t); simpl; lia.
Qed.

Lemma addToDay_step (seen : list Transaction) (m : JsMap.Map DayNet.t)
    (t : Transaction) :
  dayMapOf seen m -> dayMapOf (seen ++ [t]) (addToDay m t).
Proof.
  intros Hm. pose proof (existing_entry seen m (Transaction.date t) Hm) as Hex.
  assert (Hnew :
    addToDay m t
    = JsMap.set (Transaction.date t) (dayEntry (seen ++ [t]) (Transaction.date t)) m).
  { unfold addToDay. rewrite Hex, dayEntry_snoc_same.
    destruct (Transaction.type t); reflexivity. }
  rewrite Hnew.
  destruct Hm as (Hnd & Hkeys & Hent & Hsum).
  repeat split.
  - rewrite keys_set.
    destruct (existsb (String.eqb (Transaction.date t)) (JsMap.keys m)) eqn:E; auto.
    apply NoDup_app; auto.
    + constructor; [intros []|constructor].
    + intros k Hk [Heq|[]]. subst k.
      assert (existsb (String.eqb (Transaction.date t)) (JsMap.keys m) = true);
        [|congruence].
      apply existsb_exists. exists (Transaction.date t).
      split; [auto | apply String.eqb_refl].
  - rewrite keys_set, map_app, in_app_iff. simpl.
    destruct (existsb (String.eqb (Transaction.date t)) (JsMap.keys m)) eqn:E.
    + rewrite Hkeys. tauto.
    + rewrite in_app_iff, Hkeys. simpl. tauto.
  - rewrite keys_set, map_app, in_app_iff. simpl.
    destruct (existsb (String.eqb (Transaction.date t)) (JsMap.keys m)) eqn:E.
    + rewrite Hkeys. intros [H|[<-|[]]]; auto.
      apply existsb_exists in E. destruct E as (k' & Hk' & Heq).
      apply String.eqb_eq in Heq. subst k'. apply Hkeys. exact Hk'.
    + rewrite in_app_iff, Hkeys. simpl. tauto.
  - intros k v Hin. apply in_set in Hin; [|exact Hnd].
    destruct Hin as [[-> ->]|[Hne Hin]]; [reflexivity|].
    rewrite dayEntry_snoc_other by exact Hne. apply Hent, Hin.
  - rewrite sumNets_set, Hsum, netOf_snoc.
    fold (JsMap.get (Transaction.date t) m).
    assert (Hold : match JsMap.get (Transaction.date t) m with
                   | Some o => DayNet.netCents o
                   | None => 0
                   end = DayNet.netCents (dayEntry seen (Transaction.date t))).
    { rewrite <- Hex. destruct (JsMap.get (Transaction.date t) m); reflexivity. }
    rewrite Hold, dayEntry_snoc_same.
    destruct (Transaction.type t); simpl; lia.
Qed.

Lemma addToDay_fold (l seen : list Transaction) (m : JsMap.Map DayNet.t) :
  dayMapOf seen m -> dayMapOf (seen ++ l) (fold_left addToDay l m).
Proof.
  revert seen m. induction l as [|t l IH]; intros seen m Hm; simpl.
  - rewrite app_nil_r. exact Hm.
  - replace (seen ++ t :: l)%list with ((seen ++ [t]) ++ l)%list
      by (rewrite <- app_assoc; reflexivity).
    apply IH, addToDay_step, Hm.
Qed.

Lemma dayMapOf_nil : dayMapOf [] [].
Proof.
  repeat split; simpl; try tauto; try constructor.
Qed.

(** What [groupByDayNet] returns: the entries of the distinct days, in
    ascending order of date. *)
Lemma groupByDayNet_spec (l : list Transaction) :
  let days := groupByDayNet l in
  StronglySorted (fun a b => String.ltb (DayNet.date a) (DayNet.date b) = true) days
  /\ (forall d, In d (map DayNet.date days) <-> In d (map Transaction.date l))
  /\ (forall e, In e days -> e = dayEntry l (DayNet.date e))
  /\ sumNets days = netOf l.
Proof.
  intros days.
  pose proof (addToDay_fold l [] [] dayMapOf_nil) as Hm. simpl in Hm.
  set (m := fold_left addToDay l []) in *.
  destruct Hm as (Hnd & Hkeys & Hent & Hsum).
  assert (Hperm : Permutation days (JsMap.values m)) by apply sort_perm.
  assert (Hval : forall e, In e (JsMap.values m) -> e = dayEntry l (DayNet.date e)).
  { intros e He. apply in_map_iff in He. destruct He as ([k v] & <- & Hin).
    simpl. rewrite (Hent k v Hin). reflexivity. }
  assert (Hdates : map DayNet.date (JsMap.values m) = JsMap.keys m).
  { unfold JsMap.values, JsMap.keys. rewrite map_map. apply map_ext_in.
    intros [k v] Hin. simpl. rewrite (Hent k v Hin). reflexivity. }
  repeat split.
  - unfold days, groupByDayNet. fold m. apply sort_sorted.
    + intros x y z. apply ltb_trans.
    + unfold byDateAscending. intros x y.
      destruct (String.ltb (DayNet.date x) (DayNet.date y)); [reflexivity | lia].
    + unfold byDateAscending. intros l1 x l2 y Hl Hy.
      destruct (String.ltb (DayNet.date x) (DayNet.date y)) eqn:E; [lia|].
      intros _. apply ltb_connected; [|exact E].
      rewrite <- Hdates, Hl, map_app in Hnd. simpl in Hnd.
      apply NoDup_remove_2 in Hnd. intros Heq. apply Hnd.
      apply in_or_app. right. rewrite Heq. apply in_map. exact Hy.
  - intros H. apply Hkeys. rewrite <- Hdates.
    eapply Permutation_in; [apply Permutation_map, Hperm | exact H].
  - intros H. apply Hkeys in H. rewrite <- Hdates in H.
    eapply Permutation_in; [apply Permutation_map, Permutation_sym, Hperm | exact H].
  - intros e He. apply Hval. eapply Permutation_in; [exact Hperm | exact He].
  - rewrite <- Hsum. unfold sumNets.
    apply (Permutation_map DayNet.netCents) in Hperm.
    clear - Hperm. induction Hperm; simpl; lia.
Qed.

Lemma runningPoints_fields (acc : Z) (days : list DayNet.t) :
  map CashflowPoint.date (runningPoints acc days)
  = map (fun d => JsString.sliceFrom 5 (DayNet.date d)) days
  /\ map CashflowPoint.incomeCents (runningPoints acc days)
     = map DayNet.incomeCents days
  /\ map CashflowPoint.expenseCents (runningPoints acc days)
     = map DayNet.expenseCents days.
Proof.
  revert acc. induction days as [|d days IH]; intros acc; simpl.
  - auto.
  - destruct (IH (acc + DayNet.netCents d)) as (H1 & H2 & H3).
    rewrite H1, H2, H3. auto.
Qed.

Lemma runningPoints_running (days : list DayNet.t) (acc : Z) (i : nat) :
  (i < List.length days)%nat ->
  nth i (map CashflowPoint.runningCents (runningPoints acc days)) 0
  = acc + prefixSum (S i) (map DayNet.netCents days).
Proof.
  revert acc i. induction days as [|d days IH]; intros acc i Hi; simpl in *.
  - lia.
  - destruct i as [|i].
    + unfold prefixSum. simpl. lia.
    + rewrite IH by lia. unfold prefixSum. simpl. lia.
Qed.

Lemma runningPoints_last (days : list DayNet.t) (acc : Z) :
  days <> [] ->
  last (map CashflowPoint.runningCents (runningPoints acc days)) 0
  = acc + sumNets days.
Proof.
  revert acc. induction days as [|d days IH]; intros acc Hne; [congruence|].
  destruct days as [|d' days].
  - unfold sumNets. simpl. lia.
  - change (runningPoints acc (d :: d' :: days))
      with (CashflowPoint.make (JsString.sliceFrom 5 (DayNet.date d))
              (acc + DayNet.netCents d) (DayNet.incomeCents d) (DayNet.expenseCents d)
            :: runningPoints (acc + DayNet.netCents d) (d' :: days)).
    rewrite map_cons.
    change (last (?x :: map CashflowPoint.runningCents
                         (runningPoints (acc + DayNet.netCents d) (d' :: days))) 0)
      with (last (map CashflowPoint.runningCents
                         (runningPoints (acc + DayNet.netCents d) (d' :: days))) 0).
    rewrite IH by discriminate. unfold sumNets. simpl. lia.
Qed.

Lemma ascending_NoDup (days : list string) :
  StronglySorted (fun a b => String.ltb a b = true) days -> NoDup days.
Proof.
  induction 1 as [|d days Hs IH Hd]; constructor; [|exact IH].
  intros Hin. eapply Forall_forall in Hd; [|exact Hin].
  rewrite ltb_irrefl in Hd. discriminate.
Qed.

Lemma StronglySorted_map {A B : Type} (f : A -> B) (R : B -> B -> Prop)
    (l : list A) :
  StronglySorted (fun a b => R (f a) (f b)) l -> StronglySorted R (map f l).
Proof.
  induction 1 as [|a l Hs IH Ha]; simpl; constructor; [exact IH|].
  apply Forall_map. exact Ha.
Qed.

(** C9. The cashflow series of a transaction list has one point per
    distinct transaction date, in ascending order of date (the point
    shows the month-day part of its date); a point carries the income and
    the expense of its day, and its [runningCents] is the sum of
    (income - expense) over the points up to and including it, so that the
    last point holds total income minus total expense. *)
Theorem cashflow_series (filtered : list Transaction) :
  let pts := cashflow filtered in
  (exists days : list string,
      StronglySorted (fun a b => String.ltb a b = true) days
      /\ (forall d, In d days <-> In d (map Transaction.date filtered))
      /\ map CashflowPoint.date pts = map (JsString.sliceFrom 5) days
      /\ map CashflowPoint.incomeCents pts
         = map (fun d => sumOfType income (onDay d filtered)) days
      /\ map CashflowPoint.expenseCents pts
         = map (fun d => sumOfType expense (onDay d filtered)) days)
  /\ List.length pts
     = List.length (nodup string_dec (map Transaction.date filtered))
  /\ (forall i, (i < List.length pts)%nat ->
                nth i (map CashflowPoint.runningCents pts) 0
                = prefixSum (S i)
                    (map (fun p => CashflowPoint.incomeCents p
                                   - CashflowPoint.expenseCents p) pts))
  /\ (filtered <> [] ->
      last (map CashflowPoint.runningCents pts) 0 = netOf filtered).
Proof.
  intros pts. unfold cashflow in pts.
  destruct (groupByDayNet_spec (rev filtered)) as (Hs & Hd & He & Hsum).
  set (days := groupByDayNet (rev filtered)) in *.
  destruct (runningPoints_fields 0 days) as (Fd & Fi & Fe).
  assert (Hdates : forall d, In d (map DayNet.date days)
                             <-> In d (map Transaction.date filtered)).
  { intros d. rewrite Hd, map_rev, <- in_rev. reflexivity. }
  assert (Hasc : StronglySorted (fun a b => String.ltb a b = true)
                   (map DayNet.date days)).
  { apply StronglySorted_map. exact Hs. }
  assert (Hlen : List.length pts = List.length days).
  { unfold pts. rewrite <- (length_map CashflowPoint.date), Fd, length_map.
    reflexivity. }
  split; [|split; [|split]].
  - exists (map DayNet.date days). repeat split.
    + exact Hasc.
    + apply Hdates.
    + apply Hdates.
    + unfold pts. rewrite Fd, map_map. reflexivity.
    + unfold pts. rewrite Fi, map_map. apply map_ext_in.
      intros e Hin. rewrite (He e Hin) at 1. rewrite dayEntry_rev. reflexivity.
    + unfold pts. rewrite Fe, map_map. apply map_ext_in.
      intros e Hin. rewrite (He e Hin) at 1. rewrite dayEntry_rev. reflexivity.
  - rewrite Hlen, <- (length_map DayNet.date).
    apply Permutation_length, NoDup_Permutation.
    + apply ascending_NoDup, Hasc.
    + apply NoDup_nodup.
    + intros d. rewrite Hdates, nodup_In. reflexivity.
  - intros i Hi. unfold pts. rewrite runningPoints_running by lia.
    replace (map (fun p => CashflowPoint.incomeCents p - CashflowPoint.expenseCents p)
               (runningPoints 0 days))
      with (map DayNet.netCents days); [lia|].
    clear - He. generalize 0 as acc.
    induction days as [|d days IH]; intros acc; simpl; [reflexivity|].
    f_equal.
    + pose proof (He d (or_introl eq_refl)) as Hd. rewrite Hd. reflexivity.
    + apply IH. intros e Hin. apply He. right. exact Hin.
  - intros Hne. unfold pts. rewrite runningPoints_last.
    + rewrite Hsum. unfold netOf. rewrite !sumOfType_rev. lia.
    + intros Hnil. destruct filtered as [|t l]; [congruence|].
      specialize (Hdates (Transaction.date t)). rewrite Hnil in Hdates.
      simpl in Hdates. tauto.
Qed.

Lemma cashflow_series_witness :
  map CashflowPoint.date (cashflow cashflowSample) = ["12-31"; "01-01"]
  /\ nth 1 (map CashflowPoint.runningCents (cashflow cashflowSample)) 0
     = prefixSum 2
         (map (fun p => CashflowPoint.incomeCents p - CashflowPoint.expenseCents p)
            (cashflow cashflowSample))
  /\ last (map CashflowPoint.runningCents (cashflow cashflowSample)) 0 = 7.
Proof.
  destruct (cashflow_series cashflowSample) as (_ & _ & Hrun & Hlast).
  split; [vm_compute; reflexivity|]. split.
  - apply Hrun. vm_compute. reflexivity.
  - rewrite Hlast; [vm_compute; reflexivity | discriminate].
Defined.

End CashflowFacts.

(** ** The classifier *)

Section ClassifierFacts.
Import JsString.

Lemma firstMatch_skip (m : string) (before rest : list Rule) (fallback : string) :
  (forall r, In r before ->
             negb (trim (Rule.contains r) =? "")%string
             && includes m (safeLower (Rule.contains r)) = false) ->
  firstMatch m (before ++ rest) fallback = firstMatch m rest fallback.
Proof.
  induction before as [|r before IH]; intros H; simpl; [reflexivity|].
  pose proof (H r (or_introl eq_refl)) as Hr.
  destruct (trim (Rule.contains r) =? "")%string; simpl in Hr.
  - apply IH. intros r' Hr'. apply H. right. exact Hr'.
  - rewrite Hr. apply IH. intros r' Hr'. apply H. right. exact Hr'.
Qed.

(** C3 (as amended). [applySmartCategory] scans the rules in list order:
    the first rule whose trimmed text is not empty and whose text as stored
    (lower-cased, not trimmed) occurs in the lower-cased merchant gives the
    category; with no such rule the fallback is returned.  For a rule stored
    trimmed the test is the one of the specification.  With the rules
    uber -> transport, uber eats -> food the merchant Uber Eats Toronto is
    classified as transport. *)
Theorem applySmartCategory_first_match :
  (forall merchant rules fallback before r after,
      rules = (before ++ r :: after)%list ->
      (forall r', In r' before -> ruleMatches merchant r' = false) ->
      ruleMatches merchant r = true ->
      applySmartCategory merchant rules fallback = Rule.categoryId r)
  /\ (forall merchant rules fallback,
         (forall r, In r rules -> ruleMatches merchant r = false) ->
         applySmartCategory merchant rules fallback = fallback)
  /\ (forall merchant r,
         trim (Rule.contains r) = Rule.contains r ->
         ruleMatches merchant r = ruleMatchesTrimmed merchant r)
  /\ applySmartCategory "Uber Eats Toronto" uberRules "other" = "transport".
Proof.
  split; [|split; [|split]].
  - intros merchant rules fallback before r after -> Hbefore Hr.
    unfold applySmartCategory. rewrite firstMatch_skip by exact Hbefore.
    simpl. unfold ruleMatches in Hr. apply andb_prop in Hr.
    destruct Hr as [Hne Hinc]. apply negb_true_iff in Hne.
    rewrite Hne, Hinc. reflexivity.
  - intros merchant rules fallback Hnone.
    unfold applySmartCategory.
    rewrite <- (app_nil_r rules), firstMatch_skip by exact Hnone. reflexivity.
  - intros merchant r Ht. unfold ruleMatches, ruleMatchesTrimmed.
    rewrite Ht. reflexivity.
  - vm_compute. reflexivity.
Qed.

Lemma applySmartCategory_first_match_witness :
  applySmartCategory "LOBLAWS #42"
    [ Rule.make "a" "   " "x"; Rule.make "b" "uber" "y";
      Rule.make "c" "Loblaws" "cat_gro"; Rule.make "d" "lob" "z" ] "cat_other"
  = "cat_gro"
  /\ applySmartCategory "Ramen" uberRules "cat_other" = "cat_other".
Proof.
  destruct applySmartCategory_first_match as (Hfirst & Hnone & _ & _).
  split.
  - apply (Hfirst _ _ _ [ Rule.make "a" "   " "x"; Rule.make "b" "uber" "y" ]
             (Rule.make "c" "Loblaws" "cat_gro") [ Rule.make "d" "lob" "z" ]).
    + reflexivity.
    + intros r' [<-|[<-|[]]]; vm_compute; reflexivity.
    + vm_compute. reflexivity.
  - apply Hnone. intros r [<-|[<-|[]]]; vm_compute; reflexivity.
Defined.

(** The claim read with the trimmed text as the searched substring fails on
    a rule stored with a leading blank: the trimmed text occurs in the
    merchant, yet the rule does not fire. *)
Lemma applySmartCategory_trimmed_counterexample :
  ~ (forall merchant rules fallback before r after,
        rules = (before ++ r :: after)%list ->
        (forall r', In r' before -> ruleMatchesTrimmed merchant r' = false) ->
        ruleMatchesTrimmed merchant r = true ->
        applySmartCategory merchant rules fallback = Rule.categoryId r).
Proof.
  intros H.
  specialize (H "Uber" [Rule.make "r1" " uber" "transport"] "other"
                [] (Rule.make "r1" " uber" "transport") [] eq_refl).
  assert (Hfalse : applySmartCategory "Uber" [Rule.make "r1" " uber" "transport"] "other"
                   = "transport").
  { apply H; [intros r' [] | vm_compute; reflexivity]. }
  vm_compute in Hfalse. discriminate Hfalse.
Qed.

End ClassifierFacts.

(** ** CSV import *)

Section ImportFacts.
Import JsString.

Lemma sliceTo_empty (n : nat) (s : string) :
  (0 < n)%nat -> (sliceTo n s =? "")%string = (s =? "")%string.
Proof. destruct n; [lia|]. destruct s; reflexivity. Qed.

Lemma importRow_None_iff (state : AppState) (cols : ImportColumns.t)
    (id : string) (r : list string) :
  importRow state cols id r = None <-> rowSkipped cols r = true.
Proof.
  unfold importRow, rowSkipped, cellOf.
  rewrite sliceTo_empty by lia.
  destruct ((orEmpty (at_ r (ImportColumns.dateIdx cols)) =? "")%string
            || (orEmpty (at_ r (ImportColumns.merchantIdx cols)) =? "")%string
            || (orEmpty (at_ r (ImportColumns.amountIdx cols)) =? "")%string);
    simpl; [tauto|].
  destruct (Z.abs (parseMoneyToCents (orEmpty (at_ r (ImportColumns.amountIdx cols)))) <=? 0)
    eqn:E.
  - apply Z.leb_le in E. split; [intros _; apply Z.eqb_eq; lia | reflexivity].
  - apply Z.leb_gt in E. split; [discriminate|].
    intros H. apply Z.eqb_eq in H. rewrite H in E. simpl in E. lia.
Qed.

Lemma importRow_Some (state : AppState) (cols : ImportColumns.t)
    (id : string) (r : list string) (t : Transaction) :
  importRow state cols id r = Some t ->
  Transaction.id t = id
  /\ Transaction.date t = sliceTo 10 (cellOf r (ImportColumns.dateIdx cols))
  /\ Transaction.merchant t = cellOf r (ImportColumns.merchantIdx cols)
  /\ Transaction.amountCents t
     = Z.abs (parseMoneyToCents (cellOf r (ImportColumns.amountIdx cols)))
  /\ 0 < Transaction.amountCents t
  /\ (Transaction.type t = income -> Transaction.categoryId t = "cat_income").
Proof.
  unfold importRow, cellOf.
  destruct ((sliceTo 10 (orEmpty (at_ r (ImportColumns.dateIdx cols))) =? "")%string
            || (orEmpty (at_ r (ImportColumns.merchantIdx cols)) =? "")%string
            || (orEmpty (at_ r (ImportColumns.amountIdx cols)) =? "")%string);
    [discriminate|].
  destruct (Z.abs (parseMoneyToCents (orEmpty (at_ r (ImportColumns.amountIdx cols)))) <=? 0)
    eqn:E; [discriminate|].
  apply Z.leb_gt in E. intros H. inversion H; subst; clear H. simpl.
  repeat split; try assumption.
  destruct ((if truthy (at_ r (ImportColumns.typeIdx cols))
             then orEmpty (at_ r (ImportColumns.typeIdx cols))
             else "expense") =? "income")%string; [reflexivity | discriminate].
Qed.

(** The loop of import: the rows that are not skipped give, in order, one
    transaction each, appended to the array. *)
Lemma importRows_spec (uid : nat -> string) (state : AppState)
    (cols : ImportColumns.t) (rows : list (list string))
    (next : list Transaction) :
  exists created,
    importRows uid state cols rows next = (next ++ created)%list
    /\ Forall2 (fun r t => exists id, importRow state cols id r = Some t)
         (filter (fun r => negb (rowSkipped cols r)) rows) created.
Proof.
  revert next. induction rows as [|r rows IH]; intros next; simpl.
  - exists []. rewrite app_nil_r. split; [reflexivity | constructor].
  - destruct (importRow state cols (uid (List.length next)) r) as [t|] eqn:E.
    + destruct (IH (next ++ [t])%list) as (created & Heq & Hall).
      exists (t :: created). split.
      * rewrite Heq, <- app_assoc. reflexivity.
      * assert (Hs : rowSkipped cols r = false).
        { destruct (rowSkipped cols r) eqn:Hs; [|reflexivity].
          apply importRow_None_iff with (state := state) (id := uid (List.length next)) in Hs.
          congruence. }
        rewrite Hs. simpl. constructor; [|exact Hall].
        exists (uid (List.length next)). exact E.
    + destruct (IH next) as (created & Heq & Hall).
      exists created. split; [exact Heq|].
      apply importRow_None_iff in E. rewrite E. simpl. exact Hall.
Qed.

(** What [importFromText] does to the list of transactions: nothing, or
    the transactions of the data rows that are not skipped go in front. *)
Lemma importFromText_transactions (uid : nat -> string) (state : AppState)
    (dialog : ImportDialog.t) :
  importFromText uid state dialog = (state, dialog)
  \/ exists header dataRows created,
       parseCSVText (ImportDialog.importText dialog) = header :: dataRows
       /\ Forall2 (fun r t => exists id,
                       importRow state (importColumns header) id r = Some t)
            (filter (fun r => negb (rowSkipped (importColumns header) r)) dataRows)
            created
       /\ created <> []
       /\ importFromText uid state dialog
          = (withTransactions state (created ++ AppState.transactions state)%list,
             ImportDialog.make "" false).
Proof.
  unfold importFromText.
  destruct (parseCSVText (ImportDialog.importText dialog)) as [|header [|r1 rest]];
    [left; reflexivity | left; reflexivity |].
  destruct ((ImportColumns.dateIdx (importColumns header) =? -1)
            || (ImportColumns.merchantIdx (importColumns header) =? -1)
            || (ImportColumns.amountIdx (importColumns header) =? -1));
    [left; reflexivity|].
  destruct (importRows_spec uid state (importColumns header) (r1 :: rest) [])
    as (created & Heq & Hall).
  rewrite Heq. simpl app.
  destruct created as [|t created]; [left; reflexivity|].
  right. exists header, (r1 :: rest), (t :: created).
  split; [reflexivity|]. split; [exact Hall|]. split; [discriminate|].
  reflexivity.
Qed.

Lemma Forall2_In_r {A B : Type} (P : A -> B -> Prop) (l : list A)
    (l' : list B) (b : B) :
  Forall2 P l l' -> In b l' -> exists a, In a l /\ P a b.
Proof.
  induction 1 as [|x y l l' Hxy Hall IH]; intros Hin; [destruct Hin|].
  destruct Hin as [<-|Hin].
  - exists x. split; [left; reflexivity | exact Hxy].
  - destruct (IH Hin) as (a & Ha & Hp). exists a. split; [right|]; assumption.
Qed.

(** A transaction of the state after import is an old one or comes from a
    data row of the pasted text. *)
Lemma importFromText_In (uid : nat -> string) (state : AppState)
    (dialog : ImportDialog.t) (t : Transaction) :
  In t (AppState.transactions (fst (importFromText uid state dialog))) ->
  In t (AppState.transactions state)
  \/ exists header dataRows r id,
       parseCSVText (ImportDialog.importText dialog) = header :: dataRows
       /\ In r dataRows
       /\ importRow state (importColumns header) id r = Some t.
Proof.
  destruct (importFromText_transactions uid state dialog)
    as [Heq | (header & dataRows & created & Hparse & Hall & _ & Heq)];
    rewrite Heq; simpl; [auto|].
  intros Hin. apply in_app_or in Hin. destruct Hin as [Hin|Hin]; [|auto].
  right. destruct (Forall2_In_r _ _ _ _ Hall Hin) as (r & Hr & id & Hrow).
  apply filter_In in Hr. destruct Hr as [Hr _].
  exists header, dataRows, r, id. auto.
Qed.

Lemma indexOf_absent (x : string) (l : list string) :
  ~ In x l -> indexOf x l = -1.
Proof.
  induction l as [|y l IH]; simpl; intros H; [reflexivity|].
  destruct (String.eqb_spec y x) as [E|E]; [tauto|].
  rewrite IH by tauto. reflexivity.
Qed.

(** C2 (as amended). A data row produces no transaction exactly when its
    date, merchant or amount cell is empty or its amount parses to zero;
    the other rows each produce one transaction, in order, whose
    [amountCents] is the absolute value of the parsed amount (a negative
    amount is imported, not skipped); every transaction that import creates
    has [amountCents > 0]. *)
Theorem csv_import_row_filtering :
  (forall state cols id r,
      rowSkipped cols r = true <-> importRow state cols id r = None)
  /\ (forall uid state cols rows,
         Forall2 (fun r t => exists id, importRow state cols id r = Some t)
           (filter (fun r => negb (rowSkipped cols r)) rows)
           (importRows uid state cols rows []))
  /\ (forall state cols id r t,
         importRow state cols id r = Some t ->
         Transaction.amountCents t
         = Z.abs (parseMoneyToCents (cellOf r (ImportColumns.amountIdx cols)))
         /\ 0 < Transaction.amountCents t)
  /\ (forall uid state dialog t,
         In t (AppState.transactions (fst (importFromText uid state dialog))) ->
         In t (AppState.transactions state) \/ 0 < Transaction.amountCents t).
Proof.
  split; [|split; [|split]].
  - intros state cols id r. symmetry. apply importRow_None_iff.
  - intros uid state cols rows.
    destruct (importRows_spec uid state cols rows []) as (created & -> & H).
    exact H.
  - intros state cols id r t H. apply importRow_Some in H. tauto.
  - intros uid state dialog t Hin.
    apply importFromText_In in Hin.
    destruct Hin as [Hin | (header & dataRows & r & id & _ & _ & Hrow)]; [auto|].
    right. apply importRow_Some in Hrow. tauto.
Qed.

Lemma csv_import_row_filtering_witness :
  map Transaction.merchant
    (firstn 2 (AppState.transactions
                 (fst (importFromText sampleUid (defaultState "2026-01-15")
                         (ImportDialog.make importSample true)))))
  = ["Coffee"; "Rent"]
  /\ Forall (fun t => In t (AppState.transactions (defaultState "2026-01-15"))
                      \/ 0 < Transaction.amountCents t)
       (firstn 2 (AppState.transactions
                    (fst (importFromText sampleUid (defaultState "2026-01-15")
                            (ImportDialog.make importSample true))))).
Proof.
  destruct csv_import_row_filtering as (_ & _ & _ & Hpos).
  split; [vm_compute; reflexivity|].
  apply Forall_forall. intros t Hin.
  apply (Hpos sampleUid (defaultState "2026-01-15")
           (ImportDialog.make importSample true) t).
  vm_compute in Hin. vm_compute.
  destruct Hin as [<-|[<-|[]]]; [left | right; left]; reflexivity.
Defined.

(** The claim as worded skips a row whose parsed amount is not strictly
    positive; the amount -10 parses to -1000 cents, yet the row is imported,
    with 1000 cents. *)
Lemma csv_import_negative_amount_counterexample :
  let cols := importColumns ["date"; "merchant"; "amount"] in
  let r := ["2025-01-01"; "Refund"; "-10"] in
  parseCSVText importRefund = [["date"; "merchant"; "amount"]; r]
  /\ parseMoneyToCents (cellOf r (ImportColumns.amountIdx cols)) = -1000
  /\ rowSkippedAsClaimed cols r = true
  /\ importRow (defaultState "2026-01-15") cols "tx_0" r
     = Some (Transaction.make "tx_0" "2025-01-01" "Refund" 1000 expense
               "cat_other" "acc_cc" None)
  /\ List.length (AppState.transactions
                    (fst (importFromText sampleUid (defaultState "2026-01-15")
                            (ImportDialog.make importRefund true))))
     = S (List.length (AppState.transactions (defaultState "2026-01-15"))).
Proof. vm_compute. repeat split; reflexivity. Qed.

(** C6. When the header row, read without regard to case, lacks [date],
    [merchant] or [amount], [importFromText] leaves the application state
    (and the dialog) as they were; so it does when every data row is
    skipped, or when there is no data row. *)
Theorem csv_import_atomic (uid : nat -> string) (state : AppState)
    (dialog : ImportDialog.t) :
  let rows := parseCSVText (ImportDialog.importText dialog) in
  (headerLacks "date" rows \/ headerLacks "merchant" rows
   \/ headerLacks "amount" rows ->
   importFromText uid state dialog = (state, dialog))
  /\ ((forall r, In r (tl rows) ->
                 rowSkipped (importColumns (hd [] rows)) r = true) ->
      importFromText uid state dialog = (state, dialog)).
Proof.
  intros rows. split.
  - intros Hlacks. unfold importFromText. fold rows.
    destruct rows as [|header [|r1 rest]]; try reflexivity.
    unfold headerLacks in Hlacks. simpl hd in Hlacks.
    unfold importColumns. cbn [ImportColumns.dateIdx ImportColumns.merchantIdx
                                 ImportColumns.amountIdx].
    destruct Hlacks as [H|[H|H]]; rewrite (indexOf_absent _ _ H); simpl;
      rewrite ?orb_true_r; reflexivity.
  - intros Hskip.
    destruct (importFromText_transactions uid state dialog)
      as [Heq | (header & dataRows & created & Hparse & Hall & Hne & _)];
      [exact Heq|].
    exfalso. apply Hne. unfold rows in Hskip. rewrite Hparse in Hskip.
    simpl in Hskip.
    assert (Hnil : filter (fun r => negb (rowSkipped (importColumns header) r)) dataRows = []).
    { clear - Hskip. induction dataRows as [|r l IH]; simpl; [reflexivity|].
      rewrite (Hskip r (or_introl eq_refl)). simpl.
      apply IH. intros r' Hr'. apply Hskip. right. exact Hr'. }
    rewrite Hnil in Hall. inversion Hall. reflexivity.
Qed.

Lemma csv_import_atomic_witness :
  importFromText sampleUid (defaultState "2026-01-15")
    (ImportDialog.make importNoAmount true)
  = (defaultState "2026-01-15", ImportDialog.make importNoAmount true)
  /\ importFromText sampleUid (defaultState "2026-01-15")
       (ImportDialog.make importNoValidRow true)
     = (defaultState "2026-01-15", ImportDialog.make importNoValidRow true).
Proof.
  split.
  - destruct (csv_import_atomic sampleUid (defaultState "2026-01-15")
                (ImportDialog.make importNoAmount true)) as [Hheader _].
    apply Hheader. right. right. vm_compute.
    intros [H|[H|[H|[]]]]; discriminate H.
  - destruct (csv_import_atomic sampleUid (defaultState "2026-01-15")
                (ImportDialog.make importNoValidRow true)) as [_ Hrows].
    apply Hrows. intros r Hr. vm_compute in Hr.
    destruct Hr as [<-|[<-|[]]]; vm_compute; reflexivity.
Defined.

Lemma cellOf_trimmed (raw : list string) (i : Z) :
  cellOf (map trim raw) i = trim (cellOf raw i).
Proof.
  unfold cellOf, at_. destruct (i <? 0); [reflexivity|].
  rewrite nth_error_map. destruct (nth_error raw (Z.to_nat i)); reflexivity.
Qed.

Lemma parseCSVText_In (text : string) (r : list string) :
  In r (parseCSVText text) ->
  exists raw, In raw (tokenize text [] [] "" false) /\ r = map trim raw.
Proof.
  unfold parseCSVText. intros H. apply filter_In in H. destruct H as [H _].
  apply in_map_iff in H. destruct H as (raw & <- & Hraw). exists raw. auto.
Qed.

(** C10. The transaction that import makes of a row has as its date the
    first 10 characters of the row's date cell, the cell being the trimmed
    text between the separators; nothing checks that these characters spell
    a calendar date: a date-time is cut to its date part, and texts such as
    2025-13-99 or yesterday are stored as they are. *)
Theorem csv_import_date_prefix :
  (forall state cols id r t,
      importRow state cols id r = Some t ->
      Transaction.date t = sliceTo 10 (cellOf r (ImportColumns.dateIdx cols)))
  /\ (forall uid state dialog t,
         In t (AppState.transactions (fst (importFromText uid state dialog))) ->
         In t (AppState.transactions state)
         \/ exists raw,
             In raw (tokenize (ImportDialog.importText dialog) [] [] "" false)
             /\ Transaction.date t
                = sliceTo 10
                    (trim (cellOf raw
                             (ImportColumns.dateIdx
                                (importColumns
                                   (hd [] (parseCSVText
                                             (ImportDialog.importText dialog))))))))
  /\ map Transaction.date
       (firstn 3 (AppState.transactions
                    (fst (importFromText sampleUid (defaultState "2026-01-15")
                            (ImportDialog.make importOddDates true)))))
     = ["2025-01-15"; "2025-13-99"; "yesterday"].
Proof.
  split; [|split].
  - intros state cols id r t H. apply importRow_Some in H. tauto.
  - intros uid state dialog t Hin.
    apply importFromText_In in Hin.
    destruct Hin as [Hin | (header & dataRows & r & id & Hparse & Hr & Hrow)];
      [auto|].
    right.
    assert (Hin : In r (parseCSVText (ImportDialog.importText dialog))).
    { rewrite Hparse. right. exact Hr. }
    apply parseCSVText_In in Hin. destruct Hin as (raw & Hraw & ->).
    exists raw. split; [exact Hraw|].
    rewrite Hparse. simpl hd. rewrite <- cellOf_trimmed.
    apply importRow_Some in Hrow. tauto.
  - vm_compute. reflexivity.
Qed.

Lemma csv_import_date_prefix_witness :
  importRow (defaultState "2026-01-15")
    (importColumns ["date"; "merchant"; "amount"]) "tx_0"
    ["2025-01-15T10:30:00Z"; "Coffee"; "4.50"]
  = Some (Transaction.make "tx_0" "2025-01-15" "Coffee" 450 expense
            "cat_other" "acc_cc" None)
  /\ Transaction.date
       (Transaction.make "tx_0" "2025-01-15" "Coffee" 450 expense
          "cat_other" "acc_cc" None)
     = sliceTo 10 "2025-01-15T10:30:00Z".
Proof.
  destruct csv_import_date_prefix as (Hrow & _ & _).
  split; [vm_compute; reflexivity|].
  apply (Hrow (defaultState "2026-01-15")
           (importColumns ["date"; "merchant"; "amount"]) "tx_0"
           ["2025-01-15T10:30:00Z"; "Coffee"; "4.50"]).
  vm_compute. reflexivity.
Defined.

End ImportFacts.

(** ** The income category *)

Section IncomeInvariant.

Lemma incomeInvariant_default (today : string) :
  incomeInvariant (defaultState today).
Proof.
  unfold incomeInvariant, defaultState. simpl.
  repeat constructor; simpl; intros H; try discriminate H; reflexivity.
Qed.

Lemma step_keeps_incomeInvariant (today : string) (s s' : AppState) :
  step today s s' -> incomeInvariant s -> incomeInvariant s'.
Proof.
  intros Hstep Hinv. destruct Hstep; try exact Hinv.
  - apply incomeInvariant_default.
  - unfold addTransaction.
    destruct (JsString.trim (TxForm.txMerchant form) =? "")%string; [exact Hinv|].
    destruct (Z.abs (parseMoneyToCents (TxForm.txAmount form)) <=? 0); [exact Hinv|].
    unfold incomeInvariant. simpl. constructor; [|exact Hinv].
    simpl. intros ->. reflexivity.
  - unfold incomeInvariant, deleteTransaction. simpl.
    apply Forall_forall. intros t Ht. apply filter_In in Ht.
    destruct Ht as [Ht _]. unfold incomeInvariant in Hinv.
    eapply Forall_forall in Hinv; eassumption.
  - unfold addRule. destruct (JsString.trim contains =? "")%string; exact Hinv.
  - unfold incomeInvariant. apply Forall_forall. intros t Ht.
    apply importFromText_In in Ht.
    destruct Ht as [Ht | (header & dataRows & r & id & _ & _ & Hrow)].
    + unfold incomeInvariant in Hinv. eapply Forall_forall in Hinv; eassumption.
    + apply importRow_Some in Hrow. tauto.
Qed.

(** C7. In every state reachable from the default dataset by the mutation
    operations, a transaction of type income has the category
    cat_income, whatever category the form or the CSV row names. *)
Theorem income_category_invariant (today : string) (s : AppState) :
  reachable today s -> incomeInvariant s.
Proof.
  induction 1 as [|s s' Hreach IH Hstep].
  - apply incomeInvariant_default.
  - eapply step_keeps_incomeInvariant; eassumption.
Qed.

Lemma income_category_invariant_witness :
  incomeInvariant (addTransaction "tx_new" sampleForm (defaultState "2026-01-15"))
  /\ Transaction.categoryId
       (hd (Transaction.make "" "" "" 0 expense "" "" None)
          (AppState.transactions
             (addTransaction "tx_new" sampleForm (defaultState "2026-01-15"))))
     = "cat_income".
Proof.
  split; [|vm_compute; reflexivity].
  apply (income_category_invariant "2026-01-15").
  eapply reachable_step; [apply reachable_default | apply step_addTransaction].
Defined.

End IncomeInvariant.

(** ** CSV round trip *)

Section CsvFacts.
Import JsString.

Lemma string_app_assoc (a b c : string) : ((a ++ b) ++ c = a ++ (b ++ c))%string.
Proof. induction a as [|x a IH]; simpl; [reflexivity | rewrite IH; reflexivity]. Qed.

Lemma string_app_nil_r (a : string) : (a ++ "" = a)%string.
Proof. induction a as [|x a IH]; simpl; [reflexivity | rewrite IH; reflexivity]. Qed.

Lemma needsQuoting_false (a : ascii) :
  needsQuoting a = false ->
  Ascii.eqb a dquote = false /\ Ascii.eqb a comma = false /\ Ascii.eqb a LF = false.
Proof.
  unfold needsQuoting. intros H.
  apply orb_false_elim in H. destruct H as [H Hq].
  apply orb_false_elim in H. destruct H as [H Hc].
  apply orb_false_elim in H. destruct H as [Hl _]. auto.
Qed.

(** A field written as it is reads back as it is. *)
Lemma tokenize_plain (f rest : string) (rows : list (list string))
    (row : list string) (cur : string) :
  anyChar needsQuoting f = false ->
  tokenize (f ++ rest) rows row cur false = tokenize rest rows row (cur ++ f) false.
Proof.
  revert cur. induction f as [|a f IH]; intros cur H; simpl.
  - rewrite string_app_nil_r. reflexivity.
  - simpl in H. apply orb_false_elim in H. destruct H as [Ha Hf].
    apply needsQuoting_false in Ha. destruct Ha as (Hq & Hc & Hl).
    rewrite Hq, Hc, Hl, IH by exact Hf.
    rewrite string_app_assoc. reflexivity.
Qed.

(** Inside quotes, the doubled quotes of a field read back as the field, up
    to the closing quote. *)
Lemma tokenize_quoted (f rest : string) (rows : list (list string))
    (row : list string) (cur : string) :
  noLeadingQuote rest = true ->
  tokenize (doubleQuotes f ++ String dquote rest) rows row cur true
  = tokenize rest rows row (cur ++ f) false.
Proof.
  intros Hrest. revert cur. induction f as [|a f IH]; intros cur.
  - simpl. rewrite string_app_nil_r.
    destruct rest as [|c rest]; [reflexivity|].
    simpl in Hrest. apply negb_true_iff in Hrest. rewrite Hrest. reflexivity.
  - simpl doubleQuotes. destruct (Ascii.eqb a dquote) eqn:E.
    + apply Ascii.eqb_eq in E. subst a.
      change (tokenize (doubleQuotes f ++ String dquote rest) rows row
                (cur ++ String dquote "") true
              = tokenize rest rows row (cur ++ String dquote f) false).
      rewrite IH, string_app_assoc. reflexivity.
    + simpl. rewrite E, IH, string_app_assoc. reflexivity.
Qed.

Lemma tokenize_field (f rest : string) (rows : list (list string))
    (row : list string) (cur : string) :
  noLeadingQuote rest = true ->
  tokenize (csvEscape f ++ rest) rows row cur false
  = tokenize rest rows row (cur ++ f) false.
Proof.
  intros Hrest. unfold csvEscape.
  destruct (anyChar needsQuoting f) eqn:E.
  - simpl. rewrite string_app_assoc. simpl.
    apply tokenize_quoted. exact Hrest.
  - apply tokenize_plain. exact E.
Qed.

Lemma closeRow_last (r : list string) :
  r <> [] -> closeRow r = (removelast r ++ [removeAll CR (last r "")])%list.
Proof.
  induction r as [|c r IH]; intros H; [congruence|].
  destruct r as [|c' r]; [reflexivity|].
  change (closeRow (c :: c' :: r)) with (c :: closeRow (c' :: r)).
  rewrite IH by discriminate. reflexivity.
Qed.

(** A line of escaped cells reads back as its cells. *)
Lemma tokenize_cells (cells : list string) (rest : string)
    (rows : list (list string)) (row : list string) :
  cells <> [] -> noLeadingQuote rest = true ->
  tokenize (join "," (map csvEscape cells) ++ rest) rows row "" false
  = tokenize rest rows (row ++ removelast cells)%list (last cells "") false.
Proof.
  intros Hne Hrest. revert row.
  induction cells as [|c cells IH]; intros row; [congruence|].
  destruct cells as [|c' cells].
  - simpl. rewrite tokenize_field by exact Hrest.
    rewrite app_nil_r. reflexivity.
  - change (join "," (map csvEscape (c :: c' :: cells)))
      with (csvEscape c ++ "," ++ join "," (map csvEscape (c' :: cells)))%string.
    rewrite string_app_assoc, tokenize_field by reflexivity.
    rewrite string_app_assoc.
    change (tokenize ("," ++ join "," (map csvEscape (c' :: cells)) ++ rest)
              rows row ("" ++ c) false)
      with (tokenize (join "," (map csvEscape (c' :: cells)) ++ rest)
              rows (row ++ [c])%list "" false).
    rewrite IH by discriminate.
    change (removelast (c :: c' :: cells)) with (c :: removelast (c' :: cells)).
    change (last (c :: c' :: cells) "") with (last (c' :: cells) "").
    rewrite <- app_assoc. reflexivity.
Qed.

(** The text of a table reads back as the table, carriage returns of the
    last cells apart. *)
Lemma tokenize_csvText (table done : list (list string)) :
  table <> [] -> Forall (fun r => r <> []) table ->
  tokenize (csvText table) done [] "" false = (done ++ map closeRow table)%list.
Proof.
  intros Hne Hall. revert done.
  induction table as [|r table IH]; intros done; [congruence|].
  inversion Hall as [|? ? Hr Hrest]; subst.
  destruct table as [|r' table].
  - unfold csvText. simpl map. simpl join.
    rewrite <- (string_app_nil_r (join "," (map csvEscape r))).
    rewrite tokenize_cells by (auto; reflexivity).
    simpl. rewrite closeRow_last by exact Hr. reflexivity.
  - change (csvText (r :: r' :: table))
      with (join "," (map csvEscape r) ++ String LF "" ++ csvText (r' :: table))%string.
    rewrite tokenize_cells by (auto; reflexivity).
    change (tokenize (String LF "" ++ csvText (r' :: table)) done
              ([] ++ removelast r)%list (last r "") false)
      with (tokenize (csvText (r' :: table))
              (done ++ [removelast r ++ [removeAll CR (last r "")]])%list
              [] "" false).
    rewrite IH by (auto; discriminate).
    rewrite <- closeRow_last by exact Hr.
    rewrite <- app_assoc. reflexivity.
Qed.

Lemma anyChar_removeAll (p : ascii -> bool) (c : ascii) (s : string) :
  p c = false -> anyChar p (removeAll c s) = anyChar p s.
Proof.
  intros Hc. induction s as [|a s IH]; simpl; [reflexivity|].
  destruct (Ascii.eqb_spec a c) as [->|Hne]; simpl.
  - rewrite Hc. exact IH.
  - rewrite IH. reflexivity.
Qed.

Lemma removeAll_absent (c : ascii) (s : string) :
  anyChar (fun a => Ascii.eqb a c) s = false -> removeAll c s = s.
Proof.
  induction s as [|a s IH]; simpl; intros H; [reflexivity|].
  apply orb_false_elim in H. destruct H as [Ha Hs].
  rewrite Ha, IH by exact Hs. reflexivity.
Qed.

Section Visible.
(** A property of code units that no white space has. *)
Variable p : ascii -> bool.
Hypothesis p_visible : forall c, p c = true -> isWhiteSpace c = false.

Lemma anyChar_trimStart (s : string) : anyChar p (trimStart s) = anyChar p s.
Proof.
  induction s as [|a s IH]; simpl; [reflexivity|].
  destruct (isWhiteSpace a) eqn:E; [|reflexivity].
  rewrite IH. destruct (p a) eqn:Ep; [|reflexivity].
  rewrite (p_visible a Ep) in E. discriminate.
Qed.

Lemma anyChar_trimEnd (s : string) : anyChar p (trimEnd s) = anyChar p s.
Proof.
  induction s as [|a s IH]; simpl; [reflexivity|].
  rewrite <- IH. destruct (trimEnd s) as [|b t]; [|reflexivity].
  simpl. destruct (isWhiteSpace a) eqn:E; simpl.
  - destruct (p a) eqn:Ep; [|reflexivity].
    rewrite (p_visible a Ep) in E. discriminate.
  - rewrite orb_false_r. reflexivity.
Qed.

Lemma anyChar_trim (s : string) : anyChar p (trim s) = anyChar p s.
Proof. unfold trim. rewrite anyChar_trimEnd, anyChar_trimStart. reflexivity. Qed.
End Visible.

Lemma anyChar_nonempty (p : ascii -> bool) (s : string) :
  anyChar p s = true -> (0 <? String.length s)%nat = true.
Proof. destruct s; [discriminate | reflexivity]. Qed.

Lemma commaOrQuote_visible (c : ascii) :
  Ascii.eqb c comma || Ascii.eqb c dquote = true -> isWhiteSpace c = false.
Proof.
  intros H. apply orb_prop in H.
  destruct H as [H|H]; apply Ascii.eqb_eq in H; subst c; reflexivity.
Qed.

(** What [parseCSVText] returns on an escaped field alone. *)
Lemma parse_escaped_field (f : string) :
  hasCommaOrQuote f = true ->
  parseCSVText (csvEscape f) = [[trim (removeAll CR f)]].
Proof.
  intros H. unfold parseCSVText.
  replace (csvEscape f) with (csvText [[f]])
    by (unfold csvText; simpl; reflexivity).
  rewrite tokenize_csvText; [|discriminate | repeat constructor; discriminate].
  simpl. unfold nonEmptyRow. simpl.
  rewrite (anyChar_nonempty (fun c => Ascii.eqb c comma || Ascii.eqb c dquote));
    [reflexivity|].
  rewrite anyChar_trim by exact commaOrQuote_visible.
  rewrite anyChar_removeAll by reflexivity. exact H.
Qed.

Lemma filter_all {A : Type} (p : A -> bool) (l : list A) :
  (forall x, In x l -> p x = true) -> filter p l = l.
Proof.
  induction l as [|x l IH]; simpl; intros H; [reflexivity|].
  rewrite (H x (or_introl eq_refl)), IH; [reflexivity|].
  intros y Hy. apply H. right. exact Hy.
Qed.

Lemma exportRow_kept (catById accById : JsMap.Map string) (t : Transaction) :
  nonEmptyRow (map trim (closeRow (exportRow catById accById t))) = true.
Proof.
  unfold exportRow, nonEmptyRow. simpl.
  destruct (Transaction.type t); simpl; rewrite !orb_true_r; reflexivity.
Qed.

Lemma parse_serialized (categories : list Category) (accounts : list Account)
    (transactions : list Transaction) :
  let catById :=
    JsMap.ofEntries (map (fun c => (Category.id c, Category.name c)) categories) in
  let accById :=
    JsMap.ofEntries (map (fun a => (Account.id a, Account.name a)) accounts) in
  parseCSVText (serialize categories accounts transactions)
  = csvHeader
    :: map (fun t => map trim (closeRow (exportRow catById accById t))) transactions.
Proof.
  intros catById accById. unfold parseCSVText, serialize.
  fold catById accById.
  rewrite tokenize_csvText.
  - simpl app. rewrite filter_all.
    + rewrite !map_cons, !map_map. reflexivity.
    + intros r Hr. apply in_map_iff in Hr. destruct Hr as (r1 & <- & Hr).
      destruct Hr as [<-|Hr]; [reflexivity|].
      apply in_map_iff in Hr. destruct Hr as (r0 & <- & Hr).
      apply in_map_iff in Hr. destruct Hr as (t & <- & _).
      apply exportRow_kept.
  - discriminate.
  - constructor; [discriminate|].
    apply Forall_forall. intros r Hr. apply in_map_iff in Hr.
    destruct Hr as (t & <- & _). discriminate.
Qed.

(** C1 (as amended). The text that export builds reads back, through
    [parseCSVText], as the header row followed by one data row per
    transaction, in the order of the transactions, the row of a
    transaction being its cells as the parser hands cells over; and a
    field that holds a comma or a double quote, has no white space at
    either end and holds no carriage return reads back, after
    [csvEscape], unchanged. *)
Theorem csv_round_trip :
  (forall categories accounts transactions,
      exists dataRows,
        parseCSVText (serialize categories accounts transactions)
        = csvHeader :: dataRows
        /\ List.length dataRows = List.length transactions
        /\ dataRows
           = map (fun t =>
                    map trim
                      (closeRow
                         (exportRow
                            (JsMap.ofEntries
                               (map (fun c => (Category.id c, Category.name c))
                                  categories))
                            (JsMap.ofEntries
                               (map (fun a => (Account.id a, Account.name a))
                                  accounts))
                            t)))
               transactions)
  /\ (forall state,
         List.length (parseCSVText (exportCSV state))
         = S (List.length (AppState.transactions state)))
  /\ (forall f,
         hasCommaOrQuote f = true ->
         parseCSVText (csvEscape f) = [[trim (removeAll CR f)]])
  /\ (forall f,
         hasCommaOrQuote f = true ->
         trim f = f ->
         anyChar (fun a => Ascii.eqb a CR) f = false ->
         parseCSVText (csvEscape f) = [[f]]).
Proof.
  split; [|split; [|split]].
  - intros categories accounts transactions.
    rewrite parse_serialized. eexists. split; [reflexivity|].
    split; [apply length_map | reflexivity].
  - intros state. unfold exportCSV. rewrite parse_serialized.
    simpl. rewrite length_map, sort_length. reflexivity.
  - exact parse_escaped_field.
  - intros f Hf Htrim Hcr. rewrite parse_escaped_field by exact Hf.
    rewrite removeAll_absent by exact Hcr. rewrite Htrim. reflexivity.
Qed.

Lemma csv_round_trip_witness :
  parseCSVText (csvEscape "Coffee, Shop") = [["Coffee, Shop"]]
  /\ parseCSVText (csvEscape (String dquote "quoted" ++ String dquote " text"))
     = [[String dquote "quoted" ++ String dquote " text"]].
Proof.
  destruct csv_round_trip as (_ & _ & _ & Hfield).
  split; apply Hfield; vm_compute; reflexivity.
Defined.

(** The claim as worded fails on a field that ends with a blank, and on one
    that holds a carriage return: such a field holds a comma, yet it does
    not read back unchanged. *)
Lemma csv_escape_round_trip_counterexample :
  hasCommaOrQuote "Coffee, " = true
  /\ parseCSVText (csvEscape "Coffee, ") = [["Coffee,"]]
  /\ parseCSVText (csvEscape "Coffee, ") <> [["Coffee, "]]
  /\ hasCommaOrQuote (String "a" (String CR ",b")) = true
  /\ parseCSVText (csvEscape (String "a" (String CR ",b"))) = [["a,b"]].
Proof.
  vm_compute. repeat split; try reflexivity. intros H. discriminate H.
Qed.

End CsvFacts.

(** ** Date ranges *)

Section DateFacts.
Import JsString JsDate.

Lemma DayFromYear_next (y : Z) :
  DayFromYear (y + 1) = DayFromYear y + 365 + (if InLeapYear y then 1 else 0).
Proof.
  unfold DayFromYear, InLeapYear.
  destruct (Z.eqb_spec (y mod 4) 0) as [E4|E4];
    destruct (Z.eqb_spec (y mod 100) 0) as [E100|E100];
    destruct (Z.eqb_spec (y mod 400) 0) as [E400|E400];
    cbv [andb orb negb]; Z.div_mod_to_equations; lia.
Qed.

Lemma YearFromDay_bounds (n : Z) :
  DayFromYear (YearFromDay n) <= n < DayFromYear (YearFromDay n + 1).
Proof.
  unfold YearFromDay.
  set (y := 1970 + 400 * n / 146097).
  assert (Hlow : DayFromYear (y - 1) <= n).
  { unfold y, DayFromYear. Z.div_mod_to_equations. lia. }
  assert (Hhigh : n < DayFromYear (y + 2)).
  { unfold y, DayFromYear. Z.div_mod_to_equations. lia. }
  destruct (DayFromYear (y + 1) <=? n) eqn:E1.
  - apply Z.leb_le in E1. replace (y + 1 + 1) with (y + 2) by lia. lia.
  - apply Z.leb_gt in E1. destruct (DayFromYear y <=? n) eqn:E0.
    + apply Z.leb_le in E0. lia.
    + apply Z.leb_gt in E0. replace (y - 1 + 1) with y by lia. lia.
Qed.

Lemma DayFromYear_mono (y1 y2 : Z) : y1 <= y2 -> DayFromYear y1 <= DayFromYear y2.
Proof. unfold DayFromYear. intros H. Z.div_mod_to_equations. lia. Qed.

Lemma MakeDay_in_year (y m d : Z) :
  0 <= m <= 11 -> MakeDay y m d = DayFromYear y + DaysBeforeMonth y m + d - 1.
Proof.
  intros Hm. unfold MakeDay.
  replace (m / 12) with 0 by (Z.div_mod_to_equations; lia).
  replace (m mod 12) with m by (Z.div_mod_to_equations; lia).
  rewrite Z.add_0_r. reflexivity.
Qed.

(** The table of the months of a year whose February has [28 + leap]
    days: the month of the [dw]-th day of the year and its date. *)
Lemma month_of_day (y dw : Z) :
  0 <= dw < 365 + (if InLeapYear y then 1 else 0) ->
  let m :=
    if dw <? DaysBeforeMonth y 1 then 0
    else if dw <? DaysBeforeMonth y 2 then 1
    else if dw <? DaysBeforeMonth y 3 then 2
    else if dw <? DaysBeforeMonth y 4 then 3
    else if dw <? DaysBeforeMonth y 5 then 4
    else if dw <? DaysBeforeMonth y 6 then 5
    else if dw <? DaysBeforeMonth y 7 then 6
    else if dw <? DaysBeforeMonth y 8 then 7
    else if dw <? DaysBeforeMonth y 9 then 8
    else if dw <? DaysBeforeMonth y 10 then 9
    else if dw <? DaysBeforeMonth y 11 then 10
    else 11 in
  0 <= m <= 11 /\ 1 <= dw - DaysBeforeMonth y m + 1 <= DaysInMonth y m.
Proof.
  intros Hdw.
  change (DaysBeforeMonth y 1) with 31.
  change (DaysBeforeMonth y 2) with (59 + (if InLeapYear y then 1 else 0)).
  change (DaysBeforeMonth y 3) with (90 + (if InLeapYear y then 1 else 0)).
  change (DaysBeforeMonth y 4) with (120 + (if InLeapYear y then 1 else 0)).
  change (DaysBeforeMonth y 5) with (151 + (if InLeapYear y then 1 else 0)).
  change (DaysBeforeMonth y 6) with (181 + (if InLeapYear y then 1 else 0)).
  change (DaysBeforeMonth y 7) with (212 + (if InLeapYear y then 1 else 0)).
  change (DaysBeforeMonth y 8) with (243 + (if InLeapYear y then 1 else 0)).
  change (DaysBeforeMonth y 9) with (273 + (if InLeapYear y then 1 else 0)).
  change (DaysBeforeMonth y 10) with (304 + (if InLeapYear y then 1 else 0)).
  change (DaysBeforeMonth y 11) with (334 + (if InLeapYear y then 1 else 0)).
  intros m. subst m.
  repeat match goal with
         | |- context [?a <? ?b] => destruct (Z.ltb_spec a b)
         end;
    unfold DaysBeforeMonth, DaysInMonth;
    destruct (InLeapYear y); cbv [Z.leb Z.eqb Z.compare Pos.compare Pos.compare_cont orb Pos.eqb];
    lia.
Qed.

(** The year, month and date of a day are a calendar date, and that date
    is the day. *)
Lemma civil_of_day (n : Z) :
  0 <= MonthFromDay n <= 11
  /\ 1 <= DateFromDay n <= DaysInMonth (YearFromDay n) (MonthFromDay n)
  /\ MakeDay (YearFromDay n) (MonthFromDay n) (DateFromDay n) = n.
Proof.
  pose proof (YearFromDay_bounds n) as Hy.
  rewrite DayFromYear_next in Hy.
  assert (Hdw : 0 <= DayWithinYear n
                < 365 + (if InLeapYear (YearFromDay n) then 1 else 0)).
  { unfold DayWithinYear. lia. }
  destruct (month_of_day (YearFromDay n) (DayWithinYear n) Hdw) as [Hm Hd].
  fold (MonthFromDay n) in Hm, Hd. fold (DateFromDay n) in Hd.
  split; [exact Hm|]. split; [exact Hd|].
  rewrite MakeDay_in_year by exact Hm.
  unfold DateFromDay, DayWithinYear. lia.
Qed.

(** [d.setDate(d.getDate() + k)] moves a date by [k] days. *)
Lemma setDate_shift (n k : Z) :
  setDate (Some n) (lift2 Z.add (getDate (Some n)) (Some k)) = Some (n + k).
Proof.
  unfold setDate, getDate, lift2, option_map. f_equal.
  destruct (civil_of_day n) as (Hm & _ & Hmake).
  rewrite MakeDay_in_year in Hmake by exact Hm.
  rewrite MakeDay_in_year by exact Hm. lia.
Qed.

Lemma setDate_back (n k : Z) :
  setDate (Some n) (lift2 Z.sub (getDate (Some n)) (Some k)) = Some (n - k).
Proof.
  rewrite <- (Z.add_opp_r n k), <- setDate_shift.
  unfold setDate, getDate, lift2, option_map.
  rewrite Z.add_opp_r. reflexivity.
Qed.

(** The dates that [previousDateRange] computes before it prints them. *)
Lemma previousDateRange_days (r : DateRange) (a b : Z) :
  newDate (DateRange.min r) = Some a ->
  newDate (DateRange.max r) = Some b ->
  a <= b ->
  previousDateRange r
  = DateRange.make (formatISO (Some (a - 1 - (b - a)))) (formatISO (Some (a - 1))).
Proof.
  intros Ha Hb Hab. unfold previousDateRange. rewrite Ha, Hb.
  rewrite setDate_back.
  cbn [getDay lift2 option_map].
  change (match getDate (Some (a - 1)) with
          | Some x => Some (x - (Z.max 0 (b - a) + 1 - 1))
          | None => None
          end)
    with (lift2 Z.sub (getDate (Some (a - 1))) (Some (Z.max 0 (b - a) + 1 - 1))).
  rewrite setDate_back.
  replace (Z.max 0 (b - a) + 1 - 1) with (b - a) by lia.
  reflexivity.
Qed.

Lemma upFrom_all (f : Z -> bool) (lo count : Z) :
  forallb f (upFrom lo count) = true ->
  forall z, lo <= z < lo + count -> f z = true.
Proof.
  intros H z Hz. rewrite forallb_forall in H. apply H.
  unfold upFrom. apply in_map_iff. exists (Z.to_nat (z - lo)).
  split; [cbv beta; lia|]. apply in_seq. lia.
Qed.

Lemma fourDigits_year (y : Z) : 1000 <= y <= 9999 -> fourDigits y = true.
Proof.
  intros H. apply (upFrom_all fourDigits 1000 9000); [|lia].
  vm_compute. reflexivity.
Qed.

Lemma twoDigits_small (v : Z) : 1 <= v <= 31 -> twoDigits v = true.
Proof.
  intros H. apply (upFrom_all twoDigits 1 31); [|lia].
  vm_compute. reflexivity.
Qed.

(** A date printed with a four-digit year reads back as itself. *)
Lemma newDate_of_text (y m d : Z) :
  1000 <= y <= 9999 -> 0 <= m <= 11 -> 1 <= d <= DaysInMonth y m ->
  newDate (ofZ y ++ "-" ++ padStart2 (ofZ (m + 1)) ++ "-" ++ padStart2 (ofZ d))
  = Some (MakeDay y m d).
Proof.
  intros Hy Hm Hd.
  assert (Hd31 : 1 <= d <= 31).
  { unfold DaysInMonth in Hd.
    destruct (m =? 1); [destruct (InLeapYear y)|];
      [lia | lia | destruct ((m =? 3) || (m =? 5) || (m =? 8) || (m =? 10)); lia]. }
  pose proof (fourDigits_year y Hy) as Fy.
  pose proof (twoDigits_small (m + 1) ltac:(lia)) as Fm.
  pose proof (twoDigits_small d Hd31) as Fd.
  unfold fourDigits in Fy. unfold twoDigits in Fm, Fd.
  destruct (ofZ y) as [|y1 [|y2 [|y3 [|y4 [|? ?]]]]]; try discriminate Fy.
  destruct (padStart2 (ofZ (m + 1))) as [|m1 [|m2 [|? ?]]]; try discriminate Fm.
  destruct (padStart2 (ofZ d)) as [|d1 [|d2 [|? ?]]]; try discriminate Fd.
  do 4 (apply andb_prop in Fy; destruct Fy as [Fy ?]).
  do 2 (apply andb_prop in Fm; destruct Fm as [Fm ?]).
  do 2 (apply andb_prop in Fd; destruct Fd as [Fd ?]).
  repeat match goal with
         | H : (_ =? _) = true |- _ => apply Z.eqb_eq in H
         end.
  cbn [append]. unfold newDate.
  repeat match goal with
         | H : isDigit _ = true |- _ => rewrite H; clear H
         end.
  rewrite !Ascii.eqb_refl. cbn [andb].
  repeat match goal with
         | H : digits4 _ _ _ _ = _ |- _ => rewrite H; clear H
         | H : digits2 _ _ = _ |- _ => rewrite H; clear H
         end.
  replace (m + 1 - 1) with m by lia.
  replace (1 <=? m + 1) with true by (symmetry; apply Z.leb_le; lia).
  replace (m + 1 <=? 12) with true by (symmetry; apply Z.leb_le; lia).
  replace (1 <=? d) with true by (symmetry; apply Z.leb_le; lia).
  replace (d <=? DaysInMonth y m) with true by (symmetry; apply Z.leb_le; lia).
  reflexivity.
Qed.

Lemma YearFromDay_range (n : Z) :
  MakeDay 1000 0 1 <= n <= MakeDay 9999 11 31 -> 1000 <= YearFromDay n <= 9999.
Proof.
  intros Hn. pose proof (YearFromDay_bounds n) as Hy.
  change (MakeDay 1000 0 1) with (DayFromYear 1000) in Hn.
  assert (H9 : MakeDay 9999 11 31 < DayFromYear 10000) by (vm_compute; reflexivity).
  split.
  - destruct (Z_lt_le_dec (YearFromDay n) 1000) as [Hlt|]; [|assumption].
    pose proof (DayFromYear_mono (YearFromDay n + 1) 1000 ltac:(lia)). lia.
  - destruct (Z_lt_le_dec 9999 (YearFromDay n)) as [Hlt|]; [|assumption].
    pose proof (DayFromYear_mono 10000 (YearFromDay n) ltac:(lia)). lia.
Qed.

(** A day of the years 1000 to 9999 is printed as a YYYY-MM-DD text that
    reads back as the day. *)
Lemma newDate_formatISO (n : Z) :
  MakeDay 1000 0 1 <= n <= MakeDay 9999 11 31 ->
  newDate (formatISO (Some n)) = Some n.
Proof.
  intros Hn. destruct (civil_of_day n) as (Hm & Hd & Hmake).
  unfold formatISO, getFullYear, getMonth, getDate, showNumber, lift2, option_map.
  rewrite newDate_of_text; [rewrite Hmake; reflexivity | | exact Hm | exact Hd].
  apply YearFromDay_range, Hn.
Qed.

Lemma MakeDay_within_year (y m d : Z) :
  0 <= m <= 11 -> 1 <= d <= DaysInMonth y m ->
  DayFromYear y <= MakeDay y m d < DayFromYear (y + 1).
Proof.
  intros Hm Hd. rewrite MakeDay_in_year by exact Hm. rewrite DayFromYear_next.
  assert (Hcases : m = 0 \/ m = 1 \/ m = 2 \/ m = 3 \/ m = 4 \/ m = 5 \/ m = 6
                   \/ m = 7 \/ m = 8 \/ m = 9 \/ m = 10 \/ m = 11) by lia.
  unfold DaysInMonth, DaysBeforeMonth in *.
  repeat (destruct Hcases as [->|Hcases]); [..|subst m];
    destruct (InLeapYear y); cbn in Hd; cbn; lia.
Qed.

Lemma digitValue_digit (c : ascii) : isDigit c = true -> 0 <= digitValue c <= 9.
Proof.
  unfold isDigit, digitValue. intros H. apply andb_prop in H.
  destruct H as [H1 H2]. apply Nat.leb_le in H1, H2. lia.
Qed.

(** A date text denotes a day of the years 0 to 9999. *)
Lemma newDate_upper (s : string) (a : Z) :
  newDate s = Some a -> a <= MakeDay 9999 11 31.
Proof.
  unfold newDate.
  destruct s as [|y1 [|y2 [|y3 [|y4 [|h1 [|m1 [|m2 [|h2 [|d1 [|d2 [|? ?]]]]]]]]]]];
    try discriminate.
  destruct (isDigit y1 && isDigit y2 && isDigit y3 && isDigit y4
            && Ascii.eqb h1 "-" && isDigit m1 && isDigit m2
            && Ascii.eqb h2 "-" && isDigit d1 && isDigit d2) eqn:E;
    [|discriminate].
  do 9 (apply andb_prop in E; destruct E as [E ?]).
  destruct ((1 <=? digits2 m1 m2) && (digits2 m1 m2 <=? 12)
            && (1 <=? digits2 d1 d2)
            && (digits2 d1 d2 <=? DaysInMonth (digits4 y1 y2 y3 y4) (digits2 m1 m2 - 1)))
    eqn:V; [|discriminate].
  do 3 (apply andb_prop in V; destruct V as [V ?]).
  intros Ha. inversion Ha; subst a; clear Ha.
  repeat match goal with
         | H : (_ <=? _) = true |- _ => apply Z.leb_le in H
         end.
  pose proof (MakeDay_within_year (digits4 y1 y2 y3 y4) (digits2 m1 m2 - 1)
                (digits2 d1 d2) ltac:(lia) ltac:(lia)) as Hin.
  assert (Hyear : digits4 y1 y2 y3 y4 + 1 <= 10000).
  { unfold digits4.
    repeat match goal with
           | H : isDigit _ = true |- _ => apply digitValue_digit in H
           end.
    lia. }
  pose proof (DayFromYear_mono _ _ Hyear) as Hmono.
  assert (Hlast : MakeDay 9999 11 31 = DayFromYear 10000 - 1) by (vm_compute; reflexivity).
  lia.
Qed.

(** C4 (as amended). For a range of valid YYYY-MM-DD dates with
    [min <= max], [previousDateRange] computes the day before [min] as the
    end of the previous period and, as its start, the day that lies as far
    before that end as [max] lies after [min], and returns both printed
    with [formatISO].  When that start is in the year 1000 or later, the
    two texts are YYYY-MM-DD dates: the returned [max] is the day before
    [min] and the returned range counts as many days as the given one. *)
Theorem previousDateRange_same_length (r : DateRange) (a b : Z) :
  newDate (DateRange.min r) = Some a ->
  newDate (DateRange.max r) = Some b ->
  a <= b ->
  let p := previousDateRange r in
  p = DateRange.make (formatISO (Some (a - 1 - (b - a)))) (formatISO (Some (a - 1)))
  /\ (MakeDay 1000 0 1 <= a - 1 - (b - a) ->
      newDate (DateRange.max p) = Some (a - 1)
      /\ newDate (DateRange.min p) = Some (a - 1 - (b - a))
      /\ dayCount p = dayCount r).
Proof.
  intros Ha Hb Hab p.
  pose proof (newDate_upper _ _ Ha) as Hup.
  unfold p. rewrite (previousDateRange_days r a b Ha Hb Hab).
  split; [reflexivity|]. intros Hlow.
  unfold dayCount. simpl DateRange.min. simpl DateRange.max.
  rewrite !newDate_formatISO by lia. rewrite Ha, Hb.
  repeat split. f_equal. lia.
Qed.

Lemma previousDateRange_same_length_witness :
  previousDateRange marchRange = DateRange.make "2025-01-29" "2025-02-28"
  /\ dayCount (previousDateRange marchRange) = dayCount marchRange.
Proof.
  split; [vm_compute; reflexivity|].
  apply (previousDateRange_same_length marchRange 20148 20178);
    vm_compute; try reflexivity; discriminate.
Defined.

(** The claim as worded fails on the range of the preset [all]: the period
    before it starts in the year 800, which prints as 800-01-01; that text
    is not a YYYY-MM-DD date, the returned range has no day count, and no
    date at all lies inside it in the sense of [dateInRange]. *)
Lemma previousDateRange_all_counterexample :
  let r := dateRangeForPreset "2026-01-15" all in
  newDate (DateRange.min r) = Some (-25567)
  /\ newDate (DateRange.max r) = Some 376199
  /\ previousDateRange r = DateRange.make "800-01-01" "1899-12-31"
  /\ dayCount r = Some 401767
  /\ dayCount (previousDateRange r) = None
  /\ dayCount (previousDateRange r) <> dayCount r
  /\ (forall d, dateInRange d (DateRange.min (previousDateRange r))
                  (DateRange.max (previousDateRange r)) = false).
Proof.
  assert (Hprev : previousDateRange (dateRangeForPreset "2026-01-15" all)
                  = DateRange.make "800-01-01" "1899-12-31")
    by (vm_compute; reflexivity).
  cbv zeta. rewrite Hprev.
  repeat split; try (vm_compute; reflexivity).
  - vm_compute. discriminate.
  - intros d. unfold dateInRange. simpl DateRange.min. simpl DateRange.max.
    destruct d as [|c d]; [reflexivity|].
    destruct c as [[] [] [] [] [] [] [] []]; simpl;
      first [reflexivity | apply andb_false_r].
Qed.

End DateFacts.

(** ** Trimmed texts *)

Section TrimFacts.
Import JsString.

Lemma trimEnd_idem (s : string) : trimEnd (trimEnd s) = trimEnd s.
Proof.
  induction s as [|c s IH]; [reflexivity|].
  simpl. destruct (trimEnd s) as [|a r] eqn:E.
  - destruct (isWhiteSpace c) eqn:W; [reflexivity|].
    simpl. rewrite W. reflexivity.
  - change (trimEnd (String c (String a r))) with
      (match trimEnd (String a r) with
       | "" => if isWhiteSpace c then "" else String c ""
       | String x y => String c (String x y)
       end).
    rewrite IH. reflexivity.
Qed.

Lemma trimStart_noLeadingSpace (s : string) : noLeadingSpace (trimStart s) = true.
Proof.
  induction s as [|c s IH]; [reflexivity|].
  simpl. destruct (isWhiteSpace c) eqn:W; [exact IH|].
  simpl. rewrite W. reflexivity.
Qed.

Lemma trimStart_fixed (s : string) : noLeadingSpace s = true -> trimStart s = s.
Proof.
  destruct s as [|c s]; [reflexivity|].
  simpl. intros H. apply negb_true_iff in H. rewrite H. reflexivity.
Qed.

Lemma trimEnd_noLeadingSpace (s : string) :
  noLeadingSpace s = true -> noLeadingSpace (trimEnd s) = true.
Proof.
  destruct s as [|c s]; [reflexivity|].
  simpl. intros H. apply negb_true_iff in H.
  destruct (trimEnd s); [rewrite H|]; simpl; rewrite H; reflexivity.
Qed.

(** Trimming a trimmed text changes nothing. *)
Lemma trim_idem (s : string) : trim (trim s) = trim s.
Proof.
  unfold trim.
  rewrite (trimStart_fixed (trimEnd (trimStart s))).
  - apply trimEnd_idem.
  - apply trimEnd_noLeadingSpace, trimStart_noLeadingSpace.
Qed.

End TrimFacts.

(** ** The mutations, one by one *)

Section MutationFacts.
Import JsString.

Lemma withTransactions_same (s : AppState) :
  withTransactions s (AppState.transactions s) = s.
Proof. destruct s; reflexivity. Qed.

Lemma withRules_same (s : AppState) : withRules s (AppState.rules s) = s.
Proof. destruct s; reflexivity. Qed.


Lemma filter_keeps_all {A : Type} (p : A -> bool) (l : list A) :
  (forall x, In x l -> p x = true) -> filter p l = l.
Proof.
  induction l as [|x l IH]; intros H; simpl; [reflexivity|].
  rewrite (H x) by (left; reflexivity).
  rewrite IH; [reflexivity|]. intros y Hy. apply H. right. exact Hy.
Qed.

Lemma filter_twice {A : Type} (p : A -> bool) (l : list A) :
  filter p (filter p l) = filter p l.
Proof.
  apply filter_keeps_all. intros x Hx. apply filter_In in Hx. tauto.
Qed.

(** The parts of the state that [importFromText] leaves alone. *)
Lemma importFromText_rest (uid : nat -> string) (state : AppState)
    (dialog : ImportDialog.t) :
  let next := fst (importFromText uid state dialog) in
  AppState.categories next = AppState.categories state
  /\ AppState.accounts next = AppState.accounts state
  /\ AppState.rules next = AppState.rules state
  /\ AppState.settings next = AppState.settings state.
Proof.
  destruct (importFromText_transactions uid state dialog)
    as [H | (header & dataRows & created & _ & _ & _ & H)];
    rewrite H; simpl; auto.
Qed.

(** [addTransaction] refuses a blank merchant and an amount that parses to
    zero, leaving the state as it is; otherwise it puts exactly one
    transaction in front of the list, with the identifier given, the
    trimmed merchant, the absolute value of the parsed amount, which is
    positive, the income category for an income and the category of the
    form for an expense, and a note that is never the empty text.  The
    categories, accounts, rules and settings are never touched. *)
Theorem addTransaction_effect (id : string) (form : TxForm.t) (prev : AppState) :
  let amountCents := Z.abs (parseMoneyToCents (TxForm.txAmount form)) in
  let next := addTransaction id form prev in
  (trim (TxForm.txMerchant form) = "" \/ amountCents = 0 -> next = prev)
  /\ (trim (TxForm.txMerchant form) <> "" -> amountCents <> 0 ->
      exists t,
        AppState.transactions next = t :: AppState.transactions prev
        /\ Transaction.id t = id
        /\ Transaction.date t = TxForm.txDate form
        /\ Transaction.merchant t = trim (TxForm.txMerchant form)
        /\ Transaction.amountCents t = amountCents
        /\ 0 < Transaction.amountCents t
        /\ Transaction.type t = TxForm.txType form
        /\ (Transaction.type t = income -> Transaction.categoryId t = "cat_income")
        /\ (Transaction.type t = expense ->
            Transaction.categoryId t = TxForm.txCategoryId form)
        /\ Transaction.accountId t = TxForm.txAccountId form
        /\ Transaction.note t <> Some "")
  /\ AppState.categories next = AppState.categories prev
  /\ AppState.accounts next = AppState.accounts prev
  /\ AppState.rules next = AppState.rules prev
  /\ AppState.settings next = AppState.settings prev.
Proof.
  intros amountCents next. unfold next, addTransaction. fold amountCents.
  destruct (trim (TxForm.txMerchant form) =? "")%string eqn:Em.
  { apply String.eqb_eq in Em. repeat split; auto.
    intros Hm. contradiction. }
  apply String.eqb_neq in Em.
  destruct (amountCents <=? 0) eqn:Ea.
  { apply Z.leb_le in Ea. repeat split; auto.
    intros _ Hz. exfalso. unfold amountCents in *. lia. }
  apply Z.leb_gt in Ea.
  split; [|split; [|simpl; auto]].
  - intros [Hm | Hz]; [contradiction | lia].
  - intros _ _. eexists. split; [reflexivity|]. simpl.
    repeat split; auto.
    + intros ->. reflexivity.
    + intros ->. reflexivity.
    + unfold orUndefined.
      destruct (trim (TxForm.txNote form) =? "")%string eqn:En; [discriminate|].
      apply String.eqb_neq in En. congruence.
Qed.

Lemma addTransaction_effect_witness :
  addTransaction "tx_1"
    (TxForm.make "2026-01-15" "   " "12.50" expense "cat_eat" "acc_cc" "")
    (defaultState "2026-01-15")
  = defaultState "2026-01-15"
  /\ exists t,
       AppState.transactions
         (addTransaction "tx_1"
            (TxForm.make "2026-01-15" " Ramen " "-12.50" expense "cat_eat" "acc_cc" " ")
            (defaultState "2026-01-15"))
       = t :: AppState.transactions (defaultState "2026-01-15")
       /\ Transaction.merchant t = "Ramen"
       /\ Transaction.amountCents t = 1250
       /\ Transaction.note t <> Some "".
Proof.
  split.
  - apply (addTransaction_effect "tx_1"
             (TxForm.make "2026-01-15" "   " "12.50" expense "cat_eat" "acc_cc" "")
             (defaultState "2026-01-15")).
    left. vm_compute. reflexivity.
  - destruct (addTransaction_effect "tx_1"
                (TxForm.make "2026-01-15" " Ramen " "-12.50" expense "cat_eat" "acc_cc" " ")
                (defaultState "2026-01-15")) as (_ & H & _).
    destruct H as (t & Ht & _ & _ & Hm & Ha & _ & _ & _ & _ & _ & Hn).
    + vm_compute. discriminate.
    + vm_compute. discriminate.
    + exists t. split; [exact Ht|]. split; [exact Hm|]. split; [|exact Hn].
      rewrite Ha. vm_compute. reflexivity.
Defined.

(** [deleteTransaction] removes every transaction with the identifier and
    keeps the others in their order; it changes nothing when no transaction
    has the identifier, doing it twice is doing it once, and it undoes an
    [addTransaction] made with a fresh identifier. *)
Theorem deleteTransaction_effect (id : string) (prev : AppState) :
  let next := deleteTransaction id prev in
  AppState.transactions next
  = filter (fun t => negb (Transaction.id t =? id)%string) (AppState.transactions prev)
  /\ (forall t, In t (AppState.transactions next)
                <-> In t (AppState.transactions prev) /\ Transaction.id t <> id)
  /\ deleteTransaction id next = next
  /\ (~ In id (map Transaction.id (AppState.transactions prev)) ->
      next = prev
      /\ forall form, deleteTransaction id (addTransaction id form prev) = prev).
Proof.
  intros next. unfold next, deleteTransaction. simpl.
  split; [reflexivity|]. split; [|split].
  - intros t. rewrite filter_In, negb_true_iff, String.eqb_neq. tauto.
  - unfold withTransactions. simpl. rewrite filter_twice. reflexivity.
  - intros Hfresh.
    assert (Hkeep : filter (fun t => negb (Transaction.id t =? id)%string)
                      (AppState.transactions prev)
                    = AppState.transactions prev).
    { apply filter_keeps_all. intros t Ht.
      apply negb_true_iff, String.eqb_neq. intros E. apply Hfresh.
      rewrite <- E. apply in_map. exact Ht. }
    split.
    + rewrite Hkeep. apply withTransactions_same.
    + intros form. unfold addTransaction.
      destruct (trim (TxForm.txMerchant form) =? "")%string;
        [rewrite Hkeep; apply withTransactions_same|].
      destruct (Z.abs (parseMoneyToCents (TxForm.txAmount form)) <=? 0);
        [rewrite Hkeep; apply withTransactions_same|].
      simpl. rewrite String.eqb_refl. simpl. rewrite Hkeep.
      destruct prev; reflexivity.
Qed.

Lemma deleteTransaction_effect_witness :
  deleteTransaction "tx_new" (defaultState "2026-01-15") = defaultState "2026-01-15"
  /\ deleteTransaction "tx_new"
       (addTransaction "tx_new" sampleForm (defaultState "2026-01-15"))
     = defaultState "2026-01-15".
Proof.
  destruct (deleteTransaction_effect "tx_new" (defaultState "2026-01-15"))
    as (_ & _ & _ & H).
  assert (Hfresh : ~ In "tx_new"
                     (map Transaction.id
                        (AppState.transactions (defaultState "2026-01-15")))).
  { vm_compute. intros F.
    repeat (destruct F as [F|F]; [discriminate F|]). exact F. }
  destruct (H Hfresh) as [H1 H2]. split; [exact H1 | apply H2].
Defined.



(** [addRule] refuses a text that is blank once trimmed; otherwise it puts
    the trimmed text in front of the rules, so that the new rule decides
    for every merchant whose lower-cased name holds the lower-cased trimmed
    text, whatever the older rules say, and the older rules decide as
    before for every other merchant. *)
Theorem addRule_takes_precedence (id contains categoryId : string)
    (prev : AppState) :
  let next := addRule id contains categoryId prev in
  (trim contains = "" -> next = prev)
  /\ (trim contains <> "" ->
      AppState.rules next
      = Rule.make id (trim contains) categoryId :: AppState.rules prev
      /\ forall merchant fallback,
           applySmartCategory merchant (AppState.rules next) fallback
           = if includes (safeLower merchant) (safeLower (trim contains))
             then categoryId
             else applySmartCategory merchant (AppState.rules prev) fallback).
Proof.
  intros next. unfold next, addRule.
  destruct (trim contains =? "")%string eqn:E.
  - apply String.eqb_eq in E. split; [reflexivity | intros H; contradiction].
  - apply String.eqb_neq in E. split; [intros H; contradiction|].
    intros _. simpl. split; [reflexivity|].
    intros merchant fallback. unfold applySmartCategory. simpl.
    rewrite trim_idem.
    destruct (trim contains =? "")%string eqn:E'.
    + apply String.eqb_eq in E'. contradiction.
    + reflexivity.
Qed.

Lemma addRule_takes_precedence_witness :
  addRule "rule_new" "   " "cat_eat" (defaultState "2026-01-15")
  = defaultState "2026-01-15"
  /\ applySmartCategory "UBER EATS Toronto" (AppState.rules sampleRuleState)
       "cat_other"
     = "cat_eat"
  /\ applySmartCategory "Uber" (AppState.rules sampleRuleState) "cat_other"
     = "cat_trans".
Proof.
  destruct (addRule_takes_precedence "rule_new" "   " "cat_eat"
              (defaultState "2026-01-15")) as [Hblank _].
  destruct (addRule_takes_precedence "rule_new" "  Uber Eats " "cat_eat"
              (defaultState "2026-01-15")) as [_ Hadd].
  split; [apply Hblank; vm_compute; reflexivity|].
  destruct Hadd as [_ Hrule]; [vm_compute; discriminate|].
  split.
  - unfold sampleRuleState. rewrite Hrule. vm_compute. reflexivity.
  - unfold sampleRuleState. rewrite Hrule. vm_compute. reflexivity.
Defined.

(** [deleteRule] removes the rules with the identifier and keeps the
    others in their order; it changes nothing when no rule has the
    identifier, and it undoes an [addRule] made with a fresh identifier,
    so that the classifier decides again as before. *)
Theorem deleteRule_effect (id : string) (prev : AppState) :
  let next := deleteRule id prev in
  AppState.rules next
  = filter (fun r => negb (Rule.id r =? id)%string) (AppState.rules prev)
  /\ (forall r, In r (AppState.rules next)
                <-> In r (AppState.rules prev) /\ Rule.id r <> id)
  /\ AppState.transactions next = AppState.transactions prev
  /\ (~ In id (map Rule.id (AppState.rules prev)) ->
      next = prev
      /\ forall contains categoryId,
           deleteRule id (addRule id contains categoryId prev) = prev).
Proof.
  intros next. unfold next, deleteRule. simpl.
  split; [reflexivity|]. split; [|split; [reflexivity|]].
  - intros r. rewrite filter_In, negb_true_iff, String.eqb_neq. tauto.
  - intros Hfresh.
    assert (Hkeep : filter (fun r => negb (Rule.id r =? id)%string)
                      (AppState.rules prev)
                    = AppState.rules prev).
    { apply filter_keeps_all. intros r Hr.
      apply negb_true_iff, String.eqb_neq. intros E. apply Hfresh.
      rewrite <- E. apply in_map. exact Hr. }
    split.
    + rewrite Hkeep. apply withRules_same.
    + intros contains categoryId. unfold addRule.
      destruct (trim contains =? "")%string;
        [rewrite Hkeep; apply withRules_same|].
      simpl. rewrite String.eqb_refl. simpl. rewrite Hkeep.
      destruct prev; reflexivity.
Qed.

Lemma deleteRule_effect_witness :
  deleteRule "rule_new" sampleRuleState = defaultState "2026-01-15"
  /\ deleteRule "r9" (defaultState "2026-01-15") = defaultState "2026-01-15".
Proof.
  assert (Hfresh : forall id, (id = "rule_new" \/ id = "r9") ->
                     ~ In id (map Rule.id (AppState.rules (defaultState "2026-01-15")))).
  { intros id [-> | ->]; vm_compute; intros F;
      repeat (destruct F as [F|F]; [discriminate F|]); exact F. }
  split.
  - apply (deleteRule_effect "rule_new" (defaultState "2026-01-15")).
    apply Hfresh. left. reflexivity.
  - apply (deleteRule_effect "r9" (defaultState "2026-01-15")).
    apply Hfresh. right. reflexivity.
Defined.

End MutationFacts.

(** ** What every reachable state keeps *)

Section ReachableFacts.
Import JsString.

Lemma amountsPositive_default (today : string) : amountsPositive (defaultState today).
Proof.
  unfold amountsPositive, defaultState. simpl.
  repeat constructor.
Qed.

Lemma step_keeps_amountsPositive (today : string) (s s' : AppState) :
  step today s s' -> amountsPositive s -> amountsPositive s'.
Proof.
  intros Hstep Hinv. destruct Hstep; try exact Hinv.
  - apply amountsPositive_default.
  - unfold addTransaction.
    destruct (trim (TxForm.txMerchant form) =? "")%string; [exact Hinv|].
    destruct (Z.abs (parseMoneyToCents (TxForm.txAmount form)) <=? 0) eqn:E;
      [exact Hinv|].
    apply Z.leb_gt in E.
    unfold amountsPositive. simpl. constructor; [exact E | exact Hinv].
  - unfold amountsPositive, deleteTransaction. simpl.
    apply Forall_forall. intros t Ht. apply filter_In in Ht.
    destruct Ht as [Ht _]. unfold amountsPositive in Hinv.
    eapply Forall_forall in Hinv; eassumption.
  - unfold addRule. destruct (trim contains =? "")%string; exact Hinv.
  - unfold amountsPositive. apply Forall_forall. intros t Ht.
    apply importFromText_In in Ht.
    destruct Ht as [Ht | (header & dataRows & r & id & _ & _ & Hrow)].
    + unfold amountsPositive in Hinv. eapply Forall_forall in Hinv; eassumption.
    + apply importRow_Some in Hrow. tauto.
Qed.

(** In every state reachable from the default dataset, every transaction
    has a strictly positive amount: the sign of a movement is carried by
    its type alone, and the totals are sums of positive amounts. *)
Theorem reachable_amounts_positive (today : string) (s : AppState) :
  reachable today s ->
  amountsPositive s
  /\ 0 <= Totals.income (totals (AppState.transactions s))
  /\ 0 <= Totals.expense (totals (AppState.transactions s)).
Proof.
  intros Hreach.
  assert (Hpos : amountsPositive s).
  { induction Hreach as [|s s' Hreach IH Hstep].
    - apply amountsPositive_default.
    - eapply step_keeps_amountsPositive; eassumption. }
  split; [exact Hpos|].
  unfold totals. rewrite addToTotals_fold. simpl.
  unfold amountsPositive in Hpos. clear Hreach.
  induction Hpos as [|t l Ht Hl IH]; simpl; [lia|].
  destruct (Transaction.type t); simpl; lia.
Qed.

Lemma reachable_amounts_positive_witness :
  amountsPositive
    (fst (importFromText sampleUid (defaultState "2026-01-15")
            (ImportDialog.make importRefund true)))
  /\ 0 <= Totals.income
            (totals (AppState.transactions
                       (fst (importFromText sampleUid (defaultState "2026-01-15")
                               (ImportDialog.make importRefund true)))))
  /\ 0 <= Totals.expense
            (totals (AppState.transactions
                       (fst (importFromText sampleUid (defaultState "2026-01-15")
                               (ImportDialog.make importRefund true))))).
Proof.
  apply (reachable_amounts_positive "2026-01-15").
  eapply reachable_step; [apply reachable_default | apply step_importFromText].
Defined.

(** No action of the component adds, removes, renames or reorders a
    category or an account: in every reachable state the categories are
    those of the default dataset up to their budgets, and the accounts are
    those of the default dataset. *)
Theorem reachable_keeps_catalogue (today : string) (s : AppState) :
  reachable today s ->
  map categoryIdentity (AppState.categories s)
  = map categoryIdentity (AppState.categories (defaultState today))
  /\ AppState.accounts s = AppState.accounts (defaultState today).
Proof.
  induction 1 as [|s s' Hreach IH Hstep]; [split; reflexivity|].
  destruct Hstep; try exact IH.
  - split; reflexivity.
  - unfold addTransaction.
    destruct (trim (TxForm.txMerchant form) =? "")%string; [exact IH|].
    destruct (Z.abs (parseMoneyToCents (TxForm.txAmount form)) <=? 0); exact IH.
  - destruct IH as [IHc IHa]. split; [|exact IHa].
    rewrite <- IHc. unfold upsertCategoryBudget. simpl.
    rewrite map_map. apply map_ext. intros c.
    destruct (Category.id c =? categoryId)%string; reflexivity.
  - unfold addRule. destruct (trim contains =? "")%string; exact IH.
  - destruct (importFromText_rest uid s dialog) as (Hc & Ha & _).
    rewrite Hc, Ha. exact IH.
Qed.

Lemma reachable_keeps_catalogue_witness :
  map Category.name
    (AppState.categories
       (upsertCategoryBudget "cat_rent" 0 (defaultState "2026-01-15")))
  = [ "Groceries"; "Rent"; "Eating Out"; "Transport"; "Subscriptions";
      "Health"; "Other"; "Income" ]
  /\ AppState.accounts (upsertCategoryBudget "cat_rent" 0 (defaultState "2026-01-15"))
     = AppState.accounts (defaultState "2026-01-15").
Proof.
  destruct (reachable_keeps_catalogue "2026-01-15"
              (upsertCategoryBudget "cat_rent" 0 (defaultState "2026-01-15")))
    as [Hc Ha].
  - eapply reachable_step; [apply reachable_default | apply step_upsertCategoryBudget].
  - split; [|exact Ha].
    apply (f_equal (map (fun x => snd (fst x)))) in Hc.
    rewrite !map_map in Hc. exact Hc.
Defined.

Lemma ruleStored_default (today : string) :
  Forall ruleStored (AppState.rules (defaultState today)).
Proof.
  unfold defaultState. simpl.
  repeat constructor; simpl; discriminate.
Qed.

(** In every reachable state the text of every rule is trimmed and not
    empty, as [addRule] stores it: the classifier skips no rule there, and
    the text it searches is the trimmed text. *)
Theorem reachable_rules_stored (today : string) (s : AppState) :
  reachable today s ->
  Forall ruleStored (AppState.rules s)
  /\ (forall merchant r,
         In r (AppState.rules s) ->
         ruleMatches merchant r
         = includes (safeLower merchant) (safeLower (trim (Rule.contains r)))).
Proof.
  intros Hreach.
  assert (Hst : Forall ruleStored (AppState.rules s)).
  { induction Hreach as [|s s' Hreach IH Hstep]; [apply ruleStored_default|].
    destruct Hstep; try exact IH.
    - apply ruleStored_default.
    - unfold addTransaction.
      destruct (trim (TxForm.txMerchant form) =? "")%string; [exact IH|].
      destruct (Z.abs (parseMoneyToCents (TxForm.txAmount form)) <=? 0); exact IH.
    - unfold addRule. destruct (trim contains =? "")%string eqn:E; [exact IH|].
      simpl. constructor; [|exact IH].
      apply String.eqb_neq in E. split; simpl; [apply trim_idem | exact E].
    - unfold deleteRule. simpl. apply Forall_forall. intros r Hr.
      apply filter_In in Hr. destruct Hr as [Hr _].
      eapply Forall_forall in IH; eassumption.
    - destruct (importFromText_rest uid s dialog) as (_ & _ & Hr & _).
      rewrite Hr. exact IH. }
  split; [exact Hst|].
  intros merchant r Hr. eapply Forall_forall in Hst; [|exact Hr].
  destruct Hst as [Ht Hne]. unfold ruleMatches. rewrite Ht.
  destruct (Rule.contains r =? "")%string eqn:E; [|reflexivity].
  apply String.eqb_eq in E. contradiction.
Qed.

Lemma reachable_rules_stored_witness :
  Forall ruleStored (AppState.rules sampleRuleState)
  /\ map Rule.contains (AppState.rules sampleRuleState)
     = ["Uber Eats"; "uber"; "loblaws"; "spotify"].
Proof.
  split; [|vm_compute; reflexivity].
  apply (reachable_rules_stored "2026-01-15").
  eapply reachable_step; [apply reachable_default | apply step_addRule].
Defined.

End ReachableFacts.

(** ** Maps, sums and sorted views *)

Section MapFacts2.
Context {V : Type}.

Lemma set_NoDup (k : string) (v : V) (m : JsMap.Map V) :
  NoDup (JsMap.keys m) -> NoDup (JsMap.keys (JsMap.set k v m)).
Proof.
  intros Hnd. rewrite keys_set.
  destruct (existsb (String.eqb k) (JsMap.keys m)) eqn:E; [exact Hnd|].
  apply NoDup_app; [exact Hnd | repeat constructor; simpl; tauto |].
  intros x Hx [Hk | []]. subst x.
  assert (Hex : existsb (String.eqb k) (JsMap.keys m) = true).
  { apply existsb_exists. exists k. split; [exact Hx | apply String.eqb_refl]. }
  congruence.
Qed.

Lemma keys_set_In (k key : string) (v : V) (m : JsMap.Map V) :
  In k (JsMap.keys (JsMap.set key v m)) <-> k = key \/ In k (JsMap.keys m).
Proof.
  rewrite keys_set.
  destruct (existsb (String.eqb key) (JsMap.keys m)) eqn:E.
  - apply existsb_exists in E. destruct E as (x & Hx & E).
    apply String.eqb_eq in E. subst x. split; [tauto|].
    intros [-> | H]; assumption.
  - rewrite in_app_iff. simpl. split; [intros [H | [H | []]]; auto | ].
    intros [-> | H]; auto.
Qed.

Lemma In_get (k : string) (v : V) (m : JsMap.Map V) :
  NoDup (JsMap.keys m) -> In (k, v) m -> JsMap.get k m = Some v.
Proof.
  unfold JsMap.keys.
  induction m as [|[k0 v0] m IH]; simpl; intros Hnd; [tauto|].
  inversion Hnd as [|? ? Hk0 Hnd']; subst.
  intros [H | H].
  - inversion H. subst. rewrite String.eqb_refl. reflexivity.
  - destruct (k0 =? k)%string eqn:E.
    + apply String.eqb_eq in E. subst k0. exfalso. apply Hk0.
      apply in_map_iff. exists (k, v). auto.
    + apply IH; assumption.
Qed.

Lemma keys_get (k : string) (m : JsMap.Map V) :
  In k (JsMap.keys m) -> exists v, JsMap.get k m = Some v.
Proof.
  intros H. destruct (JsMap.get k m) as [v|] eqn:E; [exists v; reflexivity|].
  apply get_None_keys in E. contradiction.
Qed.

End MapFacts2.

Section SumFacts.

Lemma sumOver_app {A : Type} (f : A -> Z) (l1 l2 : list A) :
  sumOver f (l1 ++ l2) = sumOver f l1 + sumOver f l2.
Proof. induction l1 as [|x l1 IH]; simpl; [reflexivity | rewrite IH; lia]. Qed.

Lemma sumOver_perm {A : Type} (f : A -> Z) (l1 l2 : list A) :
  Permutation l1 l2 -> sumOver f l1 = sumOver f l2.
Proof. induction 1; simpl; lia. Qed.

Lemma sumOver_map {A B : Type} (g : A -> B) (f : B -> Z) (l : list A) :
  sumOver f (map g l) = sumOver (fun x => f (g x)) l.
Proof. induction l as [|x l IH]; simpl; [reflexivity | rewrite IH; reflexivity]. Qed.

Lemma sumOver_ext {A : Type} (f g : A -> Z) (l : list A) :
  (forall x, In x l -> f x = g x) -> sumOver f l = sumOver g l.
Proof.
  induction l as [|x l IH]; intros H; simpl; [reflexivity|].
  rewrite (H x) by (left; reflexivity).
  rewrite IH; [reflexivity|]. intros y Hy. apply H. right. exact Hy.
Qed.

Lemma fold_left_sum {A : Type} (f : A -> Z) (l : list A) (a : Z) :
  fold_left (fun s x => s + f x) l a = a + sumOver f l.
Proof.
  revert a. induction l as [|x l IH]; intros a; simpl; [lia|].
  rewrite IH. lia.
Qed.

Lemma sumOfType_sumOver (ty : TxType) (l : list Transaction) :
  sumOfType ty l
  = sumOver Transaction.amountCents
      (filter (fun t => TxType_eqb (Transaction.type t) ty) l).
Proof.
  induction l as [|t l IH]; simpl; [reflexivity|].
  destruct (TxType_eqb (Transaction.type t) ty); simpl; rewrite IH; lia.
Qed.

Lemma sumOfType_perm (ty : TxType) (l1 l2 : list Transaction) :
  Permutation l1 l2 -> sumOfType ty l1 = sumOfType ty l2.
Proof. induction 1; simpl; lia. Qed.

Lemma sumValues_set (k : string) (v : Z) (m : JsMap.Map Z) :
  sumOver snd (JsMap.set k v m) = sumOver snd m + v - orZero (JsMap.get k m).
Proof.
  induction m as [|[k0 v0] m IH]; simpl; [lia|].
  destruct (k0 =? k)%string; simpl; [lia | rewrite IH; lia].
Qed.

Lemma firstn_sorted {A : Type} (R : A -> A -> Prop) (n : nat) (l : list A) :
  StronglySorted R l -> StronglySorted R (firstn n l).
Proof.
  intros Hs. revert n. induction Hs as [|x l Hs IH Hx]; intros n.
  - rewrite firstn_nil. constructor.
  - destruct n as [|n]; simpl; [constructor|].
    constructor; [apply IH|].
    apply Forall_forall. intros y Hy.
    eapply Forall_forall in Hx; [exact Hx|].
    rewrite <- (firstn_skipn n l). apply in_or_app. left. exact Hy.
Qed.

Lemma firstn_In {A : Type} (n : nat) (l : list A) (x : A) :
  In x (firstn n l) -> In x l.
Proof.
  intros H. rewrite <- (firstn_skipn n l). apply in_or_app. left. exact H.
Qed.

End SumFacts.

(** ** The category spend map and the views built on it *)

Section SpendFacts.
Import JsString.

(** The map of [groupExpenseByCategory]: which keys it has. *)
Lemma groupExpense_keys (l : list Transaction) (m : JsMap.Map Z) :
  NoDup (JsMap.keys m) ->
  NoDup (JsMap.keys (fold_left addToCategory l m))
  /\ (forall k, In k (JsMap.keys (fold_left addToCategory l m))
                <-> In k (JsMap.keys m) \/ spendingCategory l k)
  /\ sumOver snd (fold_left addToCategory l m)
     = sumOver snd m + sumOfType expense l.
Proof.
  revert m. induction l as [|t l IH]; intros m Hnd; simpl.
  - split; [exact Hnd|]. split; [|lia].
    intros k. split; [auto|]. intros [H | (t & [] & _)]. exact H.
  - assert (Hnd' : NoDup (JsMap.keys (addToCategory m t))).
    { unfold addToCategory. destruct (Transaction.type t); [|exact Hnd].
      apply set_NoDup, Hnd. }
    destruct (IH _ Hnd') as (H1 & H2 & H3).
    split; [exact H1|]. split.
    + intros k. rewrite H2. unfold addToCategory, spendingCategory.
      destruct (Transaction.type t) eqn:Ety.
      * rewrite keys_set_In. split.
        -- intros [[-> | H] | (t' & Ht' & Hty & Hc)]; auto.
           ++ right. exists t. simpl. auto.
           ++ right. exists t'. simpl. auto.
        -- intros [H | (t' & [<- | Ht'] & Hty & Hc)]; auto.
           right. exists t'. auto.
      * split.
        -- intros [H | (t' & Ht' & Hty & Hc)]; auto.
           right. exists t'. simpl. auto.
        -- intros [H | (t' & [<- | Ht'] & Hty & Hc)]; auto; [congruence|].
           right. exists t'. auto.
    + rewrite H3. unfold addToCategory.
      destruct (Transaction.type t); simpl; [|lia].
      rewrite sumValues_set. lia.
Qed.

(** The category spend map holds one entry for every category with an
    expense, the entry being the sum of the expenses of the category, and
    its entries add up to the expense total of [totals]: the slices of the
    breakdown are the parts of the spending figure. *)
Theorem groupExpenseByCategory_partition (l : list Transaction) :
  let spentByCat := groupExpenseByCategory l in
  NoDup (JsMap.keys spentByCat)
  /\ (forall k, In k (JsMap.keys spentByCat) <-> spendingCategory l k)
  /\ (forall k v, In (k, v) spentByCat -> v = expenseIn k l)
  /\ (forall k, ~ spendingCategory l k -> JsMap.get k spentByCat = None)
  /\ sumOver snd spentByCat = Totals.expense (totals l).
Proof.
  intros spentByCat. unfold spentByCat, groupExpenseByCategory.
  destruct (groupExpense_keys l [] (NoDup_nil _)) as (H1 & H2 & H3).
  split; [exact H1|]. split; [|split; [|split]].
  - intros k. rewrite H2. simpl. tauto.
  - intros k v Hin. apply In_get in Hin; [|exact H1].
    pose proof (spent_is_sum k l) as Hs. unfold groupExpenseByCategory in Hs.
    rewrite Hin in Hs. simpl in Hs. exact Hs.
  - intros k Hk. apply get_None_keys. rewrite H2. simpl. tauto.
  - rewrite H3. unfold totals. rewrite addToTotals_fold. simpl. lia.
Qed.

Lemma groupExpenseByCategory_partition_witness :
  JsMap.get "cat_income" (groupExpenseByCategory cashflowSample) = None
  /\ sumOver snd (groupExpenseByCategory cashflowSample) = 193.
Proof.
  destruct (groupExpenseByCategory_partition cashflowSample)
    as (_ & _ & _ & Hnone & Hsum).
  split; [|rewrite Hsum; vm_compute; reflexivity].
  apply Hnone. intros (t & Hin & Hty & Hc). simpl in Hin.
  repeat (destruct Hin as [<- | Hin]; [discriminate|]). exact Hin.
Defined.

Lemma sorted_split {A : Type} (R : A -> A -> Prop) (n : nat) (l : list A) :
  StronglySorted R l ->
  forall x y, In x (firstn n l) -> In y (skipn n l) -> R x y.
Proof.
  intros Hs. revert n. induction Hs as [|a l Hs IH Ha]; intros n x y Hx Hy.
  - rewrite firstn_nil in Hx. destruct Hx.
  - destruct n as [|n]; simpl in Hx, Hy; [destruct Hx|].
    destruct Hx as [<- | Hx].
    + eapply Forall_forall in Ha; [exact Ha|].
      rewrite <- (firstn_skipn n l). apply in_or_app. right. exact Hy.
    + eapply IH; eassumption.
Qed.

Lemma NoDup_firstn {A : Type} (n : nat) (l : list A) :
  NoDup l -> NoDup (firstn n l).
Proof.
  intros H. rewrite <- (firstn_skipn n l) in H.
  apply NoDup_app_remove_r in H. exact H.
Qed.

Lemma addToTop_fold (min max : string) (l : list Transaction) (m : JsMap.Map Z) :
  fold_left (addToTop min max) l m = fold_left addToCategory (inDates min max l) m.
Proof.
  revert m. unfold inDates. induction l as [|t l IH]; intros m; simpl; [reflexivity|].
  rewrite IH.
  assert (Hstep : addToTop min max m t
                  = if dateInRange (Transaction.date t) min max
                    then addToCategory m t else m).
  { unfold addToTop, addToCategory.
    destruct (Transaction.type t);
      destruct (dateInRange (Transaction.date t) min max); reflexivity. }
  rewrite Hstep.
  destruct (dateInRange (Transaction.date t) min max); reflexivity.
Qed.

(** [topExpenseCategory] answers [null] exactly when no expense is dated
    inside the range; otherwise it names a category that has such an
    expense, with the sum of its expenses inside the range, and no
    category spent more there. *)
Theorem topExpenseCategory_max (state : AppState) (min max : string) :
  let inRange := inDates min max (AppState.transactions state) in
  match topExpenseCategory state min max with
  | None => forall k, ~ spendingCategory inRange k
  | Some top =>
      spendingCategory inRange (TopCategory.id top)
      /\ TopCategory.spentCents top = expenseIn (TopCategory.id top) inRange
      /\ TopCategory.name top
         = categoryLabel (AppState.categories state) (TopCategory.id top)
      /\ (forall k, spendingCategory inRange k ->
                    expenseIn k inRange <= TopCategory.spentCents top)
  end.
Proof.
  intros inRange. unfold topExpenseCategory. rewrite addToTop_fold.
  fold inRange. fold (groupExpenseByCategory inRange).
  destruct (groupExpenseByCategory_partition inRange) as (Hnd & Hkeys & Hval & _ & _).
  set (m := groupExpenseByCategory inRange) in *.
  pose proof (sort_perm byEntryDescending m) as Hperm.
  assert (Hsorted : StronglySorted (fun a b : string * Z => snd b <= snd a)
                      (JsArray.sort byEntryDescending m)).
  { apply sort_sorted.
    - intros x y z Hxy Hyz. lia.
    - unfold byEntryDescending. intros x y H. lia.
    - unfold byEntryDescending. intros l1 x l2 y _ _ H. lia. }
  destruct (JsArray.sort byEntryDescending m) as [|[k0 v0] rest] eqn:Es.
  - intros k Hk. apply Hkeys in Hk.
    apply Permutation_nil in Hperm.
    rewrite Hperm in Hk. destruct Hk.
  - assert (Hin0 : In (k0, v0) m).
    { apply (Permutation_in _ Hperm). left. reflexivity. }
    simpl. split; [|split; [|split; [reflexivity|]]].
    + apply Hkeys. unfold JsMap.keys. apply in_map_iff. exists (k0, v0). auto.
    + apply Hval. exact Hin0.
    + intros k Hk. apply Hkeys in Hk. apply keys_get in Hk.
      destruct Hk as (v & Hv). apply get_Some_In in Hv.
      rewrite <- (Hval k v Hv).
      apply (Permutation_in _ (Permutation_sym Hperm)) in Hv.
      destruct Hv as [Hv | Hv]; [inversion Hv; lia|].
      inversion Hsorted as [|? ? _ Hhead]; subst.
      eapply Forall_forall in Hhead; [|exact Hv]. exact Hhead.
Qed.

(** The pie of [categoryPie] has at most eight rows, largest first, for
    distinct categories that have an expense in the filtered list; a row
    carries the label of its category and the sum of its expenses; a
    category with an expense that is left out spent no more than any
    category shown; and when at most eight categories have an expense, the
    rows add up to the expense total. *)
Theorem categoryPie_rows (state : AppState) (filtered : list Transaction) :
  let pie := categoryPie state filtered in
  (List.length pie <= 8)%nat
  /\ StronglySorted (fun a b => PieRow.value b <= PieRow.value a) pie
  /\ NoDup (map PieRow.categoryId pie)
  /\ (forall r, In r pie ->
                spendingCategory filtered (PieRow.categoryId r)
                /\ PieRow.value r = expenseIn (PieRow.categoryId r) filtered
                /\ PieRow.name r
                   = categoryLabel (AppState.categories state) (PieRow.categoryId r))
  /\ (forall k, spendingCategory filtered k ->
                In k (map PieRow.categoryId pie)
                \/ forall r, In r pie -> expenseIn k filtered <= PieRow.value r)
  /\ ((List.length (JsMap.keys (groupExpenseByCategory filtered)) <= 8)%nat ->
      sumOver PieRow.value pie = Totals.expense (totals filtered)).
Proof.
  intros pie. unfold pie, categoryPie.
  destruct (groupExpenseByCategory_partition filtered)
    as (Hnd & Hkeys & Hval & _ & Hsum).
  set (m := groupExpenseByCategory filtered) in *.
  set (mk := fun kv : string * Z =>
               PieRow.make (fst kv)
                 (categoryLabel (AppState.categories state) (fst kv)) (snd kv)).
  set (rows := JsArray.sort byValueDescending (map mk m)).
  assert (Hperm : Permutation rows (map mk m)) by apply sort_perm.
  assert (Hsorted : StronglySorted (fun a b => PieRow.value b <= PieRow.value a) rows).
  { apply sort_sorted.
    - intros x y z Hxy Hyz. lia.
    - unfold byValueDescending. intros x y H. lia.
    - unfold byValueDescending. intros l1 x l2 y _ _ H. lia. }
  assert (Hids : Permutation (map PieRow.categoryId rows) (JsMap.keys m)).
  { eapply perm_trans; [apply Permutation_map, Hperm|].
    rewrite map_map. apply Permutation_refl. }
  assert (Hrow : forall r, In r rows ->
                   In (PieRow.categoryId r, PieRow.value r) m
                   /\ PieRow.name r
                      = categoryLabel (AppState.categories state) (PieRow.categoryId r)).
  { intros r Hr. apply (Permutation_in _ Hperm) in Hr.
    apply in_map_iff in Hr. destruct Hr as ([k v] & <- & Hkv). simpl. auto. }
  split; [apply firstn_le_length|].
  split; [apply firstn_sorted, Hsorted|].
  split; [|split; [|split]].
  - rewrite <- firstn_map. apply NoDup_firstn.
    apply (Permutation_NoDup (Permutation_sym Hids)). exact Hnd.
  - intros r Hr. apply firstn_In in Hr. destruct (Hrow r Hr) as [Hin Hname].
    split; [|split; [|exact Hname]].
    + apply Hkeys. unfold JsMap.keys. apply in_map_iff.
      exists (PieRow.categoryId r, PieRow.value r). auto.
    + apply Hval. exact Hin.
  - intros k Hk. apply Hkeys in Hk.
    apply (Permutation_in _ (Permutation_sym Hids)) in Hk.
    apply in_map_iff in Hk. destruct Hk as (rk & <- & Hrk).
    rewrite <- (firstn_skipn 8 rows) in Hrk. apply in_app_or in Hrk.
    destruct Hrk as [Hrk | Hrk].
    + left. apply in_map. exact Hrk.
    + right. intros r Hr.
      destruct (Hrow rk) as [Hin _].
      { rewrite <- (firstn_skipn 8 rows). apply in_or_app. right. exact Hrk. }
      rewrite <- (Hval _ _ Hin).
      apply (sorted_split _ 8 rows Hsorted r rk Hr Hrk).
  - intros Hlen. rewrite firstn_all2.
    + rewrite (sumOver_perm _ _ _ Hperm), sumOver_map, <- Hsum.
      apply sumOver_ext. intros kv _. reflexivity.
    + rewrite (Permutation_length Hperm), length_map.
      unfold JsMap.keys in Hlen. rewrite length_map in Hlen. exact Hlen.
Qed.

Lemma categoryPie_rows_witness :
  map PieRow.value (categoryPie (defaultState "2026-01-15") cashflowSample)
  = [143; 50]
  /\ sumOver PieRow.value (categoryPie (defaultState "2026-01-15") cashflowSample)
     = Totals.expense (totals cashflowSample).
Proof.
  split; [vm_compute; reflexivity|].
  apply (categoryPie_rows (defaultState "2026-01-15") cashflowSample).
  vm_compute. lia.
Defined.

End SpendFacts.

(** ** The filtered list and the figures read off it *)

Section ViewFacts.
Import JsString.

Lemma notBefore_trans (a b c : string) :
  String.ltb a b = false -> String.ltb b c = false -> String.ltb a c = false.
Proof.
  intros Hab Hbc. destruct (String.ltb a c) eqn:Hac; [|reflexivity].
  destruct (string_dec b c) as [->|Hne]; [congruence|].
  pose proof (ltb_connected b c Hne Hbc) as Hcb.
  pose proof (ltb_trans a c b Hac Hcb). congruence.
Qed.

Lemma ltb_asym (a b : string) : String.ltb a b = true -> String.ltb b a = false.
Proof.
  intros Hab. destruct (String.ltb b a) eqn:Hba; [|reflexivity].
  pose proof (ltb_trans a b a Hab Hba) as H. rewrite ltb_irrefl in H. discriminate.
Qed.

Lemma byDateDescending_sorted (l : list Transaction) :
  StronglySorted notBefore (JsArray.sort byDateDescending l).
Proof.
  apply sort_sorted.
  - unfold notBefore. intros x y z. apply notBefore_trans.
  - unfold byDateDescending, notBefore. intros x y H.
    destruct (String.ltb (Transaction.date x) (Transaction.date y));
      [lia | reflexivity].
  - unfold byDateDescending, notBefore. intros l1 x l2 y _ _ H.
    destruct (String.ltb (Transaction.date x) (Transaction.date y)) eqn:E;
      [apply ltb_asym; exact E | lia].
Qed.

Lemma filter_filter {A : Type} (p q : A -> bool) (l : list A) :
  filter q (filter p l) = filter (fun x => p x && q x) l.
Proof.
  induction l as [|x l IH]; simpl; [reflexivity|].
  destruct (p x); simpl; [destruct (q x)|]; rewrite IH; reflexivity.
Qed.

Lemma filteredTx_perm (state : AppState) (range : DateRange)
    (accountFilter search : string) :
  Permutation (filteredTx state range accountFilter search)
    (filter (passesFilters state range accountFilter search)
       (AppState.transactions state)).
Proof.
  unfold filteredTx. eapply perm_trans; [apply sort_perm|].
  rewrite !filter_filter.
  erewrite filter_ext; [apply Permutation_refl|].
  intros t. unfold passesFilters, safeLower. rewrite andb_assoc. reflexivity.
Qed.

Lemma filteredTx_perm_all (state : AppState) (range : DateRange) :
  Permutation (filteredTx state range "all" "")
    (inDates (DateRange.min range) (DateRange.max range)
       (AppState.transactions state)).
Proof.
  eapply perm_trans; [apply filteredTx_perm|]. unfold inDates.
  erewrite filter_ext; [apply Permutation_refl|].
  intros t. unfold passesFilters. simpl. rewrite !andb_true_r. reflexivity.
Qed.

(** [filteredTx] keeps exactly the transactions that pass the three tests
    (date inside the range, account chosen or [all], search text empty or
    found in the merchant, the note or the category name, letter case
    apart), each as often as the state holds it, and lists them so that no
    transaction comes before one with a later date.  With the account
    [all] and an empty search it keeps the whole date range. *)
Theorem filteredTx_spec (state : AppState) (range : DateRange)
    (accountFilter search : string) :
  let shown := filteredTx state range accountFilter search in
  Permutation shown
    (filter (passesFilters state range accountFilter search)
       (AppState.transactions state))
  /\ (forall t, In t shown
                <-> In t (AppState.transactions state)
                    /\ passesFilters state range accountFilter search t = true)
  /\ StronglySorted notBefore shown
  /\ Permutation (filteredTx state range "all" "")
       (inDates (DateRange.min range) (DateRange.max range)
          (AppState.transactions state)).
Proof.
  intros shown.
  split; [apply filteredTx_perm|]. split; [|split].
  - intros t. rewrite <- filter_In. split; intros H.
    + apply (Permutation_in _ (filteredTx_perm _ _ _ _)). exact H.
    + apply (Permutation_in _ (Permutation_sym (filteredTx_perm _ _ _ _))). exact H.
  - apply byDateDescending_sorted.
  - apply filteredTx_perm_all.
Qed.

(** The sums of [InsightList] over a range are the income and the expense
    that [totals] shows for the same range when no account and no search
    text narrows the list. *)
Theorem insightSum_agrees (state : AppState) (min max : string) :
  let shown := filteredTx state (DateRange.make min max) "all" "" in
  insightSum state min max income = Totals.income (totals shown)
  /\ insightSum state min max expense = Totals.expense (totals shown)
  /\ insightSum state min max income - insightSum state min max expense
     = Totals.net (totals shown).
Proof.
  intros shown.
  assert (Hperm : Permutation shown (inDates min max (AppState.transactions state))).
  { apply (filteredTx_perm_all state (DateRange.make min max)). }
  assert (Hsum : forall ty,
             insightSum state min max ty
             = sumOfType ty (inDates min max (AppState.transactions state))).
  { intros ty. unfold insightSum. rewrite fold_left_sum, sumOfType_sumOver.
    unfold inDates. lia. }
  unfold totals. rewrite addToTotals_fold. simpl.
  rewrite !Hsum, !(sumOfType_perm _ _ _ Hperm). lia.
Qed.

Lemma insightSum_agrees_witness :
  insightSum (defaultState "2026-01-15") "2025-12-01" "2025-12-31" expense = 133000
  /\ Totals.expense
       (totals (filteredTx (defaultState "2026-01-15")
                  (DateRange.make "2025-12-01" "2025-12-31") "all" ""))
     = 133000.
Proof.
  destruct (insightSum_agrees (defaultState "2026-01-15") "2025-12-01" "2025-12-31")
    as (_ & He & _).
  split; [|rewrite <- He]; vm_compute; reflexivity.
Defined.

Lemma budgetRows_perm (state : AppState) (range : DateRange) :
  Permutation (BudgetStats.rows (budgetStats state range))
    (map (fun c =>
            BudgetRow.make (Category.id c) (orZero (Category.monthlyBudgetCents c))
              (expenseIn (Category.id c)
                 (inDates (DateRange.min range) (DateRange.max range)
                    (AppState.transactions state)))
              (orZero (Category.monthlyBudgetCents c)
               - expenseIn (Category.id c)
                   (inDates (DateRange.min range) (DateRange.max range)
                      (AppState.transactions state))))
       (filter hasBudget (AppState.categories state))).
Proof.
  unfold budgetStats. simpl.
  eapply perm_trans; [apply sort_perm|].
  rewrite map_map. erewrite map_ext; [apply Permutation_refl|].
  intros c. unfold budgetRow. simpl. rewrite spent_is_sum. reflexivity.
Qed.

Lemma budgetStats_sum (state : AppState) (range : DateRange) :
  BudgetStats.totalBudget (budgetStats state range)
  = sumOver (fun c => orZero (Category.monthlyBudgetCents c))
      (filter hasBudget (AppState.categories state)).
Proof.
  unfold budgetStats at 1. simpl BudgetStats.totalBudget.
  rewrite fold_left_sum.
  rewrite (sumOver_perm _ _ _ (budgetRows_perm state range)), sumOver_map.
  simpl. reflexivity.
Qed.

(** The totals of [budgetStats] are sums over the categories that have a
    positive budget: of their budgets, and of their expenses inside the
    range (expenses of the other categories are not counted); what remains
    is the difference of the two, which is also the sum of what remains in
    the rows.  The spent cell of the budget table is, for every category,
    with a budget or not, the sum of its expenses inside the range. *)
Theorem budgetStats_totals (state : AppState) (range : DateRange) :
  let stats := budgetStats state range in
  let budgeted := filter hasBudget (AppState.categories state) in
  let inRange :=
    inDates (DateRange.min range) (DateRange.max range)
      (AppState.transactions state) in
  BudgetStats.totalBudget stats
  = sumOver (fun c => orZero (Category.monthlyBudgetCents c)) budgeted
  /\ BudgetStats.totalSpent stats
     = sumOver (fun c => expenseIn (Category.id c) inRange) budgeted
  /\ BudgetStats.remaining stats
     = BudgetStats.totalBudget stats - BudgetStats.totalSpent stats
  /\ BudgetStats.remaining stats
     = sumOver BudgetRow.remainingCents (BudgetStats.rows stats)
  /\ (forall c, budgetTableSpent state range c = expenseIn (Category.id c) inRange).
Proof.
  intros stats budgeted inRange.
  pose proof (budgetRows_perm state range) as Hperm.
  fold stats budgeted inRange in Hperm.
  assert (Hb : BudgetStats.totalBudget stats
               = sumOver BudgetRow.budgetCents (BudgetStats.rows stats)).
  { unfold stats, budgetStats. simpl. rewrite fold_left_sum. lia. }
  assert (Hs : BudgetStats.totalSpent stats
               = sumOver BudgetRow.spentCents (BudgetStats.rows stats)).
  { unfold stats, budgetStats. simpl. rewrite fold_left_sum. lia. }
  assert (Hr : BudgetStats.remaining stats
               = BudgetStats.totalBudget stats - BudgetStats.totalSpent stats)
    by reflexivity.
  split; [|split; [|split; [exact Hr|split]]].
  - rewrite Hb, (sumOver_perm _ _ _ Hperm), sumOver_map. reflexivity.
  - rewrite Hs, (sumOver_perm _ _ _ Hperm), sumOver_map. reflexivity.
  - rewrite Hr, Hb, Hs, !(sumOver_perm _ _ _ Hperm), !sumOver_map. simpl.
    generalize budgeted. intros l. induction l as [|c l IH]; simpl; lia.
  - intros c. unfold budgetTableSpent.
    fold stats. fold (inDates (DateRange.min range) (DateRange.max range)
                        (AppState.transactions state)).
    fold inRange. rewrite spent_is_sum. fold (expenseIn (Category.id c) inRange).
    destruct (find (fun r => (BudgetRow.categoryId r =? Category.id c)%string)
                (BudgetStats.rows stats)) as [r|] eqn:Ef.
    + apply find_some in Ef. destruct Ef as [Hin Hid].
      apply String.eqb_eq in Hid.
      apply (Permutation_in _ Hperm) in Hin.
      apply in_map_iff in Hin. destruct Hin as (c' & <- & _).
      simpl in *. rewrite Hid.
      destruct (expenseIn (Category.id c) inRange =? 0) eqn:E; simpl; reflexivity.
    + reflexivity.
Qed.

Lemma sumOver_nonneg {A : Type} (f : A -> Z) (l : list A) :
  Forall (fun x => 0 <= f x) l ->
  0 <= sumOver f l
  /\ sumOver f l = sumOver f (filter (fun x => 0 <? f x) l)
  /\ (0 < sumOver f l <-> exists x, In x l /\ 0 < f x).
Proof.
  induction 1 as [|x l Hx Hl IH]; simpl.
  - split; [lia|]. split; [reflexivity|].
    split; [lia | intros (x & [] & _)].
  - destruct IH as (IH1 & IH2 & IH3). split; [lia|]. split.
    + destruct (0 <? f x) eqn:E; simpl; [lia|].
      apply Z.ltb_ge in E. lia.
    + split.
      * intros Hpos. destruct (Z_lt_le_dec 0 (f x)) as [Hfx | Hfx].
        -- exists x. auto.
        -- assert (Hl' : 0 < sumOver f l) by lia.
           apply IH3 in Hl'. destruct Hl' as (y & Hy & Hfy). exists y. auto.
      * intros (y & [<- | Hy] & Hfy); [lia|].
        assert (Hl' : 0 < sumOver f l) by (apply IH3; exists y; auto). lia.
Qed.

(** When no budget is negative, [safeToSpend] takes the budgets as its
    basis exactly when some category has a positive budget: its value is
    then the total budget of [budgetStats] minus all the expenses of the
    month so far, those of categories without a budget included;
    otherwise its value is the income minus the expenses of the month so
    far. *)
Theorem safeToSpend_basis (today : string) (state : AppState) :
  let month :=
    inDates (monthStartISO today) today (AppState.transactions state) in
  let stats := budgetStats state (DateRange.make (monthStartISO today) today) in
  let safe := safeToSpend today state in
  Forall (fun c => 0 <= orZero (Category.monthlyBudgetCents c))
    (AppState.categories state) ->
  ((exists c, In c (AppState.categories state) /\ hasBudget c = true) ->
   SafeToSpend.value safe
   = BudgetStats.totalBudget stats - sumOfType expense month
   /\ SafeToSpend.label safe = "Based on budgets")
  /\ ((forall c, In c (AppState.categories state) -> hasBudget c = false) ->
      SafeToSpend.value safe = sumOfType income month - sumOfType expense month
      /\ SafeToSpend.label safe = "Based on net").
Proof.
  intros month stats safe Hnonneg.
  destruct (sumOver_nonneg _ _ Hnonneg) as (_ & Hfilter & Hpos).
  pose proof (budgetStats_sum state (DateRange.make (monthStartISO today) today))
    as Hbudget.
  fold stats in Hbudget.
  unfold safe, safeToSpend. fold (inDates (monthStartISO today) today
                                    (AppState.transactions state)).
  fold month. rewrite addToTotals_fold, fold_left_sum.
  cbn [fst snd Z.add]. unfold hasBudget in Hbudget.
  rewrite <- Hfilter in Hbudget. rewrite <- Hbudget.
  split.
  - intros (c & Hc & Hb). unfold hasBudget in Hb. apply Z.ltb_lt in Hb.
    assert (H : 0 < sumOver (fun c => orZero (Category.monthlyBudgetCents c))
                      (AppState.categories state)).
    { apply Hpos. exists c. auto. }
    rewrite <- Hbudget in H. apply Z.ltb_lt in H. rewrite H.
    split; reflexivity.
  - intros Hnone.
    assert (H : (0 <? sumOver (fun c => orZero (Category.monthlyBudgetCents c))
                       (AppState.categories state)) = false).
    { apply Z.ltb_ge.
      destruct (Z_lt_le_dec 0 (sumOver (fun c => orZero (Category.monthlyBudgetCents c))
                                 (AppState.categories state))) as [Hlt | Hle];
        [|exact Hle].
      apply Hpos in Hlt. destruct Hlt as (c & Hc & Hb).
      specialize (Hnone c Hc). unfold hasBudget in Hnone.
      apply Z.ltb_ge in Hnone. lia. }
    rewrite <- Hbudget in H. rewrite H. split; reflexivity.
Qed.

Lemma safeToSpend_basis_witness :
  SafeToSpend.value (safeToSpend "2026-01-15" (defaultState "2026-01-15"))
  = 345000 - 192109
  /\ SafeToSpend.label (safeToSpend "2026-01-15" (defaultState "2026-01-15"))
     = "Based on budgets".
Proof.
  destruct (safeToSpend_basis "2026-01-15" (defaultState "2026-01-15")) as [H _].
  - vm_compute. repeat constructor; discriminate.
  - destruct H as [Hv Hl].
    + eexists. split; [left; reflexivity | vm_compute; reflexivity].
    + split; [rewrite Hv; vm_compute; reflexivity | exact Hl].
Defined.

End ViewFacts.

(** ** Category statistics *)

Section StatsFacts.
Import JsString.











End StatsFacts.

(** ** Decimal texts and the floats behind the amounts *)

Section DecimalFacts.
Import JsString JsNumber.

Lemma decimalDigits_uint_pos (u : Decimal.uint) (rest : string) (p : positive)
    (cnt : Z) :
  decimalDigits (NilEmpty.string_of_uint u ++ rest) (Z.pos p) cnt
  = decimalDigits rest (Z.pos (Pos.of_uint_acc u p))
      (cnt + Z.of_nat (Decimal.nb_digits u)).
Proof.
  revert p cnt. induction u as [|u IH|u IH|u IH|u IH|u IH|u IH|u IH|u IH|u IH|u IH];
    intros p cnt;
    [simpl; f_equal; lia|..];
    cbn [NilEmpty.string_of_uint append decimalDigits Pos.of_uint_acc Decimal.nb_digits];
    match goal with
    | |- context [isDigit ?c] => change (isDigit c) with true; cbv iota
    end;
    match goal with
    | |- context [10 * Z.pos p + digitValue ?c] =>
        let v := eval vm_compute in (digitValue c) in
        change (digitValue c) with v
    end;
    match goal with
    | |- decimalDigits _ ?a ?c = decimalDigits _ (Z.pos (Pos.of_uint_acc u ?q)) _ =>
        replace a with (Z.pos q) by lia
    end;
    rewrite IH; f_equal; lia.
Qed.

Lemma decimalDigits_uint (u : Decimal.uint) (rest : string) (cnt : Z) :
  decimalDigits (NilEmpty.string_of_uint u ++ rest) 0 cnt
  = decimalDigits rest (Z.of_N (Pos.of_uint u))
      (cnt + Z.of_nat (Decimal.nb_digits u)).
Proof.
  revert cnt. induction u as [|u IH|u IH|u IH|u IH|u IH|u IH|u IH|u IH|u IH|u IH];
    intros cnt;
    [simpl; f_equal; lia|..];
    cbn [NilEmpty.string_of_uint append decimalDigits Pos.of_uint Decimal.nb_digits];
    match goal with
    | |- context [isDigit ?c] => change (isDigit c) with true; cbv iota
    end;
    match goal with
    | |- context [10 * 0 + digitValue ?c] =>
        let v := eval vm_compute in (10 * 0 + digitValue c) in
        change (10 * 0 + digitValue c) with v
    end;
    first [ rewrite IH | rewrite decimalDigits_uint_pos; cbn [Z.of_N] ];
    f_equal; lia.
Qed.

Lemma uint_head (u : Decimal.uint) :
  u <> Decimal.Nil ->
  exists c s, NilEmpty.string_of_uint u = String c s /\ isDigit c = true.
Proof.
  destruct u; intros H; [contradiction|..]; simpl; eexists; eexists;
    (split; [reflexivity | reflexivity]).
Qed.

Lemma to_uint_nonnil (n : N) : N.to_uint n <> Decimal.Nil.
Proof.
  destruct n as [|p]; simpl; [discriminate | apply Unsigned.to_uint_nonnil].
Qed.

Lemma ofZ_uint (q : Z) :
  0 <= q -> ofZ q = NilEmpty.string_of_uint (N.to_uint (Z.to_N q)).
Proof.
  intros Hq. unfold ofZ. destruct (Z.ltb_spec q 0); [lia|].
  unfold NilZero.string_of_uint.
  pose proof (to_uint_nonnil (Z.to_N q)) as Hn.
  destruct (N.to_uint (Z.to_N q)); [contradiction|..]; reflexivity.
Qed.

(** Reading the digits that [String(q)] wrote gives [q] back. *)
Lemma decimalDigits_ofZ (q : Z) (rest : string) (cnt : Z) :
  0 <= q ->
  exists len, 0 < len
              /\ decimalDigits (ofZ q ++ rest) 0 cnt
                 = decimalDigits rest q (cnt + len).
Proof.
  intros Hq. rewrite ofZ_uint by exact Hq.
  exists (Z.of_nat (Decimal.nb_digits (N.to_uint (Z.to_N q)))). split.
  - pose proof (to_uint_nonnil (Z.to_N q)) as Hn.
    destruct (N.to_uint (Z.to_N q)); [contradiction|..]; simpl; lia.
  - rewrite decimalDigits_uint.
    change (Pos.of_uint (N.to_uint (Z.to_N q))) with (N.of_uint (N.to_uint (Z.to_N q))).
    rewrite DecimalN.Unsigned.of_to, Z2N.id by exact Hq. reflexivity.
Qed.

Lemma ofZ_head (q : Z) :
  0 <= q -> exists c s, ofZ q = String c s /\ isDigit c = true.
Proof.
  intros Hq. rewrite ofZ_uint by exact Hq. apply uint_head, to_uint_nonnil.
Qed.

Lemma keepOnly_app (keep : ascii -> bool) (a b : string) :
  keepOnly keep (a ++ b) = keepOnly keep a ++ keepOnly keep b.
Proof.
  induction a as [|c a IH]; simpl; [reflexivity|].
  destruct (keep c); simpl; rewrite IH; reflexivity.
Qed.

Lemma keepOnly_uint (u : Decimal.uint) :
  keepOnly keepMoneyChar (NilEmpty.string_of_uint u) = NilEmpty.string_of_uint u.
Proof.
  induction u; cbn [NilEmpty.string_of_uint keepOnly]; [reflexivity|..];
    match goal with
    | |- context [keepMoneyChar ?c] => change (keepMoneyChar c) with true; cbv iota
    end;
    rewrite IHu; reflexivity.
Qed.

Lemma keepOnly_ofZ (q : Z) : 0 <= q -> keepOnly keepMoneyChar (ofZ q) = ofZ q.
Proof. intros Hq. rewrite ofZ_uint by exact Hq. apply keepOnly_uint. Qed.

Lemma keepOnly_idem (keep : ascii -> bool) (s : string) :
  keepOnly keep (keepOnly keep s) = keepOnly keep s.
Proof.
  induction s as [|c s IH]; simpl; [reflexivity|].
  destruct (keep c) eqn:E; simpl; [rewrite E, IH|]; auto.
Qed.

Lemma digit_not_sign (c : ascii) :
  isDigit c = true -> Ascii.eqb c "-" = false /\ Ascii.eqb c "." = false.
Proof.
  destruct c as [[] [] [] [] [] [] [] []]; vm_compute; intros H;
    first [discriminate H | split; reflexivity].
Qed.

Lemma Number_unsigned (c : ascii) (s : string) :
  Ascii.eqb c "-" = false ->
  Number (String c s)
  = match unsignedDecimal (String c s) with
    | Some (n, d) => Some (toDouble n d)
    | None => None
    end.
Proof.
  destruct c as [[] [] [] [] [] [] [] []]; intros H;
    first [reflexivity | discriminate H].
Qed.

Lemma twoDigits_cents (v : Z) : 0 <= v <= 99 -> twoDigits v = true.
Proof.
  intros H. apply (upFrom_all twoDigits 0 100); [|lia].
  vm_compute. reflexivity.
Qed.

(** The text of a whole number of units parses to that number. *)
Lemma Number_ofZ (q : Z) : 0 <= q -> Number (ofZ q) = Some (toDouble q 1).
Proof.
  intros Hq. destruct (ofZ_head q Hq) as (c & s & Hs & Hc).
  destruct (digit_not_sign c Hc) as [Hminus _].
  rewrite Hs, (Number_unsigned c s Hminus), <- Hs.
  unfold unsignedDecimal.
  destruct (decimalDigits_ofZ q "" 0 Hq) as (len & Hlen & Hd).
  rewrite string_app_nil_r in Hd. rewrite Hd. simpl.
  destruct (Z.ltb_spec 0 len); [reflexivity | lia].
Qed.

(** The text [q.ab] of an amount with two decimals parses to the fraction
    [(100 * q + ab) / 100]. *)
Lemma Number_two_decimals (q r : Z) :
  0 <= q -> 0 <= r <= 99 ->
  Number (ofZ q ++ "." ++ padStart2 (ofZ r)) = Some (toDouble (100 * q + r) 100).
Proof.
  intros Hq Hr. destruct (ofZ_head q Hq) as (c & s & Hs & Hc).
  destruct (digit_not_sign c Hc) as [Hminus _].
  pose proof (twoDigits_cents r Hr) as Ht. unfold twoDigits in Ht.
  destruct (padStart2 (ofZ r)) as [|a [|b [|? ?]]]; try discriminate Ht.
  apply andb_prop in Ht. destruct Ht as [Ht Hv].
  apply andb_prop in Ht. destruct Ht as [Ha Hb].
  apply Z.eqb_eq in Hv.
  rewrite Hs. cbn [append]. rewrite (Number_unsigned c _ Hminus).
  change (String c (s ++ String "." (String a (String b ""))))
    with (String c s ++ String "." (String a (String b ""))).
  rewrite <- Hs. unfold unsignedDecimal.
  destruct (decimalDigits_ofZ q (String "." (String a (String b ""))) 0 Hq)
    as (len & Hlen & Hd).
  rewrite Hd. cbn [decimalDigits].
  change (isDigit ".") with false. cbv iota.
  change (Ascii.eqb "." ".") with true. cbv iota.
  cbn [decimalDigits]. rewrite Ha, Hb. cbv iota.
  replace (0 <? 0 + len + (0 + 1 + 1)) with true by (symmetry; apply Z.ltb_lt; lia).
  replace (10 * (10 * q + digitValue a) + digitValue b) with (100 * q + r)
    by (unfold JsDate.digits2 in Hv; lia).
  reflexivity.
Qed.

End DecimalFacts.

Section AmountFacts.
Import JsString JsNumber.

(** Cents divided by 100 and multiplied by 100 again round back to the
    cents. *)
Lemma cents_round_trip (c : Z) : - 2 ^ 44 <= c <= 2 ^ 44 -> percentOf c 100 = c.
Proof.
  intros H.
  pose proof (percentOf_nearest c 100 ltac:(split; reflexivity) H). lia.
Qed.

Lemma hundredths_float (a : Z) :
  0 < a <= 2 ^ 44 ->
  exists m k P',
    roundPositive a 100 = (m, - k) /\ 0 < k /\ 2 ^ k = 2 * P' /\ 100 < P'
    /\ - 100 <= 2 * (m * 100) - 2 * (a * (2 * P')) <= 100.
Proof.
  intros Ha. assert (H44 : 2 ^ 44 = 17592186044416) by reflexivity.
  rewrite H44 in Ha.
  assert (S1 : a < 2 ^ 45 * 100) by (change (2 ^ 45) with 35184372088832; lia).
  assert (S2 : 100 <= 2 ^ 7 * a) by (change (2 ^ 7) with 128; lia).
  destruct (roundPositive_normal a 100 45 7 ltac:(lia) ltac:(lia) ltac:(lia)
              ltac:(lia) S1 S2)
    as (m & k & E & Hk & Herr & Hbig & Hm).
  exists m, k, (2 ^ (k - 1)).
  assert (HP : 2 ^ k = 2 * 2 ^ (k - 1)).
  { replace k with (1 + (k - 1)) at 1 by lia. rewrite pow2_split by lia. reflexivity. }
  pose proof (pow2_pos (k - 1) ltac:(lia)) as HP'.
  change (2 ^ 52) with 4503599627370496 in Hbig.
  rewrite HP in Herr, Hbig.
  split; [exact E|]. split; [lia|]. split; [exact HP|]. split; [|exact Herr].
  generalize dependent (2 ^ (k - 1)). intros P' _ Herr Hbig HP'. nia.
Qed.

(** [Math.round(a / 100)] is the number of units nearest to [a] cents,
    the larger one for a half. *)
Lemma Math_round_hundredths (a : Z) :
  0 <= a <= 2 ^ 44 -> Math_round (fdiv a 100) = (a + 50) / 100.
Proof.
  intros Ha. unfold fdiv, toDouble.
  destruct (Z.eqb_spec a 0) as [->|Hne]; [reflexivity|].
  destruct (Z.ltb_spec 0 a); [|lia].
  destruct (hundredths_float a ltac:(lia)) as (m & k & P' & E & Hk & HP & HP' & Herr).
  rewrite E. pose proof (Math_round_spec m k Hk) as Hr. cbv zeta in Hr.
  rewrite HP in Hr. set (r := Math_round (m, - k)) in *. clearbody r.
  pose proof (Z.div_mod (a + 50) 100 ltac:(lia)) as Hdiv.
  pose proof (Z.mod_pos_bound (a + 50) 100 ltac:(lia)) as Hmod.
  set (q := (a + 50) / 100) in *. clearbody q.
  generalize dependent ((a + 50) mod 100). intros w Hdiv Hmod.
  assert (Ha1 : a * P' <= (100 * q + 49) * P') by nia.
  assert (Ha2 : (100 * q - 50) * P' <= a * P') by nia.
  destruct (Z_lt_le_dec q r) as [Hqr | Hrq].
  - exfalso. assert (P' * (q + 1) <= P' * r) by nia. nia.
  - destruct (Z_lt_le_dec r q) as [Hlt | Hge]; [|lia].
    exfalso. assert (P' * (r + 1) <= P' * q) by nia. nia.
Qed.

(** A whole number of units, as a float, times 100 is the exact number of
    cents. *)
Lemma whole_units_cents (q : Z) :
  0 <= q -> 100 * q < 2 ^ 52 -> Math_round (fmul (toDouble q 1) 100) = 100 * q.
Proof.
  intros Hq Hsmall. unfold toDouble.
  destruct (Z.eqb_spec q 0) as [->|Hne]; [reflexivity|].
  destruct (Z.ltb_spec 0 q); [|lia].
  assert (H52 : 2 ^ 52 = 4503599627370496) by reflexivity.
  assert (S1 : q < 2 ^ 52 * 1) by lia.
  assert (S2 : 1 <= 2 ^ 0 * q) by (change (2 ^ 0) with 1; lia).
  destruct (roundPositive_normal q 1 52 0 ltac:(lia) ltac:(lia) ltac:(lia)
              ltac:(lia) S1 S2)
    as (m & k & E & Hk & Herr & Hbig & Hm).
  rewrite E. unfold fmul.
  destruct (Z.leb_spec 0 (- k)); [lia|].
  replace (- - k) with k by lia.
  pose proof (pow2_pos k ltac:(lia)) as HP.
  assert (Em : m = q * 2 ^ k) by lia. subst m.
  unfold toDouble.
  destruct (Z.eqb_spec (100 * (q * 2 ^ k)) 0); [nia|].
  destruct (Z.ltb_spec 0 (100 * (q * 2 ^ k))); [|nia].
  assert (T1 : 100 * (q * 2 ^ k) < 2 ^ 52 * 2 ^ k) by nia.
  assert (T2 : 2 ^ k <= 2 ^ 0 * (100 * (q * 2 ^ k))) by (change (2 ^ 0) with 1; nia).
  destruct (roundPositive_normal (100 * (q * 2 ^ k)) (2 ^ k) 52 0 ltac:(lia) HP
              ltac:(lia) ltac:(lia) T1 T2)
    as (m2 & k2 & E2 & Hk2 & Herr2 & Hbig2 & Hm2).
  rewrite E2.
  pose proof (Math_round_spec m2 k2 ltac:(lia)) as Hr. cbv zeta in Hr.
  pose proof (pow2_pos k2 ltac:(lia)) as HP2.
  set (r := Math_round (m2, - k2)) in *. clearbody r.
  assert (HD : 2 * (m2 * 2 ^ k) - 2 * (100 * (q * 2 ^ k) * 2 ^ k2)
               = 2 * 2 ^ k * (m2 - 100 * q * 2 ^ k2)) by ring.
  rewrite HD in Herr2.
  assert (Em2 : m2 - 100 * q * 2 ^ k2 = 0).
  { clear - Herr2 HP. generalize dependent (m2 - 100 * q * 2 ^ k2).
    generalize dependent (2 ^ k). intros. nia. }
  assert (Em2' : m2 = 100 * q * 2 ^ k2) by lia. rewrite Em2' in Hr.
  clear - Hr HP2. generalize dependent (2 ^ k2). intros. nia.
Qed.

(** The text of an amount in cents: the units, a point and two digits of
    cents. *)
Lemma toFixed2_exact (c : Z) :
  0 <= c <= 2 ^ 44 ->
  toFixed2 c = ofZ (c / 100) ++ "." ++ padStart2 (ofZ (c mod 100)).
Proof.
  intros Hc. unfold toFixed2. rewrite Z.abs_eq by lia.
  destruct (Z.ltb_spec c 0); [lia|]. cbn [append].
  unfold fdiv, toDouble.
  destruct (Z.eqb_spec c 0) as [->|Hne]; [reflexivity|].
  destruct (Z.ltb_spec 0 c); [|lia].
  destruct (hundredths_float c ltac:(lia)) as (m & k & P' & E & Hk & HP & HP' & Herr).
  rewrite E. destruct (Z.leb_spec 0 (- k)); [lia|].
  replace (- - k) with k by lia. replace (1 - - k) with (1 + k) by lia.
  rewrite pow2_split by lia. change (2 ^ 1) with 2. rewrite HP.
  replace ((200 * m + 2 * P') / (2 * (2 * P'))) with c; [reflexivity|].
  apply (Z.div_unique _ _ c (200 * m + 2 * P' - 4 * P' * c)); lia.
Qed.

End AmountFacts.

(** ** Colours, gauges and amounts on display *)

Section DisplayFacts.
Import JsString JsNumber.

Lemma hashLoop_poly (input : string) (h : Z) :
  hashLoop input (h mod 2 ^ 32) = poly31 input h mod 2 ^ 32.
Proof.
  revert h. induction input as [|c rest IH]; intros h; simpl; [reflexivity|].
  rewrite <- IH. f_equal.
  rewrite Z.add_mod, Z.mul_mod_idemp_l, <- Z.add_mod by (cbv; discriminate).
  reflexivity.
Qed.

(** The hash of [hashToIndex] is the polynomial in 31 of the code units of
    the text, modulo [2^32]; for a positive modulus the index is that hash
    modulo the modulus, hence inside [0 .. modulus - 1], and for the
    modulus 0 it is not a number.  [categoryColour] therefore always
    answers with one of the ten colours of the palette. *)
Theorem categoryColour_in_palette :
  (forall input modulus,
      0 < modulus ->
      hashToIndex input modulus = Some ((poly31 input 0 mod 2 ^ 32) mod modulus)
      /\ 0 <= (poly31 input 0 mod 2 ^ 32) mod modulus < modulus)
  /\ (forall input, hashToIndex input 0 = None)
  /\ (forall categoryId,
         exists colour,
           categoryColour categoryId = Some colour /\ In colour CATEGORY_PALETTE).
Proof.
  assert (Hidx : forall input modulus,
             0 < modulus ->
             hashToIndex input modulus
             = Some ((poly31 input 0 mod 2 ^ 32) mod modulus)
             /\ 0 <= (poly31 input 0 mod 2 ^ 32) mod modulus < modulus).
  { intros input modulus Hm. unfold hashToIndex.
    destruct (Z.eqb_spec modulus 0); [lia|].
    change 0 with (0 mod 2 ^ 32) at 1. rewrite hashLoop_poly.
    split; [|apply Z.mod_pos_bound; exact Hm].
    f_equal. apply Z.rem_mod_nonneg; [|exact Hm].
    apply Z.mod_pos_bound. reflexivity. }
  split; [exact Hidx|]. split; [reflexivity|].
  intros categoryId. unfold categoryColour.
  destruct (Hidx categoryId (Z.of_nat (List.length CATEGORY_PALETTE)) eq_refl)
    as [-> Hrange].
  set (i := (poly31 categoryId 0 mod 2 ^ 32) mod Z.of_nat (List.length CATEGORY_PALETTE))
    in *.
  clearbody i. change (Z.of_nat (List.length CATEGORY_PALETTE)) with 10 in Hrange.
  assert (Hi : i = 0 \/ i = 1 \/ i = 2 \/ i = 3 \/ i = 4 \/ i = 5 \/ i = 6
               \/ i = 7 \/ i = 8 \/ i = 9) by lia.
  repeat (destruct Hi as [-> | Hi]); [..|subst i];
    eexists; (split; [reflexivity | simpl; tauto]).
Qed.

(** [ProgressBar] shows a percentage between 0 and 120, which is 0 when
    the maximum is zero or negative, and the caption Over exactly above
    100.  For a positive maximum (amounts up to [2^44] cents): a value up
    to four fifths of the maximum gives the first colour, a value up to the
    maximum never gives the caption Over nor the last colour, and a value
    more than half a percent above the maximum always gives both. *)
Theorem ProgressBar_view (value max : Z) :
  let bar := ProgressBar value max in
  0 <= ProgressBarView.pct bar <= 120
  /\ (max <= 0 -> ProgressBarView.pct bar = 0)
  /\ (ProgressBarView.caption bar = "Over" <-> 100 < ProgressBarView.pct bar)
  /\ (ProgressBarView.tone bar = "bg-rose-500" <-> 100 < ProgressBarView.pct bar)
  /\ (0 < max < 2 ^ 53 -> - 2 ^ 44 <= value <= 2 ^ 44 ->
      (5 * value <= 4 * max -> ProgressBarView.tone bar = "bg-emerald-500")
      /\ (value <= max ->
          ProgressBarView.pct bar <= 100
          /\ ProgressBarView.caption bar = "Remaining")
      /\ (201 * max < 200 * value ->
          ProgressBarView.caption bar = "Over"
          /\ ProgressBarView.tone bar = "bg-rose-500")).
Proof.
  intros bar. unfold bar, ProgressBar. cbv zeta.
  set (pct := if max <=? 0 then 0 else clamp (percentOf value max) 0 120).
  cbn [ProgressBarView.pct ProgressBarView.tone ProgressBarView.caption].
  assert (Hrange : 0 <= pct <= 120).
  { unfold pct, clamp. destruct (max <=? 0); lia. }
  assert (Hcap : (if 100 <? pct then "Over" else "Remaining") = "Over" <-> 100 < pct).
  { destruct (Z.ltb_spec 100 pct); split; intros H'; first [reflexivity | lia | discriminate]. }
  assert (Htone : (if pct <=? 80 then "bg-emerald-500"
                   else if pct <=? 100 then "bg-amber-500" else "bg-rose-500")
                  = "bg-rose-500" <-> 100 < pct).
  { destruct (Z.leb_spec pct 80); [split; [discriminate | lia]|].
    destruct (Z.leb_spec pct 100); split; intros H'; first [reflexivity | lia | discriminate]. }
  split; [exact Hrange|]. split; [|split; [exact Hcap|split; [exact Htone|]]].
  - intros Hmax. unfold pct. destruct (Z.leb_spec max 0); [reflexivity | lia].
  - intros Hmax Hvalue.
    pose proof (percentOf_nearest value max Hmax Hvalue) as Hnear.
    assert (Hpct : pct = clamp (percentOf value max) 0 120).
    { unfold pct. destruct (Z.leb_spec max 0); [lia | reflexivity]. }
    set (p := percentOf value max) in *. clearbody p.
    unfold clamp in Hpct.
    split; [|split].
    + intros H. assert (p <= 80) by nia.
      destruct (Z.leb_spec pct 80); [reflexivity | lia].
    + intros H. assert (p <= 100) by nia.
      split; [lia|]. destruct (Z.ltb_spec 100 pct); [lia | reflexivity].
    + intros H. assert (100 < p) by nia.
      split; [apply Hcap | apply Htone]; lia.
Qed.

Lemma ProgressBar_view_witness :
  ProgressBarView.pct (ProgressBar 60300 60000) <= 100
  /\ ProgressBarView.caption (ProgressBar 60000 60000) = "Remaining"
  /\ ProgressBarView.caption (ProgressBar 60301 60000) = "Over"
  /\ ProgressBarView.pct (ProgressBar 5 0) = 0.
Proof.
  split; [vm_compute; discriminate|].
  destruct (ProgressBar_view 60000 60000) as (_ & _ & _ & _ & H1).
  destruct (ProgressBar_view 60301 60000) as (_ & _ & _ & _ & H2).
  destruct (ProgressBar_view 5 0) as (_ & H3 & _).
  split; [|split].
  - apply H1; [split; reflexivity | split; discriminate | lia].
  - apply H2; [split; reflexivity | split; discriminate | lia].
  - apply H3. lia.
Defined.

(** A running total that the line chart plots as [cents / 100] is read
    back by the tooltip as the same cents (for totals up to [2^44] cents in
    size), so that the change from the previous point that the tooltip
    shows is the difference of the two running totals, and 0 at the first
    point. *)
Theorem tooltipDelta_exact (cashflow : list CashflowPoint.t) (dataIndex : nat)
    (point : CashflowPoint.t) :
  Forall (fun p => - 2 ^ 44 <= CashflowPoint.runningCents p <= 2 ^ 44) cashflow ->
  nth_error cashflow dataIndex = Some point ->
  let dataValues := cashflowDataValues cashflow in
  exists raw,
    nth_error dataValues dataIndex = Some raw
    /\ centsOfPlotted raw = CashflowPoint.runningCents point
    /\ tooltipDelta dataValues dataIndex raw
       = Some (CashflowPoint.runningCents point
               - match dataIndex with
                 | O => CashflowPoint.runningCents point
                 | S i => match nth_error cashflow i with
                          | Some prev => CashflowPoint.runningCents prev
                          | None => 0
                          end
                 end).
Proof.
  intros Hsize Hpoint dataValues.
  assert (Hback : forall i p, nth_error cashflow i = Some p ->
            nth_error dataValues i = Some (fdiv (CashflowPoint.runningCents p) 100)
            /\ centsOfPlotted (fdiv (CashflowPoint.runningCents p) 100)
               = CashflowPoint.runningCents p).
  { intros i p Hp. split.
    - unfold dataValues, cashflowDataValues. rewrite nth_error_map, Hp. reflexivity.
    - apply cents_round_trip.
      apply nth_error_In in Hp. eapply Forall_forall in Hsize; eassumption. }
  destruct (Hback _ _ Hpoint) as [Hraw Hcents].
  exists (fdiv (CashflowPoint.runningCents point) 100).
  split; [exact Hraw|]. split; [exact Hcents|].
  unfold tooltipDelta. rewrite Hcents.
  destruct dataIndex as [|i]; [reflexivity|].
  change (0 <? S i)%nat with true. cbv iota.
  replace (S i - 1)%nat with i by lia.
  destruct (nth_error cashflow i) as [prev|] eqn:Ei.
  - destruct (Hback _ _ Ei) as [Hprev Hpc]. rewrite Hprev. simpl. rewrite Hpc.
    reflexivity.
  - exfalso. apply nth_error_None in Ei.
    assert (Hlt : (S i < List.length cashflow)%nat).
    { apply nth_error_Some. rewrite Hpoint. discriminate. }
    lia.
Qed.

Lemma tooltipDelta_exact_witness :
  exists raw,
    nth_error (cashflowDataValues (cashflow cashflowSample)) 1 = Some raw
    /\ centsOfPlotted raw = 7
    /\ tooltipDelta (cashflowDataValues (cashflow cashflowSample)) 1 raw
       = Some (-143).
Proof.
  assert (Hpts : cashflow cashflowSample
                 = [ CashflowPoint.make "12-31" 150 200 50;
                     CashflowPoint.make "01-01" 7 0 143 ])
    by (vm_compute; reflexivity).
  destruct (tooltipDelta_exact (cashflow cashflowSample) 1
              (CashflowPoint.make "01-01" 7 0 143))
    as (raw & H1 & H2 & H3).
  - rewrite Hpts. repeat constructor; simpl; discriminate.
  - rewrite Hpts. reflexivity.
  - exists raw. split; [exact H1|]. split; [exact H2|].
    rewrite H3, Hpts. reflexivity.
Defined.

End DisplayFacts.

(** ** Amounts as texts *)

Section MoneyFacts.
Import JsString JsNumber.

Lemma anyChar_keepOnly (p keep : ascii -> bool) (s : string) :
  anyChar p s = false -> anyChar p (keepOnly keep s) = false.
Proof.
  induction s as [|c s IH]; simpl; [reflexivity|]. intros H.
  apply orb_false_elim in H. destruct H as [Hc Hs].
  destruct (keep c); simpl; [rewrite Hc|]; auto.
Qed.

Lemma unsignedDecimal_no_digit (s : string) :
  anyChar isDigit s = false -> unsignedDecimal s = None.
Proof.
  intros H. unfold unsignedDecimal.
  destruct s as [|c s]; [reflexivity|].
  simpl in H. apply orb_false_elim in H. destruct H as [Hc Hs].
  cbn [decimalDigits]. rewrite Hc.
  destruct (Ascii.eqb c "."); [|reflexivity].
  destruct s as [|d s]; [reflexivity|].
  simpl in Hs. apply orb_false_elim in Hs. destruct Hs as [Hd _].
  cbn [decimalDigits]. rewrite Hd. reflexivity.
Qed.

Lemma Number_no_digit (s : string) : anyChar isDigit s = false -> Number s = None.
Proof.
  intros H. destruct s as [|c s]; [reflexivity|].
  destruct (Ascii.eqb c "-") eqn:E.
  - apply Ascii.eqb_eq in E. subst c. simpl in H.
    change (Number (String "-" s))
      with (match unsignedDecimal s with
            | Some (n, d) => Some (toDouble (- n) d)
            | None => None
            end).
    rewrite unsignedDecimal_no_digit by exact H. reflexivity.
  - rewrite (Number_unsigned c s E), unsignedDecimal_no_digit by exact H.
    reflexivity.
Qed.

Lemma parseMoneyToCents_cleaned (s : string) :
  parseMoneyToCents s = parseMoneyToCents (keepOnly keepMoneyChar s).
Proof. unfold parseMoneyToCents. rewrite keepOnly_idem. reflexivity. Qed.

Lemma special_texts (c : ascii) (s : string) :
  isDigit c = true ->
  ((String c s =? "") || (String c s =? "-") || (String c s =? "."))%string = false.
Proof.
  intros Hc. destruct (digit_not_sign c Hc) as [Hm Hp].
  cbn [String.eqb]. rewrite Hm, Hp. reflexivity.
Qed.

(** The text of a whole number of units parses to a hundred times the
    number. *)
Lemma parseMoneyToCents_ofZ (q : Z) :
  0 <= q -> 100 * q < 2 ^ 52 -> parseMoneyToCents (ofZ q) = 100 * q.
Proof.
  intros Hq Hsmall. unfold parseMoneyToCents.
  rewrite keepOnly_ofZ by exact Hq.
  destruct (ofZ_head q Hq) as (c & s & Hs & Hc).
  rewrite Hs at 1 2 3. rewrite (special_texts c s Hc).
  rewrite Number_ofZ by exact Hq. apply whole_units_cents; assumption.
Qed.

(** The text that export writes for an amount parses to the amount. *)
Lemma parseMoneyToCents_toFixed2 (c : Z) :
  0 <= c <= 2 ^ 44 -> parseMoneyToCents (toFixed2 c) = c.
Proof.
  intros Hc. rewrite toFixed2_exact by exact Hc.
  pose proof (Z.div_mod c 100 ltac:(lia)) as Hdiv.
  pose proof (Z.mod_pos_bound c 100 ltac:(lia)) as Hmod.
  assert (Hq : 0 <= c / 100) by (apply Z.div_pos; lia).
  assert (Hr : 0 <= c mod 100 <= 99) by lia.
  pose proof (Number_two_decimals (c / 100) (c mod 100) Hq Hr) as HN.
  replace (100 * (c / 100) + c mod 100) with c in HN by lia.
  assert (Hclean : keepOnly keepMoneyChar
                     (ofZ (c / 100) ++ "." ++ padStart2 (ofZ (c mod 100)))
                   = ofZ (c / 100) ++ "." ++ padStart2 (ofZ (c mod 100))).
  { pose proof (twoDigits_cents (c mod 100) Hr) as Ht. unfold twoDigits in Ht.
    destruct (padStart2 (ofZ (c mod 100))) as [|a [|b [|? ?]]];
      try discriminate Ht.
    apply andb_prop in Ht. destruct Ht as [Ht _].
    apply andb_prop in Ht. destruct Ht as [Ha Hb].
    rewrite keepOnly_app, keepOnly_ofZ by exact Hq. f_equal.
    cbn [append keepOnly]. unfold keepMoneyChar at 2 3. rewrite Ha, Hb.
    reflexivity. }
  assert (Hspecial :
            ((ofZ (c / 100) ++ "." ++ padStart2 (ofZ (c mod 100)) =? "")
             || (ofZ (c / 100) ++ "." ++ padStart2 (ofZ (c mod 100)) =? "-")
             || (ofZ (c / 100) ++ "." ++ padStart2 (ofZ (c mod 100)) =? "."))%string
            = false).
  { destruct (ofZ_head (c / 100) Hq) as (d & s & Hs & Hd).
    rewrite Hs. cbn [append]. apply special_texts. exact Hd. }
  unfold parseMoneyToCents. rewrite Hclean, Hspecial, HN.
  apply cents_round_trip. lia.
Qed.

(** [parseMoneyToCents] reads only the digits, points and minus signs of a
    text: a text without a digit gives 0; currency symbols, separators and
    spaces change nothing; a text whose digits spell a whole number of
    units gives a hundred times that number. *)
Theorem parseMoneyToCents_cleaning :
  (forall s, anyChar isDigit s = false -> parseMoneyToCents s = 0)
  /\ (forall s, parseMoneyToCents s = parseMoneyToCents (keepOnly keepMoneyChar s))
  /\ (forall s q,
         0 <= q -> 100 * q < 2 ^ 52 ->
         keepOnly keepMoneyChar s = ofZ q ->
         parseMoneyToCents s = 100 * q).
Proof.
  split; [|split].
  - intros s H. unfold parseMoneyToCents.
    rewrite Number_no_digit by (apply anyChar_keepOnly; exact H).
    destruct ((keepOnly keepMoneyChar s =? "") || (keepOnly keepMoneyChar s =? "-")
              || (keepOnly keepMoneyChar s =? "."))%string; reflexivity.
  - apply parseMoneyToCents_cleaned.
  - intros s q Hq Hsmall Hs.
    rewrite parseMoneyToCents_cleaned, Hs. apply parseMoneyToCents_ofZ; assumption.
Qed.

Lemma parseMoneyToCents_cleaning_witness :
  parseMoneyToCents "n/a -- CAD $." = 0
  /\ parseMoneyToCents "CAD $ 1,234 " = 123400.
Proof.
  destruct parseMoneyToCents_cleaning as (Hnone & _ & Hwhole).
  split.
  - apply Hnone. vm_compute. reflexivity.
  - apply (Hwhole "CAD $ 1,234 " 1234); [lia | reflexivity | vm_compute; reflexivity].
Defined.

(** The amount of a transaction survives export and import: for an amount
    of up to [2^44] cents, [exportCSV] writes the units, a point and two
    digits of cents, [parseMoneyToCents] reads that text back as the same
    cents, and a row imported with that text in its amount cell gets that
    amount. *)
Theorem amount_text_round_trip (cents : Z) :
  0 <= cents <= 2 ^ 44 ->
  toFixed2 cents = ofZ (cents / 100) ++ "." ++ padStart2 (ofZ (cents mod 100))
  /\ parseMoneyToCents (toFixed2 cents) = cents
  /\ (forall catById accById t,
         Transaction.amountCents t = cents ->
         nth_error (exportRow catById accById t) 2 = Some (toFixed2 cents))
  /\ (forall state cols id r t,
         cellOf r (ImportColumns.amountIdx cols) = toFixed2 cents ->
         importRow state cols id r = Some t ->
         Transaction.amountCents t = cents).
Proof.
  intros Hc. split; [apply toFixed2_exact; exact Hc|].
  split; [apply parseMoneyToCents_toFixed2; exact Hc|]. split.
  - intros catById accById t <-. reflexivity.
  - intros state cols id r t Hcell Hrow. apply importRow_Some in Hrow.
    destruct Hrow as (_ & _ & _ & Ha & _).
    rewrite Ha, Hcell, parseMoneyToCents_toFixed2 by exact Hc. lia.
Qed.

Lemma amount_text_round_trip_witness :
  toFixed2 123405 = "1234.05" /\ parseMoneyToCents (toFixed2 123405) = 123405.
Proof.
  destruct (amount_text_round_trip 123405) as (H1 & H2 & _).
  - split; [lia | discriminate].
  - split; [rewrite H1; vm_compute; reflexivity | exact H2].
Defined.

(** The budget field shows a budget in whole units, halves rounded up, and
    hands back a hundred times what it shows when it is left: leaving the
    field untouched rounds the budget to whole units, and keeps it only
    when it has no cents.  Whatever the text, the cents handed back are
    not negative. *)
Theorem BudgetInput_blur_rounds (valueCents : Z) :
  0 <= valueCents <= 2 ^ 44 ->
  BudgetInput_value valueCents = ofZ ((valueCents + 50) / 100)
  /\ BudgetInput_onBlur (BudgetInput_value valueCents)
     = 100 * ((valueCents + 50) / 100)
  /\ (BudgetInput_onBlur (BudgetInput_value valueCents) = valueCents
      <-> valueCents mod 100 = 0)
  /\ (forall text, 0 <= BudgetInput_onBlur text).
Proof.
  intros Hc.
  assert (H44 : 2 ^ 44 = 17592186044416) by reflexivity.
  assert (Hv : BudgetInput_value valueCents = ofZ ((valueCents + 50) / 100)).
  { unfold BudgetInput_value, toFixed0. rewrite Z.abs_eq by lia.
    destruct (Z.ltb_spec valueCents 0); [lia|].
    rewrite Math_round_hundredths by exact Hc. reflexivity. }
  pose proof (Z.div_mod (valueCents + 50) 100 ltac:(lia)) as Hdiv.
  pose proof (Z.mod_pos_bound (valueCents + 50) 100 ltac:(lia)) as Hmod.
  assert (Hq : 0 <= (valueCents + 50) / 100) by (apply Z.div_pos; lia).
  assert (Hb : BudgetInput_onBlur (BudgetInput_value valueCents)
               = 100 * ((valueCents + 50) / 100)).
  { rewrite Hv. unfold BudgetInput_onBlur.
    rewrite parseMoneyToCents_ofZ; [lia | exact Hq |].
    change (2 ^ 52) with 4503599627370496. lia. }
  split; [exact Hv|]. split; [exact Hb|]. split.
  - rewrite Hb.
    pose proof (Z.div_mod valueCents 100 ltac:(lia)) as Hdiv'.
    pose proof (Z.mod_pos_bound valueCents 100 ltac:(lia)) as Hmod'.
    split; intros H.
    + rewrite <- H. rewrite Z.mul_comm. apply Z.mod_mul. lia.
    + rewrite H in Hdiv'.
      replace ((valueCents + 50) / 100) with (valueCents / 100); [lia|].
      apply (Z.div_unique _ _ _ 50); lia.
  - intros text. unfold BudgetInput_onBlur. lia.
Qed.

Lemma BudgetInput_blur_rounds_witness :
  BudgetInput_value 12350 = "124"
  /\ BudgetInput_onBlur (BudgetInput_value 12350) = 12400
  /\ BudgetInput_onBlur (BudgetInput_value 60000) = 60000.
Proof.
  destruct (BudgetInput_blur_rounds 12350) as (H1 & H2 & _);
    [split; [lia | discriminate]|].
  destruct (BudgetInput_blur_rounds 60000) as (_ & _ & H3 & _);
    [split; [lia | discriminate]|].
  split; [rewrite H1; vm_compute; reflexivity|].
  split; [rewrite H2; vm_compute; reflexivity|].
  apply H3. reflexivity.
Defined.

End MoneyFacts.

Section FormatFacts.
Import JsString JsNumber.

Variable format : Currency -> Z -> double -> string.

(** [formatMoney] writes a minus sign in front of a negative amount and
    nothing in front of another; it hands the formatter the size of the
    amount in units, with two fraction digits, or, when cents are hidden,
    the number of units nearest to it (a half goes up) with none.
    [formatDeltaCurrency] differs only by the plus sign it writes in front
    of an amount that is not negative: no text of either carries two
    signs of the program's. *)
Theorem formatMoney_sign_and_value (cents : Z) (currency : Currency) :
  formatMoney format cents currency false
  = (if cents <? 0 then "-" else "")
    ++ format currency 2 (fdiv (Z.abs cents) 100)
  /\ (Z.abs cents <= 2 ^ 44 ->
      formatMoney format cents currency true
      = (if cents <? 0 then "-" else "")
        ++ format currency 0 (toDouble ((Z.abs cents + 50) / 100) 1))
  /\ (forall hideCents,
         formatDeltaCurrency format cents currency hideCents
         = if cents <? 0 then formatMoney format cents currency hideCents
           else "+" ++ formatMoney format cents currency hideCents).
Proof.
  split; [reflexivity|]. split.
  - intros Hsize. unfold formatMoney. cbv zeta.
    rewrite Math_round_hundredths by lia. reflexivity.
  - intros hideCents. unfold formatDeltaCurrency, formatMoney. cbv zeta.
    rewrite Z.abs_idemp.
    destruct (Z.ltb_spec (Z.abs cents) 0); [lia|].
    destruct (Z.leb_spec 0 cents); destruct (Z.ltb_spec cents 0); try lia;
      reflexivity.
Qed.

End FormatFacts.

Lemma formatMoney_sign_and_value_witness :
formatMoney (fun _ _ x => JsString.ofZ (JsNumber.Math_round x)) (-12350) CAD true
= "-124"
/\ formatDeltaCurrency (fun _ _ x => JsString.ofZ (JsNumber.Math_round x)) 12349 CAD true
   = "+123".
Proof.
destruct (formatMoney_sign_and_value
            (fun _ _ x => JsString.ofZ (JsNumber.Math_round x)) (-12350) CAD)
  as (_ & H & _).
destruct (formatMoney_sign_and_value
            (fun _ _ x => JsString.ofZ (JsNumber.Math_round x)) 12349 CAD)
  as (_ & H' & Hd).
split.
- rewrite H; [vm_compute; reflexivity | vm_compute; discriminate].
- rewrite Hd. cbv iota beta. change (12349 <? 0) with false. cbv iota.
  rewrite H'; [vm_compute; reflexivity | vm_compute; discriminate].
Defined.

(** ** Dates as texts and as days *)

Section CalendarFacts.
Import JsString JsDate.

Lemma ascii_compare_digitValue (a b : ascii) :
  Ascii.compare a b = (digitValue a ?= digitValue b).
Proof.
  unfold Ascii.compare, digitValue, nat_of_ascii.
  rewrite !N_nat_Z.
  destruct (N.compare_spec (N_of_ascii a) (N_of_ascii b)); symmetry;
    [apply Z.compare_eq_iff | apply Z.compare_lt_iff | apply Z.compare_gt_iff];
    lia.
Qed.

Ltac same_compare :=
  match goal with
  | |- (?a ?= ?b) = (?c ?= ?d) =>
      destruct (Z.compare_spec c d);
      [apply Z.compare_eq_iff | apply Z.compare_lt_iff | apply Z.compare_gt_iff];
      lia
  end.

Lemma DaysBeforeMonth_step (y m m' : Z) :
  0 <= m -> m < m' -> m' <= 11 ->
  DaysBeforeMonth y m + DaysInMonth y m <= DaysBeforeMonth y m'.
Proof.
  intros H0 Hlt H11.
  assert (Hm : m = 0 \/ m = 1 \/ m = 2 \/ m = 3 \/ m = 4 \/ m = 5 \/ m = 6
               \/ m = 7 \/ m = 8 \/ m = 9 \/ m = 10) by lia.
  assert (Hm' : m' = 1 \/ m' = 2 \/ m' = 3 \/ m' = 4 \/ m' = 5 \/ m' = 6
                \/ m' = 7 \/ m' = 8 \/ m' = 9 \/ m' = 10 \/ m' = 11) by lia.
  unfold DaysBeforeMonth, DaysInMonth.
  repeat (destruct Hm as [-> | Hm]); try subst m;
    repeat (destruct Hm' as [-> | Hm']); try subst m';
    try lia; destruct (InLeapYear y); cbn; lia.
Qed.

(** Calendar dates are ordered as their days are. *)
Lemma MakeDay_compare (y m d y' m' d' : Z) :
  civil y m d -> civil y' m' d' ->
  (MakeDay y m d ?= MakeDay y' m' d')
  = (10000 * y + 100 * m + d ?= 10000 * y' + 100 * m' + d').
Proof.
  intros [Hm Hd] [Hm' Hd'].
  pose proof (MakeDay_within_year y m d Hm Hd) as Hin.
  pose proof (MakeDay_within_year y' m' d' Hm' Hd') as Hin'.
  assert (Hd31 : forall yy mm dd, 1 <= dd <= DaysInMonth yy mm -> dd <= 31).
  { intros yy mm dd H. unfold DaysInMonth in H.
    destruct (mm =? 1); [destruct (InLeapYear yy)|];
      [lia | lia | destruct ((mm =? 3) || (mm =? 5) || (mm =? 8) || (mm =? 10)); lia]. }
  pose proof (Hd31 _ _ _ Hd). pose proof (Hd31 _ _ _ Hd').
  destruct (Z.lt_total y y') as [Hy | [Hy | Hy]].
  - pose proof (DayFromYear_mono (y + 1) y' ltac:(lia)). same_compare.
  - subst y'. clear Hin Hin'. rewrite !MakeDay_in_year by assumption.
    destruct (Z.lt_total m m') as [Hmm | [Hmm | Hmm]].
    + pose proof (DaysBeforeMonth_step y m m' ltac:(lia) Hmm ltac:(lia)).
      same_compare.
    + subst m'. same_compare.
    + pose proof (DaysBeforeMonth_step y m' m ltac:(lia) Hmm ltac:(lia)).
      same_compare.
  - pose proof (DayFromYear_mono (y' + 1) y ltac:(lia)). same_compare.
Qed.

(** What a text that reads as a date is made of. *)
Lemma newDate_Some (s : string) (a : Z) :
  newDate s = Some a ->
  exists y1 y2 y3 y4 m1 m2 d1 d2,
    s = String y1 (String y2 (String y3 (String y4 (String "-"
          (String m1 (String m2 (String "-" (String d1 (String d2 "")))))))))
    /\ (0 <= digitValue y1 <= 9 /\ 0 <= digitValue y2 <= 9
        /\ 0 <= digitValue y3 <= 9 /\ 0 <= digitValue y4 <= 9)
    /\ (0 <= digitValue m1 <= 9 /\ 0 <= digitValue m2 <= 9)
    /\ (0 <= digitValue d1 <= 9 /\ 0 <= digitValue d2 <= 9)
    /\ civil (digits4 y1 y2 y3 y4) (digits2 m1 m2 - 1) (digits2 d1 d2)
    /\ a = MakeDay (digits4 y1 y2 y3 y4) (digits2 m1 m2 - 1) (digits2 d1 d2).
Proof.
  unfold newDate.
  destruct s as [|y1 [|y2 [|y3 [|y4 [|h1 [|m1 [|m2 [|h2 [|d1 [|d2 [|? ?]]]]]]]]]]];
    try discriminate.
  destruct (isDigit y1 && isDigit y2 && isDigit y3 && isDigit y4
            && Ascii.eqb h1 "-" && isDigit m1 && isDigit m2
            && Ascii.eqb h2 "-" && isDigit d1 && isDigit d2) eqn:E;
    [|discriminate].
  do 9 (apply andb_prop in E; destruct E as [E ?]).
  destruct ((1 <=? digits2 m1 m2) && (digits2 m1 m2 <=? 12)
            && (1 <=? digits2 d1 d2)
            && (digits2 d1 d2 <=? DaysInMonth (digits4 y1 y2 y3 y4) (digits2 m1 m2 - 1)))
    eqn:V; [|discriminate].
  do 3 (apply andb_prop in V; destruct V as [V ?]).
  intros Ha. inversion Ha; subst a; clear Ha.
  repeat match goal with
         | H : (_ <=? _) = true |- _ => apply Z.leb_le in H
         | H : Ascii.eqb _ _ = true |- _ => apply Ascii.eqb_eq in H
         | H : isDigit _ = true |- _ => apply digitValue_digit in H
         end.
  subst h1 h2.
  exists y1, y2, y3, y4, m1, m2, d1, d2.
  split; [reflexivity|]. unfold civil. repeat split; lia.
Qed.

(** Two texts that read as dates compare, as texts, the way their days
    compare. *)
Lemma date_compare (s1 s2 : string) (a1 a2 : Z) :
  newDate s1 = Some a1 -> newDate s2 = Some a2 ->
  String.compare s1 s2 = (a1 ?= a2).
Proof.
  intros H1 H2.
  destruct (newDate_Some s1 a1 H1)
    as (y1 & y2 & y3 & y4 & m1 & m2 & d1 & d2 & -> & Hy & Hm & Hd & Hc & ->).
  destruct (newDate_Some s2 a2 H2)
    as (z1 & z2 & z3 & z4 & n1 & n2 & e1 & e2 & -> & Hz & Hn & He & Hc' & ->).
  rewrite (MakeDay_compare _ _ _ _ _ _ Hc Hc').
  cbn [String.compare]. rewrite !ascii_compare_digitValue.
  change (digitValue "-" ?= digitValue "-") with Eq. cbv iota.
  unfold digits4, digits2.
  generalize dependent (digitValue y1). generalize dependent (digitValue y2).
  generalize dependent (digitValue y3). generalize dependent (digitValue y4).
  generalize dependent (digitValue m1). generalize dependent (digitValue m2).
  generalize dependent (digitValue d1). generalize dependent (digitValue d2).
  generalize dependent (digitValue z1). generalize dependent (digitValue z2).
  generalize dependent (digitValue z3). generalize dependent (digitValue z4).
  generalize dependent (digitValue n1). generalize dependent (digitValue n2).
  generalize dependent (digitValue e1). generalize dependent (digitValue e2).
  clear. intros.
  repeat match goal with
         | |- context [?a ?= ?b] =>
             is_var a; is_var b;
             destruct (Z.compare_spec a b);
             [subst a | symmetry; apply Z.compare_lt_iff; lia
              | symmetry; apply Z.compare_gt_iff; lia]
         end.
  symmetry. apply Z.compare_eq_iff. lia.
Qed.

Lemma DaysInMonth_range (y m : Z) : 28 <= DaysInMonth y m <= 31.
Proof.
  unfold DaysInMonth.
  destruct (m =? 1); [destruct (InLeapYear y); lia|].
  destruct ((m =? 3) || (m =? 5) || (m =? 8) || (m =? 10)); lia.
Qed.

(** The year, month and date of the day of a calendar date are that
    date. *)
Lemma civil_unique (y m d : Z) :
  civil y m d ->
  YearFromDay (MakeDay y m d) = y
  /\ MonthFromDay (MakeDay y m d) = m
  /\ DateFromDay (MakeDay y m d) = d.
Proof.
  intros Hc. set (n := MakeDay y m d).
  destruct (civil_of_day n) as (Hm & Hd & Hmake).
  assert (Hc' : civil (YearFromDay n) (MonthFromDay n) (DateFromDay n))
    by (split; assumption).
  pose proof (MakeDay_compare _ _ _ _ _ _ Hc' Hc) as Hcmp.
  fold n in Hcmp. rewrite Hmake, Z.compare_refl in Hcmp.
  symmetry in Hcmp. apply Z.compare_eq_iff in Hcmp.
  destruct Hc as [Hm0 Hd0].
  pose proof (DaysInMonth_range y m). 
  pose proof (DaysInMonth_range (YearFromDay n) (MonthFromDay n)).
  lia.
Qed.

Lemma date_text_inj (s1 s2 : string) (a : Z) :
  newDate s1 = Some a -> newDate s2 = Some a -> s1 = s2.
Proof.
  intros H1 H2. apply String.compare_eq_iff.
  rewrite (date_compare s1 s2 a a H1 H2). apply Z.compare_refl.
Qed.

(** A text that reads as a day of the years 1000 to 9999 is the text that
    the program prints for that day. *)
Lemma formatISO_newDate (s : string) (n : Z) :
  newDate s = Some n -> MakeDay 1000 0 1 <= n -> formatISO (Some n) = s.
Proof.
  intros Hs Hlow. pose proof (newDate_upper s n Hs) as Hup.
  apply (date_text_inj _ _ n); [|exact Hs].
  apply newDate_formatISO. lia.
Qed.

Lemma addDaysISO_days (s : string) (n k : Z) :
  newDate s = Some n -> addDaysISO s k = formatISO (Some (n + k)).
Proof.
  intros Hs. unfold addDaysISO. rewrite Hs, setDate_shift. reflexivity.
Qed.

Lemma string_leb_days (s1 s2 : string) (a1 a2 : Z) :
  newDate s1 = Some a1 -> newDate s2 = Some a2 ->
  String.leb s1 s2 = (a1 <=? a2) /\ String.ltb s1 s2 = (a1 <? a2).
Proof.
  intros H1 H2. unfold String.leb, String.ltb, Z.leb, Z.ltb.
  rewrite (date_compare s1 s2 a1 a2 H1 H2). split; reflexivity.
Qed.

Lemma dateInRange_days (d lo hi : string) (n a b : Z) :
  newDate d = Some n -> newDate lo = Some a -> newDate hi = Some b ->
  dateInRange d lo hi = (a <=? n) && (n <=? b).
Proof.
  intros Hn Ha Hb. unfold dateInRange.
  destruct (string_leb_days lo d a n Ha Hn) as [-> _].
  destruct (string_leb_days d hi n b Hn Hb) as [-> _].
  reflexivity.
Qed.

(** The texts YYYY-MM-DD of the days of the calendar are the texts that
    the model of [new Date] reads as a day. *)
Lemma calendarText_newDate (s : string) (n : Z) :
  calendarText s n <-> newDate s = Some n.
Proof.
  split.
  - intros (y1 & y2 & y3 & y4 & m1 & m2 & d1 & d2 & -> & Hdig & [Hm Hd] & ->).
    cbn [forallb] in Hdig.
    repeat (apply andb_prop in Hdig; destruct Hdig as [? Hdig]).
    unfold newDate.
    repeat match goal with
           | H : isDigit _ = true |- _ => rewrite H; clear H
           end.
    change (Ascii.eqb "-" "-") with true. cbn [andb]. cbv zeta.
    replace (1 <=? digits2 m1 m2) with true by (symmetry; apply Z.leb_le; lia).
    replace (digits2 m1 m2 <=? 12) with true by (symmetry; apply Z.leb_le; lia).
    replace (1 <=? digits2 d1 d2) with true by (symmetry; apply Z.leb_le; lia).
    replace (digits2 d1 d2 <=? DaysInMonth (digits4 y1 y2 y3 y4) (digits2 m1 m2 - 1))
      with true by (symmetry; apply Z.leb_le; lia).
    reflexivity.
  - unfold newDate.
    destruct s as [|y1 [|y2 [|y3 [|y4 [|h1 [|m1 [|m2 [|h2 [|d1 [|d2 [|? ?]]]]]]]]]]];
      try discriminate.
    destruct (isDigit y1 && isDigit y2 && isDigit y3 && isDigit y4
              && Ascii.eqb h1 "-" && isDigit m1 && isDigit m2
              && Ascii.eqb h2 "-" && isDigit d1 && isDigit d2) eqn:E;
      [|discriminate].
    do 9 (apply andb_prop in E; destruct E as [E ?]).
    destruct ((1 <=? digits2 m1 m2) && (digits2 m1 m2 <=? 12)
              && (1 <=? digits2 d1 d2)
              && (digits2 d1 d2 <=? DaysInMonth (digits4 y1 y2 y3 y4) (digits2 m1 m2 - 1)))
      eqn:V; [|discriminate].
    do 3 (apply andb_prop in V; destruct V as [V ?]).
    intros Ha. inversion Ha; subst n; clear Ha.
    repeat match goal with
           | H : (_ <=? _) = true |- _ => apply Z.leb_le in H
           | H : Ascii.eqb _ _ = true |- _ => apply Ascii.eqb_eq in H
           end.
    subst h1 h2.
    exists y1, y2, y3, y4, m1, m2, d1, d2.
    split; [reflexivity|]. split.
    + cbn [forallb].
      repeat match goal with
             | H : isDigit _ = true |- _ => rewrite H; clear H
             end.
      reflexivity.
    + split; [|reflexivity]. unfold civil. lia.
Qed.

(** A concrete text YYYY-MM-DD names the day given. *)
Ltac calendar_text :=
  do 8 eexists;
  split; [reflexivity|];
  split; [reflexivity|];
  split; [unfold civil; split; split; vm_compute; discriminate
         | vm_compute; reflexivity].

(** On the texts YYYY-MM-DD of the days of the calendar, the comparisons
    of texts that the program makes are the comparisons of the days:
    [dateInRange] holds exactly for the days from the first to the last of
    the range, both included, the order by which lists are sorted is the
    order of time, and two texts of the same day are the same text.
    (Nothing is said of other spellings of a date, such as a day past the
    end of its month: there the order of texts is not the order of
    days.) *)
Theorem dateInRange_chronological (dateISO minISO maxISO : string) (n a b : Z) :
  calendarText dateISO n ->
  calendarText minISO a ->
  calendarText maxISO b ->
  dateInRange dateISO minISO maxISO = (a <=? n) && (n <=? b)
  /\ String.ltb dateISO minISO = (n <? a)
  /\ (n = a -> dateISO = minISO).
Proof.
  intros Hn Ha Hb.
  apply calendarText_newDate in Hn. apply calendarText_newDate in Ha.
  apply calendarText_newDate in Hb. unfold dateInRange.
  destruct (string_leb_days minISO dateISO a n Ha Hn) as [-> _].
  destruct (string_leb_days dateISO maxISO n b Hn Hb) as [-> _].
  destruct (string_leb_days dateISO minISO n a Hn Ha) as [_ ->].
  split; [reflexivity|]. split; [reflexivity|].
  intros ->. apply (date_text_inj _ _ a); assumption.
Qed.

Lemma dateInRange_chronological_witness :
  dateInRange "2025-02-28" "2025-02-01" "2025-03-01" = true
  /\ String.ltb "2024-12-31" "2025-01-01" = true.
Proof.
  destruct (dateInRange_chronological "2025-02-28" "2025-02-01" "2025-03-01"
              20147 20120 20148) as (H1 & _);
    [calendar_text..|].
  destruct (dateInRange_chronological "2024-12-31" "2025-01-01" "2025-01-01"
              20088 20089 20089) as (_ & H2 & _);
    [calendar_text..|].
  split; [rewrite H1 | rewrite H2]; reflexivity.
Defined.

(** [addDaysISO] moves a calendar date YYYY-MM-DD by the number of days
    given, backwards for a negative number: as long as the result stays
    in the years 1000 to 9999, the text it returns is the text YYYY-MM-DD
    of the day that many days later, and adding days in two steps is
    adding their sum.  Adding no day returns the text given. *)
Theorem addDaysISO_shifts (dateISO : string) (n days : Z) :
  calendarText dateISO n ->
  (fourDigitYear (n + days) ->
   calendarText (addDaysISO dateISO days) (n + days)
   /\ forall more,
        fourDigitYear (n + days + more) ->
        calendarText (addDaysISO (addDaysISO dateISO days) more) (n + days + more)
        /\ addDaysISO (addDaysISO dateISO days) more
           = addDaysISO dateISO (days + more))
  /\ (fourDigitYear n -> addDaysISO dateISO 0 = dateISO).
Proof.
  intros Hn. apply calendarText_newDate in Hn. unfold fourDigitYear. split.
  - intros Hrange. rewrite (addDaysISO_days _ _ _ Hn).
    split; [apply calendarText_newDate, newDate_formatISO; exact Hrange|].
    intros more Hmore.
    rewrite (addDaysISO_days _ (n + days) more (newDate_formatISO _ Hrange)).
    split; [apply calendarText_newDate, newDate_formatISO; exact Hmore|].
    rewrite (addDaysISO_days _ _ _ Hn). f_equal. f_equal. lia.
  - intros Hn4. rewrite (addDaysISO_days _ _ _ Hn), Z.add_0_r.
    apply formatISO_newDate; [exact Hn | lia].
Qed.

Lemma addDaysISO_shifts_witness :
  calendarText (addDaysISO "2024-03-01" (-1)) 19782
  /\ addDaysISO "2024-03-01" (-1) = "2024-02-29".
Proof.
  destruct (addDaysISO_shifts "2024-03-01" 19783 (-1)) as [H _];
    [calendar_text|].
  destruct H as (H1 & _).
  - unfold fourDigitYear. vm_compute. split; discriminate.
  - split; [exact H1 | vm_compute; reflexivity].
Defined.

Lemma month_days (y m d : Z) :
  0 <= m <= 11 -> MakeDay y m d = MakeDay y m 1 + d - 1.
Proof. intros Hm. rewrite !MakeDay_in_year by exact Hm. lia. Qed.

(** The days of a month, counted from its first day. *)
Lemma in_month (y m x : Z) :
  0 <= m <= 11 ->
  MakeDay y m 1 <= x < MakeDay y m 1 + DaysInMonth y m ->
  YearFromDay x = y /\ MonthFromDay x = m
  /\ DateFromDay x = x - MakeDay y m 1 + 1
  /\ firstOfMonth x = MakeDay y m 1.
Proof.
  intros Hm Hx.
  assert (Hc : civil y m (x - MakeDay y m 1 + 1)) by (split; lia).
  destruct (civil_unique _ _ _ Hc) as (Hy & Hmm & Hd).
  rewrite month_days in Hy, Hmm, Hd by exact Hm.
  replace (MakeDay y m 1 + (x - MakeDay y m 1 + 1) - 1) with x in * by lia.
  unfold firstOfMonth. rewrite Hd. repeat split; try assumption. lia.
Qed.

Lemma next_month_first (y m : Z) :
  0 <= m <= 11 -> MakeDay y (m + 1) 1 = MakeDay y m 1 + DaysInMonth y m.
Proof.
  intros Hm. destruct (Z.eq_dec m 11) as [->|Hne].
  - unfold MakeDay. change ((11 + 1) / 12) with 1. change ((11 + 1) mod 12) with 0.
    change (11 / 12) with 0. change (11 mod 12) with 11.
    replace (y + 0) with y by lia. rewrite DayFromYear_next.
    unfold DaysBeforeMonth, DaysInMonth. destruct (InLeapYear y); cbn; lia.
  - rewrite !MakeDay_in_year by lia.
    assert (Hcases : m = 0 \/ m = 1 \/ m = 2 \/ m = 3 \/ m = 4 \/ m = 5 \/ m = 6
                     \/ m = 7 \/ m = 8 \/ m = 9 \/ m = 10) by lia.
    unfold DaysBeforeMonth, DaysInMonth.
    repeat (destruct Hcases as [-> | Hcases]); try subst m;
      destruct (InLeapYear y); cbn; lia.
Qed.

(** The month before month [m] of year [y]: its year, its number and its
    first day, which [MakeDay] reaches with the month [m - 1]. *)
Lemma prev_month_first (y m : Z) :
  0 <= m <= 11 ->
  exists y' m',
    0 <= m' <= 11 /\ y - 1 <= y' <= y
    /\ MakeDay y m 1 = MakeDay y' m' 1 + DaysInMonth y' m'
    /\ forall d, MakeDay y (m - 1) d = MakeDay y' m' 1 + d - 1.
Proof.
  intros Hm. destruct (Z.eq_dec m 0) as [->|Hne].
  - exists (y - 1), 11. split; [lia|]. split; [lia|]. split.
    + rewrite <- next_month_first by lia. unfold MakeDay.
      change ((11 + 1) / 12) with 1. change ((11 + 1) mod 12) with 0.
      change (0 / 12) with 0. change (0 mod 12) with 0.
      replace (y + 0) with y by lia. replace (y - 1 + 1) with y by lia.
      reflexivity.
    + intros d. unfold MakeDay.
      change ((0 - 1) / 12) with (-1). change ((0 - 1) mod 12) with 11.
      change (11 / 12) with 0. change (11 mod 12) with 11.
      replace (y + -1) with (y - 1) by lia. replace (y - 1 + 0) with (y - 1) by lia.
      lia.
  - exists y, (m - 1). split; [lia|]. split; [lia|]. split.
    + rewrite <- next_month_first by lia.
      replace (m - 1 + 1) with m by lia. reflexivity.
    + intros d. apply month_days. lia.
Qed.

(** The text [Y-MM-01] that the program builds for the month of a day of
    the years 1000 to 9999 reads as the first day of that month. *)
Lemma month_text (p : Z) :
  fourDigitYear p ->
  newDate (showNumber (getFullYear (Some p)) ++ "-"
           ++ padStart2 (showNumber (lift2 Z.add (getMonth (Some p)) (Some 1)))
           ++ "-01")
  = Some (firstOfMonth p)
  /\ firstOfMonth p = MakeDay (YearFromDay p) (MonthFromDay p) 1
  /\ firstOfMonth p <= p < firstOfMonth p + DaysInMonth (YearFromDay p) (MonthFromDay p).
Proof.
  intros Hp. destruct (civil_of_day p) as (Hm & Hd & Hmake).
  pose proof (YearFromDay_range p Hp) as Hy.
  assert (Hfirst : firstOfMonth p = MakeDay (YearFromDay p) (MonthFromDay p) 1).
  { unfold firstOfMonth. rewrite month_days in Hmake by exact Hm. lia. }
  split; [|split; [exact Hfirst|]].
  - cbn [getFullYear getMonth option_map lift2 showNumber].
    pose proof (newDate_of_text (YearFromDay p) (MonthFromDay p) 1 Hy Hm) as Ht.
    rewrite Hfirst. apply Ht. pose proof (DaysInMonth_range (YearFromDay p) (MonthFromDay p)).
    lia.
  - rewrite Hfirst. rewrite month_days in Hmake by exact Hm. lia.
Qed.

Lemma firstOfMonth_fourDigitYear (p : Z) :
  fourDigitYear p -> fourDigitYear (firstOfMonth p).
Proof.
  intros Hp. destruct (month_text p Hp) as (_ & Hfirst & Hle).
  pose proof (YearFromDay_range p Hp) as Hy.
  destruct (civil_of_day p) as (Hm & _ & _).
  pose proof (MakeDay_within_year (YearFromDay p) (MonthFromDay p) 1 Hm) as Hin.
  pose proof (DaysInMonth_range (YearFromDay p) (MonthFromDay p)).
  pose proof (DayFromYear_mono 1000 (YearFromDay p) ltac:(lia)).
  unfold fourDigitYear in *. change (MakeDay 1000 0 1) with (DayFromYear 1000) in *.
  rewrite Hfirst. lia.
Qed.

(** [monthStartISO] gives the first day of the month of a calendar date
    YYYY-MM-DD of the years 1000 to 9999: the text YYYY-MM-DD of a day
    dated the first, of the same month and year, not after the date, and
    that [monthStartISO] leaves as it is. *)
Theorem monthStartISO_first (dateISO : string) (n : Z) :
  calendarText dateISO n -> fourDigitYear n ->
  calendarText (monthStartISO dateISO) (firstOfMonth n)
  /\ DateFromDay (firstOfMonth n) = 1
  /\ MonthFromDay (firstOfMonth n) = MonthFromDay n
  /\ YearFromDay (firstOfMonth n) = YearFromDay n
  /\ firstOfMonth n <= n
  /\ dateInRange dateISO (monthStartISO dateISO) dateISO = true
  /\ monthStartISO (monthStartISO dateISO) = monthStartISO dateISO.
Proof.
  intros Hn Hn4. apply calendarText_newDate in Hn.
  destruct (month_text n Hn4) as (Htext & Hfirst & Hle).
  destruct (civil_of_day n) as (Hm & _ & _).
  assert (Hstart : newDate (monthStartISO dateISO) = Some (firstOfMonth n)).
  { unfold monthStartISO. rewrite Hn. exact Htext. }
  destruct (in_month (YearFromDay n) (MonthFromDay n) (firstOfMonth n) Hm)
    as (Hy1 & Hm1 & Hd1 & Hf1).
  { pose proof (DaysInMonth_range (YearFromDay n) (MonthFromDay n)). lia. }
  split; [apply calendarText_newDate; exact Hstart|].
  split; [lia|]. split; [exact Hm1|].
  split; [exact Hy1|]. split; [lia|]. split.
  - unfold dateInRange.
    destruct (string_leb_days _ _ _ _ Hstart Hn) as [-> _].
    destruct (string_leb_days _ _ _ _ Hn Hn) as [-> _].
    apply andb_true_intro. split; apply Z.leb_le; lia.
  - destruct (month_text (firstOfMonth n) (firstOfMonth_fourDigitYear n Hn4))
      as (Htext' & _ & _).
    assert (Hff : firstOfMonth (firstOfMonth n) = firstOfMonth n)
      by (rewrite Hf1; symmetry; exact Hfirst).
    rewrite Hff in Htext'.
    apply (date_text_inj _ _ (firstOfMonth n)); [|exact Hstart].
    unfold monthStartISO at 1. rewrite Hstart. exact Htext'.
Qed.

Lemma monthStartISO_first_witness :
  calendarText (monthStartISO "2024-02-29") (firstOfMonth 19782)
  /\ monthStartISO "2024-02-29" = "2024-02-01".
Proof.
  destruct (monthStartISO_first "2024-02-29" 19782) as (H1 & _).
  - calendar_text.
  - unfold fourDigitYear. vm_compute. split; discriminate.
  - split; [exact H1 | vm_compute; reflexivity].
Defined.

(** The two ends of the preset [last_month], as days: [p] is the day
    that [setMonth] reaches from today, whose month is the one taken. *)
Lemma last_month_days (today : string) (n : Z) :
  newDate today = Some n ->
  let p := MakeDay (YearFromDay n) (MonthFromDay n - 1) (DateFromDay n) in
  fourDigitYear p ->
  fourDigitYear (firstOfMonth p + DaysInMonth (YearFromDay p) (MonthFromDay p) - 1) ->
  let r := dateRangeForPreset today last_month in
  newDate (DateRange.min r) = Some (firstOfMonth p)
  /\ newDate (DateRange.max r)
     = Some (firstOfMonth p + DaysInMonth (YearFromDay p) (MonthFromDay p) - 1).
Proof.
  intros Hn p Hp Hb r.
  destruct (month_text p Hp) as (Htext & Hfirst & Hle).
  destruct (civil_of_day p) as (Hm & _ & _).
  unfold r, dateRangeForPreset. rewrite Hn.
  change (setMonth (Some n) (lift2 Z.sub (getMonth (Some n)) (Some 1)))
    with (Some p).
  cbv zeta. cbn [DateRange.min DateRange.max].
  split; [exact Htext|].
  rewrite Htext.
  destruct (in_month (YearFromDay p) (MonthFromDay p) (firstOfMonth p) Hm)
    as (Hy1 & Hm1 & Hd1 & _).
  { pose proof (DaysInMonth_range (YearFromDay p) (MonthFromDay p)). lia. }
  assert (Hnext : setMonth (Some (firstOfMonth p))
                    (lift2 Z.add (getMonth (Some (firstOfMonth p))) (Some 1))
                  = Some (firstOfMonth p
                          + DaysInMonth (YearFromDay p) (MonthFromDay p))).
  { cbn [setMonth getMonth lift2 option_map]. rewrite Hy1, Hm1.
    replace (DateFromDay (firstOfMonth p)) with 1 by lia.
    rewrite next_month_first by exact Hm. rewrite <- Hfirst. reflexivity. }
  rewrite Hnext, setDate_back.
  apply newDate_formatISO. exact Hb.
Qed.

(** The ranges of the presets, for a today of the years 1000 to 9999 (and
    90 days at least after their beginning).  [this_month] runs from the
    first of the month to today; [last_90] is the 90 days that end today;
    [last_month] is a whole calendar month, from its first day to its
    last: the month before today's when today's day of the month exists
    in it, and today's own month otherwise (on the 31st after a month of
    30 days, or on the 29th, 30th or 31st of March); [all] is the fixed
    range from 1900 to 2999. *)
Theorem dateRangeForPreset_ranges (today : string) (n : Z) :
  newDate today = Some n -> fourDigitYear n -> fourDigitYear (n - 89) ->
  let first := firstOfMonth n in
  (dateRangeForPreset today this_month
   = DateRange.make (monthStartISO today) today
   /\ dayCount (dateRangeForPreset today this_month) = Some (DateFromDay n))
  /\ (DateRange.max (dateRangeForPreset today last_90) = today
      /\ newDate (DateRange.min (dateRangeForPreset today last_90)) = Some (n - 89)
      /\ dayCount (dateRangeForPreset today last_90) = Some 90)
  /\ (exists a b,
         newDate (DateRange.min (dateRangeForPreset today last_month)) = Some a
         /\ newDate (DateRange.max (dateRangeForPreset today last_month)) = Some b
         /\ DateFromDay a = 1
         /\ b = a + DaysInMonth (YearFromDay a) (MonthFromDay a) - 1
         /\ (DateFromDay n <= DateFromDay (first - 1) -> b = first - 1)
         /\ (DateFromDay (first - 1) < DateFromDay n -> a = first))
  /\ dateRangeForPreset today all = DateRange.make "1900-01-01" "2999-12-31".
Proof.
  intros Hn Hn4 H89 first.
  destruct (month_text n Hn4) as (Htext & Hfirst & Hle).
  destruct (civil_of_day n) as (Hm & Hd & Hmake).
  assert (Hstart : newDate (monthStartISO today) = Some first).
  { unfold monthStartISO. rewrite Hn. exact Htext. }
  split; [|split; [|split; [|reflexivity]]].
  - split; [reflexivity|].
    unfold dayCount, dateRangeForPreset. cbn [DateRange.min DateRange.max].
    rewrite Hstart, Hn. f_equal. unfold first, firstOfMonth. lia.
  - assert (Hmin : newDate (addDaysISO today (-89)) = Some (n - 89)).
    { rewrite (addDaysISO_days _ _ _ Hn). apply newDate_formatISO. exact H89. }
    split; [reflexivity|]. split; [exact Hmin|].
    unfold dayCount, dateRangeForPreset. cbn [DateRange.min DateRange.max].
    rewrite Hmin, Hn. f_equal. lia.
  - set (Y := YearFromDay n) in *. set (M := MonthFromDay n) in *.
    set (D := DateFromDay n) in *.
    destruct (prev_month_first Y M Hm) as (y' & m' & Hm' & Hy' & Hprev & Hreach).
    pose proof (DaysInMonth_range y' m') as HL.
    pose proof (DaysInMonth_range Y M) as HLM.
    fold first in Hfirst. rewrite <- Hfirst in Hprev.
    destruct (in_month y' m' (first - 1) Hm' ltac:(lia)) as (_ & _ & HdL & _).
    assert (HD : n = first + D - 1) by (unfold first, firstOfMonth; fold D; lia).
    pose proof (YearFromDay_range n Hn4) as HY. fold Y in HY.
    assert (Hend : first + DaysInMonth Y M - 1 <= MakeDay 9999 11 31).
    { pose proof (MakeDay_within_year Y M (DaysInMonth Y M) Hm ltac:(lia)) as Hin.
      rewrite month_days in Hin by exact Hm. rewrite <- Hfirst in Hin.
      pose proof (DayFromYear_mono (Y + 1) 10000 ltac:(lia)) as Hmono.
      assert (Hlast : MakeDay 9999 11 31 = DayFromYear 10000 - 1)
        by (vm_compute; reflexivity).
      lia. }
    unfold fourDigitYear in Hn4, H89.
    pose proof (last_month_days today n Hn) as Hdays. cbv zeta in Hdays.
    fold Y M D in Hdays. rewrite (Hreach D) in Hdays.
    destruct (Z_le_gt_dec D (DaysInMonth y' m')) as [Hfits | Hover].
    + destruct (in_month y' m' (MakeDay y' m' 1 + D - 1) Hm' ltac:(lia))
        as (Hyp & Hmp & _ & Hfp).
      rewrite Hyp, Hmp, Hfp in Hdays.
      destruct Hdays as [Hmin Hmax];
        [unfold fourDigitYear; lia | unfold fourDigitYear; lia |].
      destruct (in_month y' m' (MakeDay y' m' 1) Hm' ltac:(lia))
        as (Hya & Hma & Hda & _).
      exists (MakeDay y' m' 1), (MakeDay y' m' 1 + DaysInMonth y' m' - 1).
      rewrite Hya, Hma.
      split; [exact Hmin|]. split; [exact Hmax|]. split; [lia|].
      split; [reflexivity|]. split; [intros _; lia|].
      intros Hc. rewrite HdL in Hc. lia.
    + assert (Hp : MakeDay y' m' 1 + D - 1 = first + (D - DaysInMonth y' m') - 1)
        by lia.
      rewrite Hp in Hdays.
      destruct (in_month Y M (first + (D - DaysInMonth y' m') - 1) Hm)
        as (Hyp & Hmp & _ & Hfp); [rewrite <- Hfirst; lia|].
      rewrite Hyp, Hmp, Hfp, <- Hfirst in Hdays.
      destruct Hdays as [Hmin Hmax];
        [unfold fourDigitYear; lia | unfold fourDigitYear; lia |].
      destruct (in_month Y M first Hm) as (Hya & Hma & Hda & _);
        [rewrite <- Hfirst; lia|].
      exists first, (first + DaysInMonth Y M - 1).
      rewrite Hya, Hma.
      split; [exact Hmin|]. split; [exact Hmax|].
      split; [rewrite <- Hfirst in Hda; lia|].
      split; [reflexivity|]. split; [|intros _; reflexivity].
      intros Hc. rewrite HdL in Hc. lia.
Qed.

Lemma dateRangeForPreset_ranges_witness :
  dayCount (dateRangeForPreset "2025-03-31" last_90) = Some 90
  /\ dateRangeForPreset "2025-03-31" last_month
     = DateRange.make "2025-03-01" "2025-03-31"
  /\ dateRangeForPreset "2025-03-28" last_month
     = DateRange.make "2025-02-01" "2025-02-28".
Proof.
  destruct (dateRangeForPreset_ranges "2025-03-31" 20178) as (_ & (_ & _ & H) & _).
  - vm_compute. reflexivity.
  - unfold fourDigitYear. vm_compute. split; discriminate.
  - unfold fourDigitYear. vm_compute. split; discriminate.
  - split; [exact H|]. split; vm_compute; reflexivity.
Defined.

Lemma leb_ltb (s1 s2 : string) : String.leb s1 s2 = negb (String.ltb s2 s1).
Proof.
  unfold String.leb, String.ltb. rewrite (String.compare_antisym s1 s2).
  destruct (String.compare s2 s1); reflexivity.
Qed.

(** The window of the previous period, for a range from one calendar
    date YYYY-MM-DD to a later or equal one whose previous period starts
    in the year 1000 or later (which leaves out the range of the preset
    [all]): the window runs from the text YYYY-MM-DD of the day that is as
    many days before the first day of the range as the range has days, to
    the text of the day before the range; a calendar date lies in it
    exactly when its day is one of those days; and no text at all lies
    both in the window and in the range, so that no transaction is
    counted both in the figures of the period and in those of the
    previous period. *)
Theorem previous_window_disjoint (r : DateRange) (a b : Z) :
  calendarText (DateRange.min r) a ->
  calendarText (DateRange.max r) b ->
  a <= b ->
  fourDigitYear (a - 1 - (b - a)) ->
  let p := previousDateRange r in
  calendarText (DateRange.min p) (a - 1 - (b - a))
  /\ calendarText (DateRange.max p) (a - 1)
  /\ (forall d n,
         calendarText d n ->
         dateInRange d (DateRange.min p) (DateRange.max p)
         = (a - 1 - (b - a) <=? n) && (n <=? a - 1))
  /\ (forall d,
         dateInRange d (DateRange.min p) (DateRange.max p) = true ->
         dateInRange d (DateRange.min r) (DateRange.max r) = false)
  /\ (forall state accountFilter search t,
         In t (previousRangeTx state p accountFilter) ->
         ~ In t (filteredTx state r accountFilter search)).
Proof.
  intros Ha Hb Hab Hlow p.
  apply calendarText_newDate in Ha. apply calendarText_newDate in Hb.
  pose proof (newDate_upper _ _ Ha) as Hup.
  unfold fourDigitYear in Hlow.
  assert (Hp : p = DateRange.make (formatISO (Some (a - 1 - (b - a))))
                     (formatISO (Some (a - 1))))
    by (apply previousDateRange_days; assumption).
  assert (Hmin : newDate (DateRange.min p) = Some (a - 1 - (b - a)))
    by (rewrite Hp; apply newDate_formatISO; lia).
  assert (Hmax : newDate (DateRange.max p) = Some (a - 1))
    by (rewrite Hp; apply newDate_formatISO; lia).
  assert (Hdisjoint : forall d,
             dateInRange d (DateRange.min p) (DateRange.max p) = true ->
             dateInRange d (DateRange.min r) (DateRange.max r) = false).
  { intros d Hd. unfold dateInRange in *.
    apply andb_prop in Hd. destruct Hd as [_ Hd].
    rewrite leb_ltb in Hd. apply negb_true_iff in Hd.
    destruct (String.leb (DateRange.min r) d) eqn:E; [|reflexivity].
    rewrite leb_ltb in E. apply negb_true_iff in E.
    pose proof (notBefore_trans _ _ _ Hd E) as Hcontra.
    destruct (string_leb_days _ _ _ _ Hmax Ha) as [_ Hlt].
    rewrite Hlt in Hcontra. apply Z.ltb_ge in Hcontra. lia. }
  split; [apply calendarText_newDate; exact Hmin|].
  split; [apply calendarText_newDate; exact Hmax|].
  split; [|split; [exact Hdisjoint|]].
  - intros d n Hn. apply calendarText_newDate in Hn.
    apply dateInRange_days; assumption.
  - intros state accountFilter search t Hprev Hcur.
    unfold previousRangeTx in Hprev.
    apply filter_In in Hprev. destruct Hprev as [Hprev _].
    apply filter_In in Hprev. destruct Hprev as [_ Hprev].
    apply (Permutation_in _ (filteredTx_perm _ _ _ _)) in Hcur.
    apply filter_In in Hcur. destruct Hcur as [_ Hcur].
    unfold passesFilters in Hcur.
    apply andb_prop in Hcur. destruct Hcur as [Hcur _].
    apply andb_prop in Hcur. destruct Hcur as [Hcur _].
    rewrite (Hdisjoint _ Hprev) in Hcur. discriminate.
Qed.

Lemma previous_window_disjoint_witness :
  previousDateRange marchRange = DateRange.make "2025-01-29" "2025-02-28"
  /\ dateInRange "2025-02-28" (DateRange.min (previousDateRange marchRange))
       (DateRange.max (previousDateRange marchRange))
     = true
  /\ dateInRange "2025-02-28" (DateRange.min marchRange) (DateRange.max marchRange)
     = false.
Proof.
  destruct (previous_window_disjoint marchRange 20148 20178)
    as (_ & _ & Hin & Hout & _).
  - calendar_text.
  - calendar_text.
  - lia.
  - unfold fourDigitYear. vm_compute. split; discriminate.
  - assert (H : dateInRange "2025-02-28" (DateRange.min (previousDateRange marchRange))
                  (DateRange.max (previousDateRange marchRange)) = true).
    { rewrite (Hin "2025-02-28" 20147); [vm_compute; reflexivity | calendar_text]. }
    split; [vm_compute; reflexivity|].
    split; [exact H | apply Hout; exact H].
Defined.

End CalendarFacts.

(** ** Export followed by import *)

Section RoundTripFacts.
Import JsString JsNumber.

Lemma existsb_eqb_In (x : string) (l : list string) :
  existsb (String.eqb x) l = true <-> In x l.
Proof.
  rewrite existsb_exists. split.
  - intros (y & Hy & E). apply String.eqb_eq in E. subst y. exact Hy.
  - intros H. exists x. split; [exact H | apply String.eqb_refl].
Qed.

Lemma distinct_NoDup (l : list string) : distinct l = true -> NoDup l.
Proof.
  induction l as [|x l IH]; simpl; intros H; [constructor|].
  apply andb_true_iff in H. destruct H as [Hx Hl].
  constructor; [|exact (IH Hl)].
  intros Hin. apply existsb_eqb_In in Hin. rewrite Hin in Hx. discriminate.
Qed.

Lemma fold_set_other {V : Type} (k : string) (l : list (string * V))
    (m : JsMap.Map V) :
  ~ In k (map fst l) ->
  JsMap.get k (fold_left (fun m kv => JsMap.set (fst kv) (snd kv) m) l m)
  = JsMap.get k m.
Proof.
  revert m. induction l as [|[k0 v0] l IH]; intros m Hnot; [reflexivity|].
  simpl in *. rewrite IH by tauto.
  apply get_set_other. intros E. apply Hnot. left. exact E.
Qed.

(** A [Map] built from entries with distinct keys gives each key the
    value of its entry. *)
Lemma ofEntries_get {V : Type} (l : list (string * V)) (k : string) (v : V) :
  NoDup (map fst l) -> In (k, v) l -> JsMap.get k (JsMap.ofEntries l) = Some v.
Proof.
  unfold JsMap.ofEntries. generalize (@nil (string * V)) as m.
  induction l as [|[k0 v0] l IH]; intros m Hnd Hin; [destruct Hin|].
  simpl in Hnd. inversion Hnd as [|? ? Hnot Hnd']; subst.
  destruct Hin as [E|Hin].
  - inversion E; subst. simpl. rewrite fold_set_other by exact Hnot.
    apply get_set_same.
  - simpl. apply IH; assumption.
Qed.

Lemma cellText_spec (s : string) :
  cellText s = true -> (s =? "")%string = false /\ trim s = s.
Proof.
  unfold cellText. intros H. apply andb_true_iff in H. destruct H as [H1 H2].
  apply negb_true_iff in H1. apply String.eqb_eq in H2. split; assumption.
Qed.

Lemma sliceTo_all (n : nat) (s : string) :
  (String.length s <= n)%nat -> sliceTo n s = s.
Proof.
  revert n. induction s as [|c s IH]; intros n H.
  - destruct n; reflexivity.
  - destruct n; simpl in *; [lia|]. rewrite IH by lia. reflexivity.
Qed.

Lemma keepOnly_trimStart (keep : ascii -> bool) (s : string) :
  (forall c, isWhiteSpace c = true -> keep c = false) ->
  keepOnly keep (trimStart s) = keepOnly keep s.
Proof.
  intros keep_visible. induction s as [|c s IH]; [reflexivity|].
  simpl. destruct (isWhiteSpace c) eqn:W; [|reflexivity].
  rewrite (keep_visible c W). exact IH.
Qed.

Lemma keepOnly_trimEnd (keep : ascii -> bool) (s : string) :
  (forall c, isWhiteSpace c = true -> keep c = false) ->
  keepOnly keep (trimEnd s) = keepOnly keep s.
Proof.
  intros keep_visible. induction s as [|c s IH]; [reflexivity|].
  cbn [trimEnd]. destruct (trimEnd s) as [|a r].
  - cbn [keepOnly] in *. rewrite <- IH.
    destruct (isWhiteSpace c) eqn:W.
    + rewrite (keep_visible c W). reflexivity.
    + reflexivity.
  - cbn [keepOnly] in *. rewrite <- IH. reflexivity.
Qed.

Lemma keepOnly_trim (keep : ascii -> bool) (s : string) :
  (forall c, isWhiteSpace c = true -> keep c = false) ->
  keepOnly keep (trim s) = keepOnly keep s.
Proof.
  intros H. unfold trim. rewrite keepOnly_trimEnd by exact H.
  apply keepOnly_trimStart. exact H.
Qed.

Lemma whiteSpace_not_money (c : ascii) :
  isWhiteSpace c = true -> keepMoneyChar c = false.
Proof.
  destruct c as [[] [] [] [] [] [] [] []]; vm_compute; congruence.
Qed.

(** The amount cell of an exported row reads back as the amount. *)
Lemma amount_cell (c : Z) :
  0 < c <= 2 ^ 44 ->
  (trim (toFixed2 c) =? "")%string = false
  /\ Z.abs (parseMoneyToCents (trim (toFixed2 c))) = c.
Proof.
  intros Hc.
  assert (Hparse : parseMoneyToCents (trim (toFixed2 c)) = c).
  { rewrite parseMoneyToCents_cleaned.
    rewrite (keepOnly_trim keepMoneyChar _ whiteSpace_not_money).
    rewrite <- parseMoneyToCents_cleaned.
    apply parseMoneyToCents_toFixed2. lia. }
  split.
  - destruct (trim (toFixed2 c) =? "")%string eqn:E; [|reflexivity].
    apply String.eqb_eq in E. rewrite E in Hparse.
    vm_compute in Hparse. lia.
  - rewrite Hparse. lia.
Qed.

(** Names that identify lead from an identifier to its name and back. *)
Lemma names_resolve {A : Type} (idOf nameOf : A -> string) (l : list A)
    (k : string) :
  namesIdentify (map idOf l) (map nameOf l) = true ->
  In k (map idOf l) ->
  exists name,
    getOrEmpty k (JsMap.ofEntries (map (fun x => (idOf x, nameOf x)) l)) = name
    /\ trim name = name
    /\ (name =? "")%string = false
    /\ forall fallback,
         getOr (safeLower name)
           (JsMap.ofEntries (map (fun x => (safeLower (nameOf x), idOf x)) l))
           fallback = k.
Proof.
  unfold namesIdentify. intros H Hin.
  apply andb_true_iff in H. destruct H as [H Hnames].
  apply andb_true_iff in H. destruct H as [H Hids].
  apply andb_true_iff in H. destruct H as [Hd1 Hd2].
  apply distinct_NoDup in Hd1. apply distinct_NoDup in Hd2.
  apply in_map_iff in Hin. destruct Hin as (x & Hk & Hx).
  assert (Hname : cellText (nameOf x) = true).
  { rewrite forallb_forall in Hnames. apply Hnames.
    apply in_map. exact Hx. }
  apply cellText_spec in Hname. destruct Hname as [Hne Htrim].
  assert (Hid : (k =? "")%string = false).
  { rewrite forallb_forall in Hids. apply negb_true_iff. apply Hids.
    rewrite <- Hk. apply in_map. exact Hx. }
  exists (nameOf x). split; [|split; [exact Htrim | split; [exact Hne|]]].
  - unfold getOrEmpty. rewrite (ofEntries_get _ k (nameOf x)); [reflexivity| |].
    + rewrite map_map. exact Hd1.
    + apply in_map_iff. exists x. rewrite Hk. auto.
  - intros fallback. unfold getOr.
    rewrite (ofEntries_get _ (safeLower (nameOf x)) k).
    + rewrite Hid. reflexivity.
    + rewrite map_map. rewrite map_map in Hd2. exact Hd2.
    + apply in_map_iff. exists x. rewrite Hk. auto.
Qed.

(** The loop body of import on a row of seven cells under the header that
    export writes. *)
Lemma importRow_cells (state : AppState) (id c0 c1 c2 c3 c4 c5 c6 : string) :
  importRow state (importColumns csvHeader) id [c0; c1; c2; c3; c4; c5; c6]
  = let catByName :=
      JsMap.ofEntries
        (map (fun c => (safeLower (Category.name c), Category.id c))
           (AppState.categories state)) in
    let accByName :=
      JsMap.ofEntries
        (map (fun a => (safeLower (Account.name a), Account.id a))
           (AppState.accounts state)) in
    let type := if truthy (Some c3) then c3 else "expense" in
    if (sliceTo 10 c0 =? "")%string || (c1 =? "")%string || (c2 =? "")%string
    then None
    else if Z.abs (parseMoneyToCents c2) <=? 0 then None
    else Some (Transaction.make id (sliceTo 10 c0) c1
                 (Z.abs (parseMoneyToCents c2))
                 (if (type =? "income")%string then income else expense)
                 (if (type =? "income")%string then "cat_income"
                  else if truthy (Some c4)
                  then getOr (safeLower c4) catByName "cat_other"
                  else if Settings.smartCategorize (AppState.settings state)
                  then applySmartCategory c1 (AppState.rules state) "cat_other"
                  else "cat_other")
                 (getOr (safeLower c5) accByName "acc_cc")
                 (if truthy (Some c6) then Some c6 else None)).
Proof. reflexivity. Qed.

(** A transaction that a CSV file can carry comes back from its exported
    row with every field but the identifier. *)
Lemma importRow_exported (source target : AppState) (id : string)
    (t : Transaction) :
  AppState.categories target = AppState.categories source ->
  AppState.accounts target = AppState.accounts source ->
  catalogueIdentifies source = true ->
  exportable source t = true ->
  exists t',
    importRow target (importColumns csvHeader) id
      (map trim
         (closeRow
            (exportRow
               (JsMap.ofEntries
                  (map (fun c => (Category.id c, Category.name c))
                     (AppState.categories source)))
               (JsMap.ofEntries
                  (map (fun a => (Account.id a, Account.name a))
                     (AppState.accounts source)))
               t)))
    = Some t'
    /\ Transaction.id t' = id
    /\ txFields t' = txFields t.
Proof.
  intros Hcats Haccs Hcat Hexp.
  unfold catalogueIdentifies in Hcat.
  apply andb_true_iff in Hcat. destruct Hcat as [Hcn Han].
  unfold exportable in Hexp.
  apply andb_true_iff in Hexp. destruct Hexp as [Hexp Hnote].
  apply andb_true_iff in Hexp. destruct Hexp as [Hexp Hacc].
  apply andb_true_iff in Hexp. destruct Hexp as [Hexp Hcategory].
  apply andb_true_iff in Hexp. destruct Hexp as [Hexp Hmax].
  apply andb_true_iff in Hexp. destruct Hexp as [Hexp Hpos].
  apply andb_true_iff in Hexp. destruct Hexp as [Hexp Hmerchant].
  apply andb_true_iff in Hexp. destruct Hexp as [Hdate Hlen].
  apply cellText_spec in Hdate. destruct Hdate as [Hdate0 Hdate].
  apply cellText_spec in Hmerchant. destruct Hmerchant as [Hmer0 Hmer].
  apply Nat.leb_le in Hlen. apply Z.ltb_lt in Hpos. apply Z.leb_le in Hmax.
  destruct (amount_cell (Transaction.amountCents t) (conj Hpos Hmax))
    as [Hamt0 Hamt].
  apply existsb_eqb_In in Hacc.
  destruct (names_resolve Account.id Account.name (AppState.accounts source)
              (Transaction.accountId t) Han Hacc)
    as (accName & HaccName & HaccTrim & HaccNe & HaccBack).
  assert (Hnote' :
            (if truthy (Some (trim (removeAll CR (orEmpty (Transaction.note t)))))
             then Some (trim (removeAll CR (orEmpty (Transaction.note t))))
             else None) = Transaction.note t).
  { destruct (Transaction.note t) as [s|]; [|reflexivity].
    apply andb_true_iff in Hnote. destruct Hnote as [Hs Hcr].
    apply cellText_spec in Hs. destruct Hs as [Hs0 Hs].
    apply negb_true_iff in Hcr. cbn [orEmpty].
    rewrite removeAll_absent by exact Hcr. rewrite Hs.
    unfold truthy. cbn [orEmpty]. rewrite Hs0. reflexivity. }
  unfold exportRow. cbn [closeRow map].
  rewrite importRow_cells. cbv zeta.
  rewrite Hcats, Haccs, Hdate, Hmer, Hamt0, Hamt, Hnote', HaccName, HaccTrim.
  rewrite (sliceTo_all 10 (Transaction.date t) Hlen).
  rewrite Hdate0, Hmer0. cbn [orb].
  replace (Transaction.amountCents t <=? 0) with false
    by (symmetry; apply Z.leb_gt; exact Hpos).
  rewrite HaccBack.
  eexists. split; [reflexivity|]. split; [reflexivity|].
  unfold txFields. cbn [Transaction.date Transaction.merchant
    Transaction.amountCents Transaction.type Transaction.categoryId
    Transaction.accountId Transaction.note].
  destruct (Transaction.type t) eqn:Htype.
  - (* expense *)
    apply existsb_eqb_In in Hcategory.
    destruct (names_resolve Category.id Category.name
                (AppState.categories source) (Transaction.categoryId t)
                Hcn Hcategory)
      as (catName & HcatName & HcatTrim & HcatNe & HcatBack).
    rewrite HcatName, HcatTrim.
    change (trim (TxType_text expense)) with "expense".
    unfold truthy. cbn [orEmpty]. rewrite HcatNe.
    cbn [negb String.eqb Ascii.eqb Bool.eqb andb].
    rewrite HcatBack. reflexivity.
  - (* income *)
    apply String.eqb_eq in Hcategory.
    change (trim (TxType_text income)) with "income".
    unfold truthy. cbn [orEmpty].
    cbn [negb String.eqb Ascii.eqb Bool.eqb andb].
    rewrite Hcategory. reflexivity.
Qed.

(** The loop of import over rows that all give a transaction: the
    transactions are appended in order, numbered from the length of the
    array. *)
Lemma importRows_all (uid : nat -> string) (state : AppState)
    (cols : ImportColumns.t) (rowOf : Transaction -> list string)
    (ts next : list Transaction) :
  (forall t id, In t ts ->
     exists t', importRow state cols id (rowOf t) = Some t'
                /\ Transaction.id t' = id /\ txFields t' = txFields t) ->
  exists created,
    importRows uid state cols (map rowOf ts) next = (next ++ created)%list
    /\ map txFields created = map txFields ts
    /\ map Transaction.id created
       = map uid (seq (List.length next) (List.length ts)).
Proof.
  revert next. induction ts as [|t ts IH]; intros next Hrow.
  - exists []. rewrite app_nil_r. auto.
  - destruct (Hrow t (uid (List.length next)) (or_introl eq_refl))
      as (t' & Himp & Hid & Hfields).
    destruct (IH (next ++ [t'])%list) as (created & Hrows & Hf & Hids).
    { intros t0 id Hin. apply Hrow. right. exact Hin. }
    exists (t' :: created). cbn [map importRows]. rewrite Himp, Hrows.
    rewrite <- app_assoc. split; [reflexivity|]. split.
    + rewrite Hfields, Hf. reflexivity.
    + rewrite Hid, Hids, length_app. cbn [List.length seq map].
      rewrite Nat.add_1_r. reflexivity.
Qed.

Lemma txFields_date (x y : Transaction) :
  txFields x = txFields y -> Transaction.date x = Transaction.date y.
Proof.
  intros H.
  apply (f_equal (fun f => fst (fst (fst (fst (fst (fst f))))))) in H.
  exact H.
Qed.

(** Lists with the same fields are ordered by date alike. *)
Lemma notBefore_fields (l1 l2 : list Transaction) :
  map txFields l1 = map txFields l2 ->
  StronglySorted notBefore l2 -> StronglySorted notBefore l1.
Proof.
  revert l2. induction l1 as [|x l1 IH]; intros [|y l2] Hmap Hs;
    try discriminate Hmap; [constructor|].
  cbn [map] in Hmap.
  pose proof (f_equal (@tl _) Hmap) as Htl. cbn [tl] in Htl.
  assert (Hxy : txFields x = txFields y)
    by exact (f_equal (hd (txFields x)) Hmap).
  apply StronglySorted_inv in Hs. destruct Hs as [Hs Hall].
  constructor; [exact (IH l2 Htl Hs)|].
  apply Forall_forall. intros z Hz.
  assert (Hin : In (txFields z) (map txFields l2))
    by (rewrite <- Htl; apply in_map; exact Hz).
  apply in_map_iff in Hin. destruct Hin as (z' & Hzz & Hz').
  rewrite Forall_forall in Hall. pose proof (Hall z' Hz') as Hnb.
  unfold notBefore in *.
  rewrite (txFields_date x y Hxy), <- (txFields_date z' z Hzz). exact Hnb.
Qed.

(** A file that holds the transactions of a state, in whatever order,
    and is imported into a state with the same categories and accounts
    adds a copy of every transaction, in front of the transactions
    already there, in the order of the file, with new identifiers and
    otherwise the same fields, provided the file can carry the data:
    category and account names identify, and every transaction is
    exportable.  The file of [exportCSV] is such a file: its copies are
    the transactions of the state, none before one of a later date,
    whatever the order that the sort leaves between transactions of the
    same date. *)
Theorem export_import_round_trip (uid : nat -> string)
    (source target : AppState) (importOpen : bool) :
  AppState.categories target = AppState.categories source ->
  AppState.accounts target = AppState.accounts source ->
  catalogueIdentifies source = true ->
  forallb (exportable source) (AppState.transactions source) = true ->
  AppState.transactions source <> [] ->
  (forall ts,
      Permutation ts (AppState.transactions source) ->
      exists created,
        importFromText uid target
          (ImportDialog.make
             (serialize (AppState.categories source) (AppState.accounts source) ts)
             importOpen)
        = (withTransactions target (created ++ AppState.transactions target)%list,
           ImportDialog.make "" false)
        /\ map txFields created = map txFields ts
        /\ map Transaction.id created = map uid (seq 0 (List.length created)))
  /\ exists created,
       importFromText uid target (ImportDialog.make (exportCSV source) importOpen)
       = (withTransactions target (created ++ AppState.transactions target)%list,
          ImportDialog.make "" false)
       /\ Permutation (map txFields created)
            (map txFields (AppState.transactions source))
       /\ StronglySorted notBefore created
       /\ map Transaction.id created = map uid (seq 0 (List.length created)).
Proof.
  intros Hcats Haccs Hcat Hall Hsome.
  assert (Hfile : forall ts,
             Permutation ts (AppState.transactions source) ->
             exists created,
               importFromText uid target
                 (ImportDialog.make
                    (serialize (AppState.categories source)
                       (AppState.accounts source) ts)
                    importOpen)
               = (withTransactions target
                    (created ++ AppState.transactions target)%list,
                  ImportDialog.make "" false)
               /\ map txFields created = map txFields ts
               /\ map Transaction.id created
                  = map uid (seq 0 (List.length created))).
  { intros ts Hperm.
    destruct (importRows_all uid target (importColumns csvHeader)
                (fun t =>
                   map trim
                     (closeRow
                        (exportRow
                           (JsMap.ofEntries
                              (map (fun c => (Category.id c, Category.name c))
                                 (AppState.categories source)))
                           (JsMap.ofEntries
                              (map (fun a => (Account.id a, Account.name a))
                                 (AppState.accounts source)))
                           t)))
                ts [])
      as (created & Hrows & Hfields & Hids).
    { intros t id Hin. apply importRow_exported; try assumption.
      rewrite forallb_forall in Hall. apply Hall.
      apply (Permutation_in _ Hperm). exact Hin. }
    assert (Hlen : List.length created = List.length ts).
    { rewrite <- (length_map txFields created), Hfields. apply length_map. }
    exists created. split; [|split; [exact Hfields|]].
    - unfold importFromText. cbn [ImportDialog.importText].
      rewrite parse_serialized.
      destruct ts as [|t0 ts'].
      + apply Permutation_nil in Hperm. contradiction.
      + cbn [map] in *.
        change (ImportColumns.dateIdx (importColumns csvHeader) =? -1) with false.
        change (ImportColumns.merchantIdx (importColumns csvHeader) =? -1) with false.
        change (ImportColumns.amountIdx (importColumns csvHeader) =? -1) with false.
        cbn [orb]. cbv zeta. rewrite Hrows. cbn [app].
        destruct created as [|c0 created']; [discriminate Hlen|].
        reflexivity.
    - rewrite Hids, Hlen. reflexivity. }
  split; [exact Hfile|].
  destruct (Hfile (JsArray.sort byDateDescending (AppState.transactions source))
              (sort_perm _ _))
    as (created & Himp & Hfields & Hids).
  exists created. split; [exact Himp|]. split; [|split; [|exact Hids]].
  - rewrite Hfields. apply Permutation_map, sort_perm.
  - apply (notBefore_fields _ _ Hfields), byDateDescending_sorted.
Qed.

Lemma export_import_round_trip_witness :
  exists created,
    importFromText sampleUid (defaultState "2026-01-15")
      (ImportDialog.make (exportCSV (defaultState "2026-01-15")) true)
    = (withTransactions (defaultState "2026-01-15")
         (created
          ++ AppState.transactions (defaultState "2026-01-15"))%list,
       ImportDialog.make "" false)
    /\ Permutation (map txFields created)
         (map txFields (AppState.transactions (defaultState "2026-01-15")))
    /\ StronglySorted notBefore created.
Proof.
  assert (H1 : catalogueIdentifies (defaultState "2026-01-15") = true)
    by (vm_compute; reflexivity).
  assert (H2 : forallb (exportable (defaultState "2026-01-15"))
                 (AppState.transactions (defaultState "2026-01-15")) = true)
    by (vm_compute; reflexivity).
  assert (H3 : AppState.transactions (defaultState "2026-01-15") <> [])
    by discriminate.
  destruct (export_import_round_trip sampleUid (defaultState "2026-01-15")
              (defaultState "2026-01-15") true eq_refl eq_refl H1 H2 H3)
    as (_ & created & Himp & Hperm & Hsorted & _).
  exists created. split; [exact Himp|]. split; [exact Hperm | exact Hsorted].
Defined.

End RoundTripFacts.

(** ** The rows that [parseCSVText] hands over *)

Section CsvShapeFacts.
Import JsString.

Lemma anyChar_app (p : ascii -> bool) (a b : string) :
  anyChar p (a ++ b) = anyChar p a || anyChar p b.
Proof.
  induction a as [|c a IH]; simpl; [reflexivity|].
  rewrite IH, orb_assoc. reflexivity.
Qed.

Lemma trim_blank (s : string) :
  trim s = "" <-> anyChar (fun c => negb (isWhiteSpace c)) s = false.
Proof.
  split; intros H.
  - rewrite <- (anyChar_trim (fun c => negb (isWhiteSpace c))).
    + rewrite H. reflexivity.
    + intros c Hc. apply negb_true_iff in Hc. exact Hc.
  - unfold trim. replace (trimStart s) with ""; [reflexivity|].
    induction s as [|c s IH]; [reflexivity|].
    simpl in H. apply orb_false_elim in H. destruct H as [Hc Hs].
    apply negb_false_iff in Hc. simpl. rewrite Hc. exact (IH Hs).
Qed.

Lemma whiteSpace_plain (c : ascii) :
  isWhiteSpace c = true -> Ascii.eqb c dquote = false /\ Ascii.eqb c comma = false.
Proof.
  intros H. split.
  - destruct (Ascii.eqb_spec c dquote) as [->|]; [discriminate H | reflexivity].
  - destruct (Ascii.eqb_spec c comma) as [->|]; [discriminate H | reflexivity].
Qed.

(** On a text of white space alone the tokenizer makes only blank cells. *)
Lemma tokenize_blank (text : string) (rows : list (list string))
    (row : list string) (cur : string) :
  trim text = "" ->
  Forall (Forall (fun c => trim c = "")) rows ->
  Forall (fun c => trim c = "") row ->
  trim cur = "" ->
  Forall (Forall (fun c => trim c = "")) (tokenize text rows row cur false).
Proof.
  assert (Hclose : forall row cur,
             Forall (fun c => trim c = "") row -> trim cur = "" ->
             Forall (fun c => trim c = "") (row ++ [removeAll CR cur])).
  { intros row0 cur0 Hrow Hcur. apply Forall_app. split; [exact Hrow|].
    constructor; [|constructor]. apply trim_blank.
    rewrite anyChar_removeAll by reflexivity. apply trim_blank. exact Hcur. }
  revert rows row cur. induction text as [|ch rest IH];
    intros rows row cur Htext Hrows Hrow Hcur.
  - simpl. apply Forall_app. split; [exact Hrows|].
    constructor; [|constructor]. apply Hclose; assumption.
  - apply trim_blank in Htext. simpl in Htext.
    apply orb_false_elim in Htext. destruct Htext as [Hch Hrest].
    apply negb_false_iff in Hch. apply trim_blank in Hrest.
    destruct (whiteSpace_plain ch Hch) as [Hq Hc].
    cbn [tokenize]. rewrite Hq, Hc.
    destruct (Ascii.eqb ch LF).
    + apply IH; [exact Hrest| |constructor|reflexivity].
      apply Forall_app. split; [exact Hrows|].
      constructor; [|constructor]. apply Hclose; assumption.
    + apply IH; [exact Hrest|exact Hrows|exact Hrow|].
      apply trim_blank. rewrite anyChar_app. simpl.
      rewrite Hch. simpl. rewrite orb_false_r.
      apply trim_blank. exact Hcur.
Qed.

(** Every row that [parseCSVText] returns has a cell that is not empty,
    and no cell of it begins or ends with white space.  A text of white
    space alone, the empty text included, has no row at all, and
    importing it leaves the state and the dialog as they are. *)
Theorem parseCSVText_rows (text : string) :
  (forall r, In r (parseCSVText text) ->
     (exists c, In c r /\ c <> "")
     /\ forall c, In c r -> trim c = c)
  /\ (trim text = "" ->
      parseCSVText text = []
      /\ forall uid state importOpen,
           importFromText uid state (ImportDialog.make text importOpen)
           = (state, ImportDialog.make text importOpen)).
Proof.
  split.
  - intros r Hr. split.
    + unfold parseCSVText in Hr. apply filter_In in Hr. destruct Hr as [_ Hne].
      unfold nonEmptyRow in Hne. apply existsb_exists in Hne.
      destruct Hne as (c & Hc & Hlen). exists c. split; [exact Hc|].
      intros E. subst c. discriminate Hlen.
    + intros c Hc. apply parseCSVText_In in Hr. destruct Hr as (raw & _ & ->).
      apply in_map_iff in Hc. destruct Hc as (c0 & <- & _). apply trim_idem.
  - intros Hblank.
    assert (Hnone : parseCSVText text = []).
    { unfold parseCSVText.
      pose proof (tokenize_blank text [] [] "" Hblank
                    (Forall_nil _) (Forall_nil _) eq_refl) as Hall.
      induction (tokenize text [] [] "" false) as [|r rows IH];
        [reflexivity|].
      inversion Hall as [|? ? Hr Hrows]; subst.
      cbn [map filter]. rewrite (IH Hrows).
      replace (nonEmptyRow (map trim r)) with false; [reflexivity|].
      symmetry. unfold nonEmptyRow. clear - Hr.
      induction Hr as [|c r Hc Hr IH]; [reflexivity|].
      cbn [map existsb]. rewrite Hc, IH. reflexivity. }
    split; [exact Hnone|].
    intros uid state importOpen. unfold importFromText.
    cbn [ImportDialog.importText]. rewrite Hnone. reflexivity.
Qed.

End CsvShapeFacts.
